(** * LiveChat / Visual3D: a shallow embedding of the send pipeline,
      the history import, the text-to-speech splitter and the visualizer.

    Sources embedded here:
      - [src/LiveChat.ts]: [_sendMessageWithRetry], [_processPrompt],
        [_sendMessage], [_clearFile], [_clearScreenCaptures],
        [_fileToGenerativePart], [_speak], [_handleHistoryUpload];
      - [src/Visual3D.ts]: [updated], [setupVideoVisualizer],
        [setupMicVisualizer], [disconnectedCallback].

    JavaScript strings are modelled as lists of code units below 256
    ([list ascii]); asynchronous code is modelled by its sequential
    meaning, with the outside world (backend, file reader, object URLs)
    given as an environment record and every outward call recorded in an
    effect trace. *)

From Stdlib Require Import String Ascii Numbers.DecimalString.
From Stdlib Require Import Bool Arith Lia List.
Import ListNotations.

Set Implicit Arguments.

(* ================================================================= *)
(** ** JavaScript strings *)

Module JS.

Definition jsstring := list ascii.

(** A literal. *)
Definition str (s : string) : jsstring := list_ascii_of_string s.
Arguments str s%_string.

Definition code (c : ascii) : nat := nat_of_ascii c.

(** [String.prototype.toLowerCase] on code units below 256:
    A-Z and the Latin-1 capitals (U+00C0..U+00DE without U+00D7). *)
Definition lowerChar (c : ascii) : ascii :=
  let n := code c in
  if ((65 <=? n) && (n <=? 90))
     || ((192 <=? n) && (n <=? 222) && negb (n =? 215))
  then ascii_of_nat (n + 32)
  else c.

Definition toLowerCase (s : jsstring) : jsstring := map lowerChar s.

(** White space of [\s] and of [trim], below 256:
    TAB, LF, VT, FF, CR, SPACE, NBSP. *)
Definition isSpace (c : ascii) : bool :=
  let n := code c in
  ((9 <=? n) && (n <=? 13)) || (n =? 32) || (n =? 160).

Fixpoint startsWith (s p : jsstring) : bool :=
  match p, s with
  | [], _ => true
  | _ :: _, [] => false
  | a :: p', b :: s' => Ascii.eqb a b && startsWith s' p'
  end.

(** [String.prototype.includes]. *)
Fixpoint includes (s sub : jsstring) : bool :=
  startsWith s sub
  || match s with
     | [] => false
     | _ :: s' => includes s' sub
     end.

Fixpoint trimStart (s : jsstring) : jsstring :=
  match s with
  | [] => []
  | c :: s' => if isSpace c then trimStart s' else s
  end.

Definition trimEnd (s : jsstring) : jsstring := rev (trimStart (rev s)).

(** [String.prototype.trim]. *)
Definition trim (s : jsstring) : jsstring := trimEnd (trimStart s).

(** Truthiness of a string: non-empty. *)
Definition truthy (s : jsstring) : bool :=
  match s with [] => false | _ :: _ => true end.

(** [s.split(sep)] for a one-character separator; the accumulator holds
    the current field reversed. *)
Fixpoint splitChar_aux (sep : ascii) (cur : jsstring) (s : jsstring)
  : list jsstring :=
  match s with
  | [] => [rev cur]
  | c :: s' =>
      if Ascii.eqb c sep then rev cur :: splitChar_aux sep [] s'
      else splitChar_aux sep (c :: cur) s'
  end.

Definition splitChar (sep : ascii) (s : jsstring) : list jsstring :=
  splitChar_aux sep [] s.
Arguments splitChar sep%_char s.

(** [Array.prototype.join]. *)
Fixpoint join (sep : jsstring) (l : list jsstring) : jsstring :=
  match l with
  | [] => []
  | [x] => x
  | x :: l' => x ++ sep ++ join sep l'
  end.

(** Decimal rendering of a non-negative integer, as in a template
    literal. *)
Definition ofNat (n : nat) : jsstring :=
  str (NilZero.string_of_uint (Nat.to_uint n)).

End JS.

Import JS.

Open Scope list_scope.

(* ================================================================= *)
(** ** Data model of [LiveChat.ts] *)

(** A thrown [Error]; only its [message] is ever read. *)
Record Error := { message : jsstring }.

(** Outcome of a call that may throw. *)
Inductive Result (A : Type) : Type :=
| Ok (value : A)
| Throw (e : Error).
Arguments Ok {A} value.
Arguments Throw {A} e.

(** [Part] of the backend client, in the three shapes the component
    builds. [data] is [None] when [split(',')[1]] is [undefined]. *)
Inductive Part :=
| PText (text : jsstring)
| PInlineData (data : option jsstring) (mimeType : jsstring)
| PFileData (mimeType fileUri : jsstring).

Inductive Tool := GoogleSearch.

(** [config]: [{}] or [{tools: [{googleSearch: {}}]}]. *)
Record Config := { tools : option (list Tool) }.

Record GroundingChunk := { web_uri : jsstring; web_title : jsstring }.

(** The fields of a backend response that the component reads. *)
Record Response := {
  response_text : jsstring;
  response_groundingChunks : option (list GroundingChunk)
}.

Inductive Role := user | model.

Record FilePreview := {
  preview_url : option jsstring;
  preview_name : jsstring;
  preview_type : jsstring
}.

(** [interface ManagedContent]; an absent optional field is [None]. *)
Record ManagedContent := {
  role : Role;
  text : jsstring;
  file : option FilePreview;
  grounding : option (list GroundingChunk);
  youtubeVideoId : option jsstring;
  screenCapturesOf : option (list jsstring);
  contextFilesUsed : option (list jsstring)
}.

(** A browser [File]: what the component reads of it. *)
Record File := { file_name : jsstring; file_type : jsstring; file_size : nat }.

Record ScreenCapture := { dataUrl : jsstring }.

(** [GenAIFile & {isUploading?: boolean}]. *)
Record ContextFile := {
  cf_name : jsstring;
  cf_displayName : option jsstring;
  cf_mimeType : jsstring;
  cf_uri : jsstring;
  cf_isUploading : bool
}.

Record VideoContextFile := { vc_uri : jsstring; vc_mimeType : jsstring }.

(** The reactive fields of the [LiveChat] element that the send pipeline
    reads or writes. *)
Record State := {
  chatHistory : list ManagedContent;
  promptFile : option File;
  promptFilePreview : option jsstring;
  textInputValue : jsstring;
  screenCaptures : list ScreenCapture;
  contextFiles : list ContextFile;
  videoContextFile : option VideoContextFile;
  isVideoContextSent : bool;
  isProcessing : bool;
  status : jsstring;
  error : jsstring;
  isTtsEnabled : bool
}.

Definition initialState : State := {|
  chatHistory := [];
  promptFile := None;
  promptFilePreview := None;
  textInputValue := [];
  screenCaptures := [];
  contextFiles := [];
  videoContextFile := None;
  isVideoContextSent := false;
  isProcessing := false;
  status := str "Click the mic or type to talk";
  error := [];
  isTtsEnabled := true
|}.

(** Field assignments [this.f = v]. *)
Definition set_chatHistory (v : list ManagedContent) (s : State) : State :=
  {| chatHistory := v; promptFile := promptFile s;
     promptFilePreview := promptFilePreview s;
     textInputValue := textInputValue s; screenCaptures := screenCaptures s;
     contextFiles := contextFiles s; videoContextFile := videoContextFile s;
     isVideoContextSent := isVideoContextSent s;
     isProcessing := isProcessing s; status := status s; error := error s;
     isTtsEnabled := isTtsEnabled s |}.

Definition set_promptFile (v : option File) (s : State) : State :=
  {| chatHistory := chatHistory s; promptFile := v;
     promptFilePreview := promptFilePreview s;
     textInputValue := textInputValue s; screenCaptures := screenCaptures s;
     contextFiles := contextFiles s; videoContextFile := videoContextFile s;
     isVideoContextSent := isVideoContextSent s;
     isProcessing := isProcessing s; status := status s; error := error s;
     isTtsEnabled := isTtsEnabled s |}.

Definition set_promptFilePreview (v : option jsstring) (s : State) : State :=
  {| chatHistory := chatHistory s; promptFile := promptFile s;
     promptFilePreview := v;
     textInputValue := textInputValue s; screenCaptures := screenCaptures s;
     contextFiles := contextFiles s; videoContextFile := videoContextFile s;
     isVideoContextSent := isVideoContextSent s;
     isProcessing := isProcessing s; status := status s; error := error s;
     isTtsEnabled := isTtsEnabled s |}.

Definition set_textInputValue (v : jsstring) (s : State) : State :=
  {| chatHistory := chatHistory s; promptFile := promptFile s;
     promptFilePreview := promptFilePreview s;
     textInputValue := v; screenCaptures := screenCaptures s;
     contextFiles := contextFiles s; videoContextFile := videoContextFile s;
     isVideoContextSent := isVideoContextSent s;
     isProcessing := isProcessing s; status := status s; error := error s;
     isTtsEnabled := isTtsEnabled s |}.

Definition set_screenCaptures (v : list ScreenCapture) (s : State) : State :=
  {| chatHistory := chatHistory s; promptFile := promptFile s;
     promptFilePreview := promptFilePreview s;
     textInputValue := textInputValue s; screenCaptures := v;
     contextFiles := contextFiles s; videoContextFile := videoContextFile s;
     isVideoContextSent := isVideoContextSent s;
     isProcessing := isProcessing s; status := status s; error := error s;
     isTtsEnabled := isTtsEnabled s |}.

Definition set_contextFiles (v : list ContextFile) (s : State) : State :=
  {| chatHistory := chatHistory s; promptFile := promptFile s;
     promptFilePreview := promptFilePreview s;
     textInputValue := textInputValue s; screenCaptures := screenCaptures s;
     contextFiles := v; videoContextFile := videoContextFile s;
     isVideoContextSent := isVideoContextSent s;
     isProcessing := isProcessing s; status := status s; error := error s;
     isTtsEnabled := isTtsEnabled s |}.

Definition set_isVideoContextSent (v : bool) (s : State) : State :=
  {| chatHistory := chatHistory s; promptFile := promptFile s;
     promptFilePreview := promptFilePreview s;
     textInputValue := textInputValue s; screenCaptures := screenCaptures s;
     contextFiles := contextFiles s; videoContextFile := videoContextFile s;
     isVideoContextSent := v;
     isProcessing := isProcessing s; status := status s; error := error s;
     isTtsEnabled := isTtsEnabled s |}.

Definition set_isProcessing (v : bool) (s : State) : State :=
  {| chatHistory := chatHistory s; promptFile := promptFile s;
     promptFilePreview := promptFilePreview s;
     textInputValue := textInputValue s; screenCaptures := screenCaptures s;
     contextFiles := contextFiles s; videoContextFile := videoContextFile s;
     isVideoContextSent := isVideoContextSent s;
     isProcessing := v; status := status s; error := error s;
     isTtsEnabled := isTtsEnabled s |}.

Definition set_status (v : jsstring) (s : State) : State :=
  {| chatHistory := chatHistory s; promptFile := promptFile s;
     promptFilePreview := promptFilePreview s;
     textInputValue := textInputValue s; screenCaptures := screenCaptures s;
     contextFiles := contextFiles s; videoContextFile := videoContextFile s;
     isVideoContextSent := isVideoContextSent s;
     isProcessing := isProcessing s; status := v; error := error s;
     isTtsEnabled := isTtsEnabled s |}.

Definition set_error (v : jsstring) (s : State) : State :=
  {| chatHistory := chatHistory s; promptFile := promptFile s;
     promptFilePreview := promptFilePreview s;
     textInputValue := textInputValue s; screenCaptures := screenCaptures s;
     contextFiles := contextFiles s; videoContextFile := videoContextFile s;
     isVideoContextSent := isVideoContextSent s;
     isProcessing := isProcessing s; status := status s; error := v;
     isTtsEnabled := isTtsEnabled s |}.

(** What the component does to the outside world, in program order.
    Console output is not recorded. *)
Inductive Effect :=
| CallSendMessage (parts : list Part) (config : Config)
| Sleep (ms : nat)
| RevokeObjectURL (url : jsstring)
| SpeechCancel
| SpeechSpeak (chunk : jsstring).

(** The outside world during one send.
    - [sendMessage n parts config]: outcome of the [n]-th call
      (from 0) of [this.chat.sendMessage] in this send;
    - [getYouTubeVideoId]: the helper imported from [./utils.js], whose
      source is not part of the repository sources at hand; [None] is
      [null];
    - [readAsDataURL]: the string a [FileReader] yields for a file, or
      the error with which the conversion rejects;
    - [createObjectURL]: [URL.createObjectURL];
    - [speechSynthesisAvailable]: ['speechSynthesis' in window]. *)
Record Env := {
  sendMessage : nat -> list Part -> Config -> Result Response;
  getYouTubeVideoId : jsstring -> option jsstring;
  readAsDataURL : File -> Result jsstring;
  createObjectURL : File -> jsstring;
  speechSynthesisAvailable : bool
}.

(** Truthiness of a [string | null]. *)
Definition truthyOpt (o : option jsstring) : bool :=
  match o with
  | Some s => truthy s
  | None => false
  end.

(** [x || d] for an optional string. *)
Definition orElse (o : option jsstring) (d : jsstring) : jsstring :=
  match o with
  | Some s => if truthy s then s else d
  | None => d
  end.

(** An [undefined] element joins as the empty string. *)
Definition joinText (o : option jsstring) : jsstring :=
  match o with
  | Some s => s
  | None => []
  end.

(* ================================================================= *)
(** ** [_sendMessageWithRetry] (LiveChat.ts 798-841) *)

Definition isRateLimit (errorMessage : jsstring) : bool :=
  includes errorMessage (str "429")
  || includes errorMessage (str "resource_exhausted").

Definition isServerError (errorMessage : jsstring) : bool :=
  includes errorMessage (str "500") || includes errorMessage (str "internal").

(** The test of the [if] at line 820, on the raw message. *)
Definition retriable (e : Error) : bool :=
  isRateLimit (toLowerCase (message e))
  || isServerError (toLowerCase (message e)).

(** Lines 823-824. [delay] is 1000 times a power of two, so
    [delay / 1000] is an integer. *)
Definition retryStatus (rateLimit : bool) (delay : nat) : jsstring :=
  (if rateLimit then str "Rate limit hit" else str "Server error")
  ++ str ". Retrying in " ++ ofNat (delay / 1000) ++ str "s...".

(** Lines 835-840; [lastError] is [None] for [null], where the optional
    chain gives [undefined]. *)
Definition finalError (lastError : option Error) : Error :=
  let finalErrorReason :=
    match lastError with
    | Some e =>
        if includes (toLowerCase (message e)) (str "429")
        then str "API rate limit exceeded"
        else str "A server error occurred"
    | None => str "A server error occurred"
    end in
  {| message :=
       finalErrorReason
       ++ str " after multiple retries. Please try again later. Original error: "
       ++ match lastError with
          | Some e => message e
          | None => str "undefined"
          end |}.

(** The [while (retries > 0)] loop. Each iteration returns, throws, or
    decrements [retries], so the loop is structural in [retries].
    [attempt] counts the calls already made. *)
Fixpoint retryLoop (env : Env) (parts : list Part) (config : Config)
    (retries delay attempt : nat) (lastError : option Error) (st : State)
  : State * list Effect * Result Response :=
  match retries with
  | 0 => (st, [], Throw (finalError lastError))
  | S retries' =>
      match sendMessage env attempt parts config with
      | Ok response => (st, [CallSendMessage parts config], Ok response)
      | Throw e =>
          let errorMessage := toLowerCase (message e) in
          if isRateLimit errorMessage || isServerError errorMessage then
            if 0 <? retries' then
              let st1 :=
                set_status (retryStatus (isRateLimit errorMessage) delay) st in
              let '(st2, evs, r) :=
                retryLoop env parts config retries' (delay * 2) (S attempt)
                          (Some e) st1 in
              (st2, CallSendMessage parts config :: Sleep delay :: evs, r)
            else
              let '(st2, evs, r) :=
                retryLoop env parts config retries' delay (S attempt)
                          (Some e) st in
              (st2, CallSendMessage parts config :: evs, r)
          else (st, [CallSendMessage parts config], Throw e)
      end
  end.

Definition _sendMessageWithRetry (env : Env) (parts : list Part)
    (config : Config) (st : State)
  : State * list Effect * Result Response :=
  retryLoop env parts config 3 1000 0 None st.

(** The calls of [sendMessage] and the sleeps in a trace. *)
Definition attemptsIn (evs : list Effect) : nat :=
  length (filter (fun ev => match ev with CallSendMessage _ _ => true
                                          | _ => false end) evs).

Definition sleepsIn (evs : list Effect) : list nat :=
  flat_map (fun ev => match ev with Sleep ms => [ms] | _ => [] end) evs.

(* ================================================================= *)
(** ** The text-to-speech splitter of [_speak] (LiveChat.ts 1230-1258) *)

Module TTS.

Definition MAX_CHUNK_LENGTH : nat := 160.

(** The class [[.!?]]. *)
Definition isStop (c : ascii) : bool :=
  let n := code c in (n =? 46) || (n =? 33) || (n =? 63).

(** [text.match(/[^.!?]+[.!?\s]*|[^.!?]+$/g) || []].
    A match starts at the first character outside [[.!?]], takes the
    longest run of such characters ([Body]) and then the longest run of
    [[.!?\s]] ([Tail]); the second alternative never applies, since the
    first succeeds wherever the second could. [cur] is the current match,
    reversed. *)
Inductive Scan := Outside | Body | Tail.

Fixpoint sentences_aux (mode : Scan) (cur : jsstring) (s : jsstring)
  : list jsstring :=
  match s with
  | [] =>
      match mode with
      | Outside => []
      | _ => [rev cur]
      end
  | c :: s' =>
      match mode with
      | Outside =>
          if isStop c then sentences_aux Outside [] s'
          else sentences_aux Body [c] s'
      | Body =>
          if isStop c then sentences_aux Tail (c :: cur) s'
          else sentences_aux Body (c :: cur) s'
      | Tail =>
          if isStop c || isSpace c then sentences_aux Tail (c :: cur) s'
          else rev cur :: sentences_aux Body [c] s'
      end
  end.

Definition sentences (text : jsstring) : list jsstring :=
  sentences_aux Outside [] text.

(** [s.split(/\s+/)]: [inGap] holds inside a run of white space. *)
Fixpoint splitWs_aux (inGap : bool) (cur : jsstring) (s : jsstring)
  : list jsstring :=
  match s with
  | [] => [rev cur]
  | c :: s' =>
      if isSpace c then
        if inGap then splitWs_aux true cur s'
        else rev cur :: splitWs_aux true [] s'
      else splitWs_aux false (c :: cur) s'
  end.

Definition splitWs (s : jsstring) : list jsstring := splitWs_aux false [] s.

(** The [for (const word of words)] loop with the final push of a
    non-empty [currentChunk]; the result lists the pushes in order. *)
Fixpoint packWords (currentChunk : jsstring) (words : list jsstring)
  : list jsstring :=
  match words with
  | [] => if truthy currentChunk then [currentChunk] else []
  | word :: words' =>
      if MAX_CHUNK_LENGTH <? length currentChunk + length word + 1 then
        currentChunk :: packWords word words'
      else
        packWords
          (currentChunk ++ (if truthy currentChunk then str " " else [])
           ++ word)
          words'
  end.

(** The body of [sentences.forEach]. *)
Definition chunksOfSentence (sentence : jsstring) : list jsstring :=
  let trimmedSentence := trim sentence in
  if length trimmedSentence =? 0 then []
  else if MAX_CHUNK_LENGTH <? length trimmedSentence then
    packWords [] (splitWs trimmedSentence)
  else [trimmedSentence].

(** The array [chunks] after step 2. *)
Definition chunks (text : jsstring) : list jsstring :=
  flat_map chunksOfSentence (sentences text).

(** Step 3 skips empty chunks ([if (!chunk) continue]). *)
Definition spokenChunks (text : jsstring) : list jsstring :=
  filter truthy (chunks text).

(** The words of a string: its non-empty fields between runs of white
    space. *)
Definition wordsOf (s : jsstring) : list jsstring :=
  filter truthy (splitWs s).

(** No character of the class [[.!?]]. *)
Definition noStops (s : jsstring) : bool :=
  forallb (fun c => negb (isStop c)) s.

(** [punctOk prevStop s]: in [s], read after a character that was
    ([prevStop]) or was not one of [[.!?]], each of [[.!?]] is followed by
    white space, by another of them, or by the end. *)
Fixpoint punctOk (prevStop : bool) (s : jsstring) : bool :=
  match s with
  | [] => true
  | c :: s' =>
      if isStop c then punctOk true s'
      else if isSpace c then punctOk false s'
      else negb prevStop && punctOk false s'
  end.

(** The characters [[.!?]] stand only at the end of words: the text
    does not begin with one, and none is followed at once by a character
    that is neither white space nor one of them. *)
Definition wellPunctuated (text : jsstring) : bool :=
  match text with
  | [] => true
  | c :: s => negb (isStop c) && punctOk false s
  end.

Definition spaceFree (w : jsstring) : bool :=
  forallb (fun c => negb (isSpace c)) w.

Definition withinBudget (c : jsstring) : bool :=
  length c <=? MAX_CHUNK_LENGTH.

End TTS.

(** [_speak] (lines 1195-1287): the guard, the cancel and the queued
    utterances. The choice of a voice affects no utterance text and is
    left out; errors inside are caught inside. *)
Definition _speak (env : Env) (text : jsstring) (st : State) : list Effect :=
  if negb (isTtsEnabled st)
     || negb (speechSynthesisAvailable env)
     || negb (truthy (trim text))
  then []
  else SpeechCancel :: map SpeechSpeak (TTS.spokenChunks text).

(* ================================================================= *)
(** ** [_processPrompt] and [_sendMessage] (LiveChat.ts 843-1024)

    A send is modelled as running to completion before the next event:
    the inputs are read once, as the snapshot at lines 857-858 does. *)

(** [_fileToGenerativePart] (1180-1193). *)
Definition _fileToGenerativePart (env : Env) (f : File) : Result Part :=
  match readAsDataURL env f with
  | Ok url => Ok (PInlineData (nth_error (splitChar "," url) 1) (file_type f))
  | Throw e => Throw e
  end.

(** [_clearFile] (1171-1178); the file input element is not modelled. *)
Definition _clearFile (st : State) : State * list Effect :=
  (set_promptFilePreview None (set_promptFile None st),
   match promptFilePreview st with
   | Some url => if truthy url then [RevokeObjectURL url] else []
   | None => []
   end).

(** [_clearScreenCaptures] (794-796). *)
Definition _clearScreenCaptures (st : State) : State :=
  set_screenCaptures [] st.

(** Lines 861-871: one inline JPEG part per capture. *)
Definition captureParts (captures : list ScreenCapture) : list Part :=
  map (fun capture =>
         PInlineData (nth_error (splitChar "," (dataUrl capture)) 1)
                     (str "image/jpeg"))
      captures.

(** Line 858. *)
Definition activeContextFilesOf (st : State) : list ContextFile :=
  filter (fun f => negb (cf_isUploading f)) (contextFiles st).

(** Lines 876-883. *)
Definition contextFileParts (files : list ContextFile) : list Part :=
  map (fun contextFile =>
         PFileData (cf_mimeType contextFile) (cf_uri contextFile))
      files.

(** Lines 874-887. *)
Definition contextPromptOf (files : list ContextFile) : jsstring :=
  match files with
  | [] => []
  | _ :: _ =>
      str "Using the provided file(s) ("
      ++ join (str ", ") (map (fun f => joinText (cf_displayName f)) files)
      ++ str ") as context, "
  end.

(** Lines 890-896: the part pushed for the video analyzer's file. *)
Definition videoContextParts (st : State) : list Part :=
  match videoContextFile st with
  | Some v =>
      if negb (isVideoContextSent st)
      then [PFileData (vc_mimeType v) (vc_uri v)]
      else []
  | None => []
  end.

(** The condition of line 890. *)
Definition videoContextPending (st : State) : bool :=
  match videoContextFile st with
  | Some _ => negb (isVideoContextSent st)
  | None => false
  end.

Definition youtubePrompt (promptText : jsstring) : jsstring :=
  str "Please analyze this youtube video and answer my questions. The video is at this URL: "
  ++ promptText.

(** The locals of [_processPrompt] at line 947. [req_parts] is [parts]
    after the [unshift] of line 942. *)
Record Request := {
  req_youTubeVideoId : option jsstring;
  req_parts : list Part;
  req_config : Config;
  req_useSearch : bool;
  req_userMessage : ManagedContent;
  req_filePreview : option FilePreview;
  req_sentVideoContext : bool
}.

(** Lines 848-947, without the assignments to [this]. It throws only
    where the conversion of the attached file does (line 915). *)
Definition assemble (env : Env) (promptText : jsstring) (f : option File)
    (st : State) : Result Request :=
  let youTubeVideoId := getYouTubeVideoId env promptText in
  let screenCapturesForMessage := screenCaptures st in
  let activeContextFiles := activeContextFilesOf st in
  let parts0 :=
    captureParts screenCapturesForMessage
    ++ contextFileParts activeContextFiles in
  let contextPrompt := contextPromptOf activeContextFiles in
  let parts1 := parts0 ++ videoContextParts st in
  let apiText1 :=
    if videoContextPending st
    then str "Using the provided video as context, " ++ promptText
    else promptText in
  let sentVideoContext := videoContextPending st in
  let converted :=
    match f with
    | Some file0 =>
        match _fileToGenerativePart env file0 with
        | Ok filePart =>
            Ok (parts1 ++ [filePart],
                Some {| preview_url := Some (createObjectURL env file0);
                        preview_name := file_name file0;
                        preview_type := file_type file0 |})
        | Throw e => Throw e
        end
    | None => Ok (parts1, None)
    end in
  match converted with
  | Throw e => Throw e
  | Ok (parts2, filePreview) =>
      let userMessage :=
        {| role := user;
           text := promptText;
           file := filePreview;
           grounding := None;
           youtubeVideoId := youTubeVideoId;
           screenCapturesOf := Some (map dataUrl screenCapturesForMessage);
           contextFilesUsed :=
             Some (map (fun f => orElse (cf_displayName f) (str "file"))
                       activeContextFiles) |} in
      let useSearch :=
        negb (truthyOpt youTubeVideoId)
        && (length parts2 =? length activeContextFiles) in
      let apiText2 :=
        if truthyOpt youTubeVideoId then youtubePrompt promptText
        else apiText1 in
      let apiText3 :=
        if (0 <? length parts2) && negb (truthy (trim apiText2))
        then str "Describe the provided file(s)."
        else apiText2 in
      Ok {| req_youTubeVideoId := youTubeVideoId;
            req_parts := PText (contextPrompt ++ apiText3) :: parts2;
            req_config :=
              {| tools := if useSearch then Some [GoogleSearch] else None |};
            req_useSearch := useSearch;
            req_userMessage := userMessage;
            req_filePreview := filePreview;
            req_sentVideoContext := sentVideoContext |}
  end.

Definition idleStatus : jsstring := str "Click the mic or type to talk".

(** Lines 976-988. *)
Definition failureBanner (errorMessage : jsstring) : jsstring :=
  if includes (toLowerCase errorMessage)
              (str "exceeds the maximum number of tokens allowed")
  then str "Your request is too long. Please reduce text length, remove some files/captures, or start a new chat to reduce history size."
  else if includes (toLowerCase errorMessage) (str "api key not valid")
  then str "The API key is invalid. Please check your configuration."
  else errorMessage.

(** Lines 958-961. *)
Definition modelMessage (response : Response) : ManagedContent :=
  {| role := model;
     text := response_text response;
     file := None;
     grounding :=
       Some match response_groundingChunks response with
            | Some g => g
            | None => []
            end;
     youtubeVideoId := None;
     screenCapturesOf := None;
     contextFilesUsed := None |}.

(** Lines 997-1000. *)
Definition revokePreview (filePreview : option FilePreview) : list Effect :=
  match filePreview with
  | Some p =>
      match preview_url p with
      | Some url => if truthy url then [RevokeObjectURL url] else []
      | None => []
      end
  | None => []
  end.

Definition _processPrompt (env : Env) (promptText : jsstring)
    (f : option File) (st : State) : State * list Effect * Result unit :=
  let st0 :=
    set_error [] (set_status (str "Thinking...") (set_isProcessing true st)) in
  match assemble env promptText f st0 with
  | Throw e =>
      (set_status idleStatus
         (set_isProcessing false
            (set_error (str "Error processing file: " ++ message e) st0)),
       [], Throw e)
  | Ok req =>
      let st1 :=
        set_chatHistory (chatHistory st0 ++ [req_userMessage req]) st0 in
      let '(st2, evs, r) :=
        _sendMessageWithRetry env (req_parts req) (req_config req) st1 in
      let '(st5, evs', outcome) :=
        match r with
        | Ok response =>
            (* ---- SUCCESS ---- *)
            let st3 :=
              set_chatHistory (chatHistory st2 ++ [modelMessage response])
                              st2 in
            let st3' :=
              if req_sentVideoContext req
              then set_isVideoContextSent true st3 else st3 in
            let '(st4, cleared) := _clearFile st3' in
            let st4' := _clearScreenCaptures st4 in
            (st4',
             cleared
             ++ (if isTtsEnabled st4'
                 then _speak env (response_text response) st4' else []),
             Ok tt)
        | Throw e =>
            (* ---- FAILURE ---- *)
            let st3 := set_error (failureBanner (message e)) st2 in
            (set_chatHistory (removelast (chatHistory st3)) st3, [], Throw e)
        end in
      (set_status idleStatus (set_isProcessing false st5),
       evs ++ evs' ++ revokePreview (req_filePreview req),
       outcome)
  end.

(** Which way a call of [_sendMessage] went: the early [return] of
    line 1006, the end of the [try] block, or the [catch]. *)
Inductive SendOutcome := Skipped | Sent | Failed.

Definition _sendMessage (env : Env) (st : State)
  : State * list Effect * SendOutcome :=
  let text0 := trim (textInputValue st) in
  if negb (truthy text0)
     && match promptFile st with None => true | Some _ => false end
     && (length (screenCaptures st) =? 0)
  then (st, [], Skipped)
  else
    let '(st', evs, r) := _processPrompt env text0 (promptFile st) st in
    match r with
    | Ok _ => (set_textInputValue [] st', evs, Sent)
    | Throw _ => (st', evs, Failed)
    end.

(** What the user may change between two sends without touching the
    log: the typed text, the attached file, the captures and the context
    files. *)
Record Inputs := {
  in_text : jsstring;
  in_promptFile : option File;
  in_promptFilePreview : option jsstring;
  in_screenCaptures : list ScreenCapture;
  in_contextFiles : list ContextFile
}.

Definition editInputs (i : Inputs) (st : State) : State :=
  set_contextFiles (in_contextFiles i)
    (set_screenCaptures (in_screenCaptures i)
       (set_promptFilePreview (in_promptFilePreview i)
          (set_promptFile (in_promptFile i)
             (set_textInputValue (in_text i) st)))).

(** A sequence of sends: before each, the user sets the inputs; each
    send meets its own outside world. *)
Fixpoint runSends (steps : list (Inputs * Env)) (st : State)
  : State * list SendOutcome :=
  match steps with
  | [] => (st, [])
  | (i, env) :: steps' =>
      let '(st', _, o) := _sendMessage env (editInputs i st) in
      let '(st'', os) := runSends steps' st' in
      (st'', o :: os)
  end.

Definition isSent (o : SendOutcome) : bool :=
  match o with Sent => true | _ => false end.

Definition isFailed (o : SendOutcome) : bool :=
  match o with Failed => true | _ => false end.

(* ================================================================= *)
(** ** History import: [reader.onload] of [_handleHistoryUpload]
       (LiveChat.ts 1124-1163) *)

Module History.

(** A value produced by [JSON.parse]. A number keeps its literal; an
    object lists its own properties, each key once. *)
#[local] Unset Elimination Schemes.
Inductive JSON :=
| JNull
| JBool (b : bool)
| JNumber (literal : jsstring)
| JString (s : jsstring)
| JArray (items : list JSON)
| JObject (fields : list (jsstring * JSON)).
#[local] Set Elimination Schemes.

Fixpoint eqbStr (a b : jsstring) : bool :=
  match a, b with
  | [], [] => true
  | x :: a', y :: b' => Ascii.eqb x y && eqbStr a' b'
  | _, _ => false
  end.

Fixpoint lookup (key : jsstring) (fields : list (jsstring * JSON))
  : option JSON :=
  match fields with
  | [] => None
  | (k, v) :: fields' => if eqbStr k key then Some v else lookup key fields'
  end.

Section Onload.

(** The [TypeError] the engine throws on reading a property of [null];
    its wording is the engine's. *)
Variable nullAccess : Error.

(** [msg.key] for the keys [role] and [text], which no prototype of a
    primitive or of an array defines: [None] is [undefined]. *)
Definition getProp (msg : JSON) (key : jsstring) : Result (option JSON) :=
  match msg with
  | JNull => Throw nullAccess
  | JObject fields => Ok (lookup key fields)
  | _ => Ok None
  end.

(** [v === lit] for a string literal. *)
Definition isStringEq (v : option JSON) (lit : jsstring) : bool :=
  match v with
  | Some (JString s) => eqbStr s lit
  | _ => false
  end.

(** [typeof v === 'string']. *)
Definition isString (v : option JSON) : bool :=
  match v with
  | Some (JString _) => true
  | _ => false
  end.

(** The callback of [filter] at lines 1136-1141. *)
Definition isValid (msg : JSON) : Result bool :=
  match getProp msg (str "role") with
  | Throw e => Throw e
  | Ok r =>
      if isStringEq r (str "user") || isStringEq r (str "model") then
        match getProp msg (str "text") with
        | Throw e => Throw e
        | Ok t => Ok (isString t)
        end
      else Ok false
  end.

(** [loadedData.filter(...)]: the first throwing callback ends it. *)
Fixpoint filterValid (loadedData : list JSON) : Result (list JSON) :=
  match loadedData with
  | [] => Ok []
  | msg :: rest =>
      match isValid msg with
      | Throw e => Throw e
      | Ok keep =>
          match filterValid rest with
          | Throw e => Throw e
          | Ok kept => Ok (if keep then msg :: kept else kept)
          end
      end
  end.

(** The state the handler touches: the log (the retained objects
    themselves), the banner and the status line. *)
Record HState := {
  h_chatHistory : list JSON;
  h_error : jsstring;
  h_status : jsstring
}.

(** The [try]/[catch] of [reader.onload]; [parsed] is the outcome of
    [JSON.parse(content)]. Creating the chat session is left out. *)
Definition onload (parsed : Result JSON) (st : HState) : HState :=
  let attempt : Result (list JSON) :=
    match parsed with
    | Throw e => Throw e
    | Ok (JArray loadedData) => filterValid loadedData
    | Ok _ =>
        Throw {| message := str "Invalid history file format: not an array." |}
    end in
  match attempt with
  | Ok validHistory =>
      {| h_chatHistory := validHistory;
         h_error := [];
         h_status := str "Chat history loaded successfully." |}
  | Throw err =>
      {| h_chatHistory := h_chatHistory st;
         h_error := str "Failed to load history: " ++ message err;
         h_status := h_status st |}
  end.

End Onload.

(** Validity as the specification words it: a role among user and model and
    a string [text]. *)
Definition conforms (msg : JSON) : bool :=
  match msg with
  | JObject fields =>
      (isStringEq (lookup (str "role") fields) (str "user")
       || isStringEq (lookup (str "role") fields) (str "model"))
      && isString (lookup (str "text") fields)
  | _ => false
  end.

End History.

(* ================================================================= *)
(** ** The visualizer's audio sources (Visual3D.ts 52-165) *)

Module Visual3D.

(** Identity of an [AudioContext]: one the visualizer was handed through
    a node ([Borrowed]) or one it constructed itself with
    [new AudioContext()] ([Created], numbered in order of construction);
    a newly constructed object is identical to no other. *)
Inductive AudioContextId :=
| Borrowed (n : nat)
| Created (n : nat).

(** The [GainNode] handed over by the chat component. *)
Record GainNode := { gain_id : nat; gain_context : nat }.

Record VideoElement := { video_id : nat }.

(** An [AnalyserNode], always made by the visualizer. *)
Record Analyser := { analyser_id : nat; analyser_context : AudioContextId }.

(** The two closures assigned to [sourceCleanup], with what each
    captures. *)
Inductive Cleanup :=
| MicCleanup (micInputNode : GainNode)
| VideoCleanup (videoEl : VideoElement) (source : nat) (audioContext : nat).

Inductive AudioEffect :=
| NewAudioContext (ctx : nat)
| AddPlayListener (videoEl : VideoElement) (ctx : nat)
| RemovePlayListener (videoEl : VideoElement) (ctx : nat)
| CreateMediaElementSource (ctx : nat) (videoEl : VideoElement) (source : nat)
| CreateAnalyser (a : Analyser)
| ConnectSource (source : nat) (a : Analyser)
| ConnectToDestination (a : Analyser)
| ConnectGain (g : GainNode) (a : Analyser)
| DisconnectGain (g : GainNode) (a : Analyser)
| DisconnectSource (source : nat)
| DisconnectAnalyser (a : Analyser)
| CloseAudioContext (ctx : AudioContextId)
| RequestAnimationFrame
| CancelAnimationFrame.

(** The fields of the element; [fresh] numbers the objects it
    constructs. *)
Record VState := {
  inputNode : option GainNode;
  videoElement : option VideoElement;
  analyser : option Analyser;
  sourceCleanup : option Cleanup;
  animationFrameId : bool;
  fresh : nat
}.

Definition initial : VState := {|
  inputNode := None;
  videoElement := None;
  analyser := None;
  sourceCleanup := None;
  animationFrameId := false;
  fresh := 0
|}.

(** [this.sourceCleanup?.()]. The microphone closure reads
    [this.analyser] when it runs and swallows what [disconnect]
    throws. *)
Definition runCleanup (st : VState) : list AudioEffect :=
  match sourceCleanup st with
  | None => []
  | Some (MicCleanup micInputNode) =>
      match analyser st with
      | Some a => [DisconnectGain micInputNode a]
      | None => []
      end
  | Some (VideoCleanup videoEl source audioContext) =>
      [RemovePlayListener videoEl audioContext; DisconnectSource source]
      ++ match analyser st with
         | Some a => [DisconnectAnalyser a]
         | None => []
         end
      ++ [CloseAudioContext (Created audioContext)]
  end.

(** [if (!this.animationFrameId) this.draw()]: only the scheduling of
    [draw] is modelled. *)
Definition startDrawing (st : VState) : VState * list AudioEffect :=
  if animationFrameId st then (st, [])
  else ({| inputNode := inputNode st; videoElement := videoElement st;
           analyser := analyser st; sourceCleanup := sourceCleanup st;
           animationFrameId := true; fresh := fresh st |},
        [RequestAnimationFrame]).

(** Where the [try] block of [setupVideoVisualizer] may throw. *)
Inductive VideoSetup := SetupOk | ThrowsAtNewContext | ThrowsAtCreateSource.

Definition setupVideoVisualizer (how : VideoSetup) (videoEl : VideoElement)
    (st : VState) : VState * list AudioEffect :=
  let before := runCleanup st in
  match how with
  | ThrowsAtNewContext => (st, before)
  | ThrowsAtCreateSource =>
      let ctx := fresh st in
      ({| inputNode := inputNode st; videoElement := videoElement st;
          analyser := analyser st; sourceCleanup := sourceCleanup st;
          animationFrameId := animationFrameId st; fresh := S ctx |},
       before ++ [NewAudioContext ctx; AddPlayListener videoEl ctx])
  | SetupOk =>
      let ctx := fresh st in
      let source := S ctx in
      let a := {| analyser_id := S source; analyser_context := Created ctx |} in
      let st1 :=
        {| inputNode := inputNode st; videoElement := videoElement st;
           analyser := Some a;
           sourceCleanup := Some (VideoCleanup videoEl source ctx);
           animationFrameId := animationFrameId st;
           fresh := S (S source) |} in
      let '(st2, drawn) := startDrawing st1 in
      (st2,
       before
       ++ [NewAudioContext ctx; AddPlayListener videoEl ctx;
           CreateMediaElementSource ctx videoEl source; CreateAnalyser a;
           ConnectSource source a; ConnectToDestination a]
       ++ drawn)
  end.

Definition setupMicVisualizer (micInputNode : GainNode) (st : VState)
  : VState * list AudioEffect :=
  let before := runCleanup st in
  let a := {| analyser_id := fresh st;
              analyser_context := Borrowed (gain_context micInputNode) |} in
  let st1 :=
    {| inputNode := inputNode st; videoElement := videoElement st;
       analyser := Some a;
       sourceCleanup := Some (MicCleanup micInputNode);
       animationFrameId := animationFrameId st;
       fresh := S (fresh st) |} in
  let '(st2, drawn) := startDrawing st1 in
  (st2, before ++ [CreateAnalyser a; ConnectGain micInputNode a] ++ drawn).

(** What happens to the element: its host sets the two properties and
    Lit calls [updated] with the set of changed names, or the element is
    removed from the document. *)
Inductive Event :=
| Update (video : option VideoElement) (input : option GainNode)
         (videoChanged inputChanged : bool) (how : VideoSetup)
| Disconnect.

Definition withProps (video : option VideoElement) (input : option GainNode)
    (st : VState) : VState :=
  {| inputNode := input; videoElement := video; analyser := analyser st;
     sourceCleanup := sourceCleanup st;
     animationFrameId := animationFrameId st; fresh := fresh st |}.

(** [updated] (79-99). *)
Definition updated (videoChanged inputChanged : bool) (how : VideoSetup)
    (st : VState) : VState * list AudioEffect :=
  match videoElement st with
  | Some videoEl =>
      if videoChanged then setupVideoVisualizer how videoEl st else (st, [])
  | None =>
      match inputNode st with
      | Some micInputNode =>
          if inputChanged || videoChanged
          then setupMicVisualizer micInputNode st
          else (st, [])
      | None =>
          ({| inputNode := inputNode st; videoElement := videoElement st;
              analyser := None; sourceCleanup := None;
              animationFrameId := animationFrameId st; fresh := fresh st |},
           runCleanup st)
      end
  end.

(** [disconnectedCallback] (58-66). *)
Definition disconnectedCallback (st : VState) : VState * list AudioEffect :=
  ({| inputNode := inputNode st; videoElement := videoElement st;
      analyser := analyser st; sourceCleanup := None;
      animationFrameId := false; fresh := fresh st |},
   (if animationFrameId st then [CancelAnimationFrame] else [])
   ++ runCleanup st).

Definition step (ev : Event) (st : VState) : VState * list AudioEffect :=
  match ev with
  | Update video input videoChanged inputChanged how =>
      updated videoChanged inputChanged how (withProps video input st)
  | Disconnect => disconnectedCallback st
  end.

(** The state and the whole trace after a sequence of events. *)
Fixpoint run (evs : list Event) (st : VState) : VState * list AudioEffect :=
  match evs with
  | [] => (st, [])
  | ev :: evs' =>
      let '(st1, t1) := step ev st in
      let '(st2, t2) := run evs' st1 in
      (st2, t1 ++ t2)
  end.

Definition closesBorrowed (e : AudioEffect) : bool :=
  match e with
  | CloseAudioContext (Borrowed _) => true
  | _ => false
  end.

(** An effect that tears something down is in order after the trace
    [tr] when the visualizer made, earlier in [tr], what it names: the
    analysis node taken off a gain node, the audio context closed. *)
Definition justified (tr : list AudioEffect) (e : AudioEffect) : Prop :=
  match e with
  | DisconnectGain _ a => In (CreateAnalyser a) tr
  | CloseAudioContext c =>
      exists n, c = Created n /\ In (NewAudioContext n) tr
  | _ => True
  end.

(** A trace in which every effect is in order after those before it. *)
Inductive Owned : list AudioEffect -> Prop :=
| Owned_nil : Owned []
| Owned_snoc (tr : list AudioEffect) (e : AudioEffect) :
    Owned tr -> justified tr e -> Owned (tr ++ [e]).

Fixpoint justifiedAll (tr t : list AudioEffect) : Prop :=
  match t with
  | [] => True
  | e :: t' => justified tr e /\ justifiedAll (tr ++ [e]) t'
  end.

Definition neutral (e : AudioEffect) : bool :=
  match e with
  | DisconnectGain _ _ | CloseAudioContext _ => false
  | _ => true
  end.

(** What holds of the element's fields after the trace [tr]. *)
Definition Inv (st : VState) (tr : list AudioEffect) : Prop :=
  (forall a, analyser st = Some a -> In (CreateAnalyser a) tr)
  /\ (forall v src c, sourceCleanup st = Some (VideoCleanup v src c) ->
        In (NewAudioContext c) tr)
  /\ (sourceCleanup st <> None -> analyser st <> None).

(** Sample nodes for concrete runs. *)
Definition mic : GainNode := {| gain_id := 7; gain_context := 1 |}.
Definition player : VideoElement := {| video_id := 3 |}.

End Visual3D.

Definition isTextPart (p : Part) : bool :=
  match p with PText _ => true | _ => false end.

(** The part built for one screen capture (lines 863-869). *)
Definition capturePart (capture : ScreenCapture) : Part :=
  PInlineData (nth_error (splitChar "," (dataUrl capture)) 1)
              (str "image/jpeg").

(* ================================================================= *)
(** ** Sample worlds, for running the definitions on concrete inputs *)

Module Sample.

Fixpoint after (marker s : jsstring) : option jsstring :=
  if startsWith s marker then Some (skipn (length marker) s)
  else match s with
       | [] => None
       | _ :: s' => after marker s'
       end.

Fixpoint takeId (s : jsstring) : jsstring :=
  match s with
  | [] => []
  | c :: s' =>
      if Ascii.eqb c "&" || Ascii.eqb c "#" || Ascii.eqb c "?"
         || Ascii.eqb c "/"
      then []
      else c :: takeId s'
  end.

(** Modelled from the spec: [getYouTubeVideoId] of [./utils.js], which
    is imported by [LiveChat.ts] but is not among the sources. The spec
    says only that a recognizable YouTube URL yields the video
    identifier; this sample recognizes the two common URL shapes and
    gives [null] otherwise. The theorems quantify over every such
    helper; the sample serves the concrete runs. *)
Definition videoIdOf (url : jsstring) : option jsstring :=
  match after (str "youtube.com/watch?v=") url with
  | Some rest => Some (takeId rest)
  | None =>
      match after (str "youtu.be/") url with
      | Some rest => Some (takeId rest)
      | None => None
      end
  end.

(** A world whose backend answers the [n]-th call with [backend n]. *)
Definition world (backend : nat -> Result Response) : Env := {|
  sendMessage := fun n _ _ => backend n;
  getYouTubeVideoId := videoIdOf;
  readAsDataURL :=
    fun f => Ok (str "data:" ++ file_type f ++ str ";base64,AAAA");
  createObjectURL := fun f => str "blob:" ++ file_name f;
  speechSynthesisAvailable := true
|}.

Definition alwaysFails (msg : string) : Env :=
  world (fun _ => Throw {| message := str msg |}).

Definition answers (reply : string) : Env :=
  world (fun _ => Ok {| response_text := str reply;
                        response_groundingChunks := None |}).

Definition notes : ContextFile := {|
  cf_name := str "files/abc";
  cf_displayName := Some (str "notes.txt");
  cf_mimeType := str "text/plain";
  cf_uri := str "https://files/abc";
  cf_isUploading := false
|}.

Definition clip : VideoContextFile :=
  {| vc_uri := str "https://files/clip"; vc_mimeType := str "video/mp4" |}.

Definition frame : ScreenCapture :=
  {| dataUrl := str "data:image/jpeg;base64,AAAA" |}.

Definition photo : File :=
  {| file_name := str "cat.png"; file_type := str "image/png";
     file_size := 1024 |}.

(** The initial state with the given inputs and video context. *)
Definition state (typed : string) (attached : option File)
    (captures : list ScreenCapture) (files : list ContextFile)
    (video : option VideoContextFile) : State := {|
  chatHistory := [];
  promptFile := attached;
  promptFilePreview := None;
  textInputValue := str typed;
  screenCaptures := captures;
  contextFiles := files;
  videoContextFile := video;
  isVideoContextSent := false;
  isProcessing := false;
  status := idleStatus;
  error := [];
  isTtsEnabled := true
|}.

Definition inputs (typed : string) : Inputs := {|
  in_text := str typed;
  in_promptFile := None;
  in_promptFilePreview := None;
  in_screenCaptures := [];
  in_contextFiles := []
|}.

(** A sentence of 500 characters without punctuation. *)
Definition longSentence : jsstring :=
  concat (repeat (str "lorem ") 83) ++ str "ab".

End Sample.

(* ================================================================= *)
(** ** More of [LiveChat.ts]: the handlers around the send pipeline *)

From Stdlib Require Import NArith.

(** The total of the sleeps in a trace, in milliseconds. *)
Definition sleptIn (evs : list Effect) : nat :=
  fold_right Nat.add 0 (sleepsIn evs).

Definition set_videoContextFile (v : option VideoContextFile) (s : State)
  : State :=
  {| chatHistory := chatHistory s; promptFile := promptFile s;
     promptFilePreview := promptFilePreview s;
     textInputValue := textInputValue s; screenCaptures := screenCaptures s;
     contextFiles := contextFiles s; videoContextFile := v;
     isVideoContextSent := isVideoContextSent s;
     isProcessing := isProcessing s; status := status s; error := error s;
     isTtsEnabled := isTtsEnabled s |}.

Definition set_isTtsEnabled (v : bool) (s : State) : State :=
  {| chatHistory := chatHistory s; promptFile := promptFile s;
     promptFilePreview := promptFilePreview s;
     textInputValue := textInputValue s; screenCaptures := screenCaptures s;
     contextFiles := contextFiles s; videoContextFile := videoContextFile s;
     isVideoContextSent := isVideoContextSent s;
     isProcessing := isProcessing s; status := status s; error := error s;
     isTtsEnabled := v |}.

(** [updated] (1332-1346), for a change of [videoContextFile]: a new
    video context empties the log and resets the flag. The new chat
    session it creates is not modelled. *)
Definition videoContextChanged (v : option VideoContextFile) (st : State)
  : State :=
  match v with
  | Some _ =>
      set_isVideoContextSent false
        (set_chatHistory [] (set_videoContextFile v st))
  | None => set_videoContextFile v st
  end.

(* ----------------------------------------------------------------- *)
(** *** [api.ts]: [uploadFile] (59-90) *)

Module Api.

(** [FileState] of the backend client. *)
Inductive FileState := STATE_UNSPECIFIED | PROCESSING | ACTIVE | FAILED.

(** The fields of a backend [File] that the repository reads. *)
Record RemoteFile := {
  rf_name : jsstring;
  rf_displayName : option jsstring;
  rf_mimeType : jsstring;
  rf_uri : jsstring;
  rf_state : FileState
}.

(** [client.files]: [upload], and the outcome of the [n]-th call (from
    0) of [get]. *)
Record Files := {
  upload : File -> Result RemoteFile;
  get : nat -> jsstring -> Result RemoteFile
}.

Inductive ApiEffect :=
| Upload (f : File)
| Get (name : jsstring)
| Wait (ms : nat).

Definition isProcessingState (s : FileState) : bool :=
  match s with PROCESSING => true | _ => false end.

Definition isFailedState (s : FileState) : bool :=
  match s with FAILED => true | _ => false end.

(** The [while (getFile.state === 'PROCESSING')] loop and what follows
    it. The loop need not end, so it runs on [fuel]: [None] means the
    fuel ran out with the file still processing. [k] numbers the next
    call of [get]. *)
Fixpoint poll (files : Files) (name : jsstring) (fuel k : nat)
    (getFile : RemoteFile)
  : option (list ApiEffect * Result RemoteFile) :=
  if isProcessingState (rf_state getFile) then
    match fuel with
    | 0 => None
    | S fuel' =>
        match get files k name with
        | Throw e => Some ([Get name], Throw e)
        | Ok getFile' =>
            match poll files name fuel' (S k) getFile' with
            | Some (evs, r) => Some (Get name :: Wait 5000 :: evs, r)
            | None => None
            end
        end
    end
  else if isFailedState (rf_state getFile) then
    Some ([], Throw {| message := str "File processing failed." |})
  else Some ([], Ok getFile).

Definition uploadFile (files : Files) (f : File) (fuel : nat)
  : option (list ApiEffect * Result RemoteFile) :=
  match upload files f with
  | Throw e => Some ([Upload f], Throw e)
  | Ok uploadedFile =>
      match get files 0 (rf_name uploadedFile) with
      | Throw e => Some ([Upload f; Get (rf_name uploadedFile)], Throw e)
      | Ok getFile =>
          match poll files (rf_name uploadedFile) fuel 1 getFile with
          | Some (evs, r) =>
              Some (Upload f :: Get (rf_name uploadedFile) :: evs, r)
          | None => None
          end
      end
  end.

Definition getsIn (evs : list ApiEffect) : nat :=
  length (filter (fun ev => match ev with Get _ => true | _ => false end)
                 evs).

Definition waitsIn (evs : list ApiEffect) : list nat :=
  flat_map (fun ev => match ev with Wait ms => [ms] | _ => [] end) evs.

End Api.

(* ----------------------------------------------------------------- *)
(** *** Files: [_validateFile], [_handleFileUpload] (1040-1072) *)

Definition SUPPORTED_MIME_TYPES : list jsstring :=
  map str
    ["image/png"; "image/jpeg"; "image/webp"; "image/heic"; "image/heif";
     "video/mp4"; "video/mpeg"; "video/mov"; "video/avi"; "video/x-flv";
     "video/mpg"; "video/webm"; "video/wmv"; "video/3gpp";
     "audio/wav"; "audio/mp3"; "audio/aiff"; "audio/aac"; "audio/ogg";
     "audio/flac";
     "application/pdf"; "text/plain"; "text/html"; "text/css";
     "text/javascript"; "application/x-javascript"; "text/x-typescript";
     "application/x-typescript"; "text/x-python";
     "application/x-python-code"; "text/x-c"; "text/x-csharp";
     "text/x-java"; "application/json"; "text/markdown"]%string.

(** Sizes are compared as binary numbers. *)
Definition MAX_FILE_SIZE_MB : N := 10.
Definition MAX_FILE_SIZE_BYTES : N := MAX_FILE_SIZE_MB * 1024 * 1024.

(** [array.includes(x)] for strings. *)
Definition includesItem (l : list jsstring) (x : jsstring) : bool :=
  existsb (History.eqbStr x) l.

(** The callbacks given to [setTimeout] by the handlers. *)
Inductive Timer :=
| ClearUnsupported
| ClearTooLarge
| ClearNoHistory.

Definition timerDelay (t : Timer) : nat :=
  match t with
  | ClearUnsupported | ClearTooLarge => 5000
  | ClearNoHistory => 3000
  end.

Definition noHistoryMessage : jsstring :=
  str "There is no chat history to save.".

(** What a timer does when it fires. *)
Definition timerFires (t : Timer) (st : State) : State :=
  match t with
  | ClearUnsupported =>
      if startsWith (error st) (str "Unsupported file type")
      then set_error [] st else st
  | ClearTooLarge =>
      if includes (error st) (str "too large") then set_error [] st else st
  | ClearNoHistory =>
      if History.eqbStr (error st) noHistoryMessage
      then set_error [] st else st
  end.

Definition unsupportedMessage (f : File) : jsstring :=
  str "Unsupported file type: '"
  ++ (if truthy (file_type f) then file_type f else str "unknown")
  ++ str "'. Please select a supported file.".

Definition tooLargeMessage : jsstring :=
  str "File is too large. Maximum size is "
  ++ ofNat (N.to_nat MAX_FILE_SIZE_MB) ++ str "MB.".

Definition _validateFile (f : File) (st : State)
  : bool * State * list Timer :=
  if negb (includesItem SUPPORTED_MIME_TYPES (file_type f)) then
    (false, set_error (unsupportedMessage f) st, [ClearUnsupported])
  else if (MAX_FILE_SIZE_BYTES <? N.of_nat (file_size f))%N then
    (false, set_error tooLargeMessage st, [ClearTooLarge])
  else (true, st, []).

(** [chosen] is [target.files?.[0]]; [url] is what
    [URL.createObjectURL] gives for it. *)
Definition _handleFileUpload (chosen : option File) (url : jsstring)
    (st : State) : State * list Timer :=
  match chosen with
  | None => (st, [])
  | Some f =>
      let '(ok, st1, timers) := _validateFile f st in
      if ok then
        (set_error []
           (set_promptFilePreview (Some url) (set_promptFile (Some f) st1)),
         [])
      else (st1, timers)
  end.

(** [_handleTextInput] (1026-1031). *)
Definition _handleTextInput (value : jsstring) (st : State) : State :=
  set_textInputValue value st.

(* ----------------------------------------------------------------- *)
(** *** Lists edited by index: [_removeScreenCapture],
        [_removeContextFile] (790-792, 1113-1115) *)

(** [l.filter((_, i) => p(i))], with [i] counted from [from]. *)
Fixpoint filterIndex (A : Type) (p : nat -> bool) (from : nat) (l : list A)
  : list A :=
  match l with
  | [] => []
  | x :: l' =>
      if p from then x :: filterIndex p (S from) l'
      else filterIndex p (S from) l'
  end.

Definition removeAt (A : Type) (index : nat) (l : list A) : list A :=
  filterIndex (fun i => negb (i =? index)) 0 l.

Definition _removeScreenCapture (index : nat) (st : State) : State :=
  set_screenCaptures (removeAt index (screenCaptures st)) st.

Definition _removeContextFile (index : nat) (st : State) : State :=
  set_contextFiles (removeAt index (contextFiles st)) st.

(* ----------------------------------------------------------------- *)
(** *** Context files: [_handleContextFileUpload] (1074-1111) *)

(** An uploaded file as an element of [contextFiles]: it has no
    [isUploading] property. *)
Definition asContextFile (r : Api.RemoteFile) : ContextFile := {|
  cf_name := Api.rf_name r;
  cf_displayName := Api.rf_displayName r;
  cf_mimeType := Api.rf_mimeType r;
  cf_uri := Api.rf_uri r;
  cf_isUploading := false
|}.

Definition placeholderFor (tempId : jsstring) (f : File) : ContextFile := {|
  cf_name := tempId;
  cf_displayName := Some (file_name f);
  cf_mimeType := file_type f;
  cf_uri := [];
  cf_isUploading := true
|}.

(** The handler up to its [await]: [now] is [Date.now()]. It gives the
    temporary id when an upload was started. *)
Definition beginContextUpload (now : nat) (chosen : option File) (st : State)
  : State * list Timer * option jsstring :=
  match chosen with
  | None => (st, [], None)
  | Some f =>
      let '(ok, st1, timers) := _validateFile f st in
      if ok then
        let tempId := ofNat now in
        (set_contextFiles (contextFiles st1 ++ [placeholderFor tempId f]) st1,
         [], Some tempId)
      else (st1, timers, None)
  end.

(** The handler after its [await], on the state as it is by then. *)
Definition finishContextUpload (tempId : jsstring)
    (result : Result Api.RemoteFile) (st : State) : State :=
  match result with
  | Ok uploadedFile =>
      set_contextFiles
        (map (fun f => if History.eqbStr (cf_name f) tempId
                       then asContextFile uploadedFile else f)
             (contextFiles st))
        st
  | Throw err =>
      set_contextFiles
        (filter (fun f => negb (History.eqbStr (cf_name f) tempId))
                (contextFiles st))
        (set_error (str "Failed to upload context file: " ++ message err) st)
  end.

(* ----------------------------------------------------------------- *)
(** *** Speech to text: [recognition.onresult] (647-664) *)

(** The results from [event.resultIndex] on, each with [isFinal] and the
    transcript of its first alternative. It gives the state and the new
    [currentTranscript]. *)
Definition onresult (results : list (bool * jsstring)) (st : State)
  : State * jsstring :=
  let finalTranscript :=
    concat (map snd (filter (fun r => fst r) results)) in
  let interimTranscript :=
    concat (map snd (filter (fun r => negb (fst r)) results)) in
  if truthy finalTranscript then
    (set_textInputValue
       (trim (textInputValue st ++ str " " ++ finalTranscript)) st,
     [])
  else (st, finalTranscript ++ interimTranscript).

(** [_handlePromptStarterClick] (1355-1361). *)
Definition _handlePromptStarterClick (prompt : jsstring) (env : Env)
    (st : State) : State * list Effect * SendOutcome :=
  if isProcessing st then (st, [], Skipped)
  else _sendMessage env (set_textInputValue prompt st).

(* ----------------------------------------------------------------- *)
(** *** Screen captures and the speaker: [_captureAndAddScreenFrame],
        [_toggleScreenShare], [_toggleTts] (715-788, 1289-1294) *)

(** How the capture of a frame goes: no shared screen, no 2D context,
    a frame as a data URL, or an exception. *)
Inductive CaptureOutcome :=
| NotSharing
| NoCanvasContext
| Captured (url : jsstring)
| CaptureThrows (e : Error).

Definition _captureAndAddScreenFrame (o : CaptureOutcome) (st : State)
  : State :=
  match o with
  | NotSharing =>
      set_error (str "Screen sharing is not active or not ready.") st
  | NoCanvasContext => st
  | Captured url =>
      set_screenCaptures (screenCaptures st ++ [{| dataUrl := url |}]) st
  | CaptureThrows e =>
      set_error (str "Could not capture screen frame: " ++ message e) st
  end.

(** The branch of [_toggleScreenShare] that stops the sharing, and the
    [onended] callback of the shared track: the same assignments. *)
Definition screenShareStopped (st : State) : State :=
  _clearScreenCaptures (set_status (str "Screen sharing stopped.") st).

Definition _toggleTts (st : State) : State * list Effect :=
  let st' := set_isTtsEnabled (negb (isTtsEnabled st)) st in
  (st', if isTtsEnabled st' then [] else [SpeechCancel]).

(* ----------------------------------------------------------------- *)
(** *** The component as a machine driven by its events *)

Inductive UiEvent :=
| TextInput (value : jsstring)
| FileChosen (chosen : option File) (url : jsstring)
| ClearFileClicked
| CaptureFrame (o : CaptureOutcome)
| RemoveCapture (index : nat)
| ScreenShareStopped
| ContextChosen (now : nat) (chosen : option File)
| ContextUploaded (tempId : jsstring) (result : Result Api.RemoteFile)
| RemoveContext (index : nat)
| SendClicked (env : Env)
| StarterClicked (prompt : jsstring) (env : Env)
| Heard (results : list (bool * jsstring))
| VideoContext (v : option VideoContextFile)
| TtsToggled
| TimerFired (t : Timer).

Definition uiStep (ev : UiEvent) (st : State) : State :=
  match ev with
  | TextInput value => _handleTextInput value st
  | FileChosen chosen url => fst (_handleFileUpload chosen url st)
  | ClearFileClicked => fst (_clearFile st)
  | CaptureFrame o => _captureAndAddScreenFrame o st
  | RemoveCapture index => _removeScreenCapture index st
  | ScreenShareStopped => screenShareStopped st
  | ContextChosen now chosen => fst (fst (beginContextUpload now chosen st))
  | ContextUploaded tempId result => finishContextUpload tempId result st
  | RemoveContext index => _removeContextFile index st
  | SendClicked env => fst (fst (_sendMessage env st))
  | StarterClicked prompt env =>
      fst (fst (_handlePromptStarterClick prompt env st))
  | Heard results => fst (onresult results st)
  | VideoContext v => videoContextChanged v st
  | TtsToggled => fst (_toggleTts st)
  | TimerFired t => timerFires t st
  end.

(** The state after the events, the first in the list first. *)
Definition uiRun (evs : list UiEvent) (st : State) : State :=
  fold_left (fun s ev => uiStep ev s) evs st.

Definition fileIsValid (f : File) : bool :=
  includesItem SUPPORTED_MIME_TYPES (file_type f)
  && (N.of_nat (file_size f) <=? MAX_FILE_SIZE_BYTES)%N.




(** The attached file and its preview, as every event leaves them. *)
Definition attachedOk (st : State) : Prop :=
  match promptFile st with
  | Some f => fileIsValid f = true /\ promptFilePreview st <> None
  | None => promptFilePreview st = None
  end.

(** How [uploadFile] ends once the file [g] is no longer processing
    (api.ts 85-89). *)
Definition settled (g : Api.RemoteFile) : Result Api.RemoteFile :=
  if Api.isFailedState (Api.rf_state g)
  then Throw {| message := str "File processing failed." |}
  else Ok g.

(** [n] rounds of the polling loop: a [get], then five seconds. *)
Definition rounds (name : jsstring) (n : nat) : list Api.ApiEffect :=
  concat (repeat [Api.Get name; Api.Wait 5000] n).

(* ----------------------------------------------------------------- *)
(** *** Saving the log: [_saveChat] (1296-1330), and the session
        history built on import (1146-1149) *)







(* ----------------------------------------------------------------- *)
(** *** Notions for the splitter's chunks *)

(** A text without the stops it begins with. *)
Fixpoint dropStops (s : jsstring) : jsstring :=
  match s with
  | [] => []
  | c :: s' => if TTS.isStop c then dropStops s' else s
  end.

(** A non-empty string with no white space at either end. *)
Definition wellEnded (c : jsstring) : Prop :=
  match c with
  | [] => False
  | h :: _ => isSpace h = false /\ isSpace (last c " "%char) = false
  end.

(** A chunk as the splitter makes them: empty, or without white space
    at its ends and either within the budget or a single word. *)
Definition chunkShape (c : jsstring) : Prop :=
  c = []
  \/ (wellEnded c
      /\ (length c <= TTS.MAX_CHUNK_LENGTH \/ TTS.spaceFree c = true)).

(* ----------------------------------------------------------------- *)
(** *** What a trace of the visualizer leaves connected and open *)

Module Wiring.

Import Visual3D.

Definition eqbGain (g h : GainNode) : bool :=
  (gain_id g =? gain_id h) && (gain_context g =? gain_context h).

Definition eqbContext (c d : AudioContextId) : bool :=
  match c, d with
  | Borrowed a, Borrowed b => a =? b
  | Created a, Created b => a =? b
  | _, _ => false
  end.

Definition eqbAnalyser (a b : Analyser) : bool :=
  (analyser_id a =? analyser_id b)
  && eqbContext (analyser_context a) (analyser_context b).

Definition sameTap (g : GainNode) (a : Analyser) (p : GainNode * Analyser)
  : bool :=
  eqbGain (fst p) g && eqbAnalyser (snd p) a.

(** The connections from gain nodes to analysers after one more
    effect: [connect] adds the pair unless it is there, [disconnect]
    takes it away (and throws, unnoticed, when it is not there). *)
Definition tapStep (live : list (GainNode * Analyser)) (e : AudioEffect)
  : list (GainNode * Analyser) :=
  match e with
  | ConnectGain g a =>
      if existsb (sameTap g a) live then live else (g, a) :: live
  | DisconnectGain g a => filter (fun p => negb (sameTap g a p)) live
  | _ => live
  end.

Definition liveTaps (tr : list AudioEffect) : list (GainNode * Analyser) :=
  fold_left tapStep tr [].

(** The audio contexts made by the visualizer and not closed since. *)
Definition contextStep (opened : list nat) (e : AudioEffect) : list nat :=
  match e with
  | NewAudioContext n => n :: opened
  | CloseAudioContext (Created n) =>
      filter (fun m => negb (m =? n)) opened
  | _ => opened
  end.

Definition openContexts (tr : list AudioEffect) : list nat :=
  fold_left contextStep tr [].

(** Effects that touch no gain node, and effects that neither make nor
    close an audio context. *)
Definition gainFree (e : AudioEffect) : bool :=
  match e with
  | ConnectGain _ _ | DisconnectGain _ _ => false
  | _ => true
  end.

Definition contextFree (e : AudioEffect) : bool :=
  match e with
  | NewAudioContext _ | CloseAudioContext _ => false
  | _ => true
  end.

(** Effects that do not close the context numbered [n], and states
    whose installed teardown closes only a context made earlier. *)
Definition spares (n : nat) (e : AudioEffect) : bool :=
  match e with
  | CloseAudioContext (Created c) => negb (c =? n)
  | _ => true
  end.

Definition closesEarlier (st : VState) : Prop :=
  forall v src c,
    sourceCleanup st = Some (VideoCleanup v src c) -> c < fresh st.

(** No setup of a video source throws. *)
Definition neverThrows (evs : list Event) : bool :=
  forallb (fun ev => match ev with
                     | Update _ _ _ _ SetupOk => true
                     | Update _ _ _ _ _ => false
                     | Disconnect => true
                     end) evs.

(** The taps agree with the element's fields. *)
Definition tapsAgree (st : VState) (live : list (GainNode * Analyser))
  : Prop :=
  live = []
  \/ exists g a, live = [(g, a)]
                 /\ sourceCleanup st = Some (MicCleanup g)
                 /\ analyser st = Some a.

(** The open contexts agree with the element's fields. *)
Definition contextsAgree (st : VState) (opened : list nat) : Prop :=
  opened = match sourceCleanup st with
           | Some (VideoCleanup _ _ c) => [c]
           | _ => []
           end.

(** The events that take the current source down: a video element that
    arrives, both sources gone, the element removed. *)
Definition tearsDown (ev : Event) : bool :=
  match ev with
  | Update (Some _) _ true _ _ => true
  | Update None None _ _ _ => true
  | Update _ _ _ _ _ => false
  | Disconnect => true
  end.

(** The state after the events alone. *)
Definition stateAfter (evs : list Event) : VState := fst (run evs initial).

Definition traceOf (evs : list Event) : list AudioEffect :=
  snd (run evs initial).

End Wiring.

(** ** Data URLs (LiveChat.ts 863-869, 1180-1193) *)

(** A string without a comma. *)
Definition commaFree (s : jsstring) : bool :=
  forallb (fun c => negb (Ascii.eqb c ",")) s.

(** ** [searchYoutubeVideos] (api.ts 114-158) *)

Module Search.

Import History.

Section Filter.

(** Truthiness of a number, which depends on the value its literal
    denotes. *)
Variable numberTruthy : jsstring -> bool.

Definition truthyJSON (v : JSON) : bool :=
  match v with
  | JNull => false
  | JBool b => b
  | JNumber literal => numberTruthy literal
  | JString s => truthy s
  | JArray _ | JObject _ => true
  end.

(** [item.key] for an [item] other than [null], and a key that no
    prototype of a primitive or of an array defines: [None] is
    [undefined]. *)
Definition prop (item : JSON) (key : jsstring) : option JSON :=
  match item with
  | JObject fields => lookup key fields
  | _ => None
  end.

(** The callback of [filter] at lines 143-149; [&&] reads no property
    of a falsy [item]. *)
Definition keeps (item : JSON) : bool :=
  truthyJSON item
  && isString (prop item (str "videoId"))
  && isString (prop item (str "title"))
  && isString (prop item (str "thumbnailUrl")).

(** The [catch] at lines 150-157. *)
Definition searchFailure (error : Error) : Error :=
  {| message :=
       str "Failed to search YouTube. The model may be unable to find results for your query. Original error: "
       ++ message error |}.

(** The function from the parsed response on: [parsed] is the outcome
    of the request, [response.text.trim()] and [JSON.parse]. *)
Definition searchYoutubeVideos (parsed : Result JSON) : Result (list JSON) :=
  let attempt :=
    match parsed with
    | Throw e => Throw e
    | Ok (JArray result) => Ok (filter keeps result)
    | Ok _ =>
        Throw {| message :=
                   str "API did not return a valid array of search results." |}
    end in
  match attempt with
  | Ok results => Ok results
  | Throw error => Throw (searchFailure error)
  end.

End Filter.

(** An object with string values under the three keys of a search
    result. *)
Definition isSearchResult (item : JSON) : Prop :=
  exists fields videoId title thumbnailUrl,
    item = JObject fields
    /\ lookup (str "videoId") fields = Some (JString videoId)
    /\ lookup (str "title") fields = Some (JString title)
    /\ lookup (str "thumbnailUrl") fields = Some (JString thumbnailUrl).

End Search.

(** More sample worlds. *)
Module Cases.

(** A backend that fails [k] times with [msg] and then answers. *)
Definition failsThenAnswers (k : nat) (msg reply : string) : Env :=
  Sample.world
    (fun n => if n <? k then Throw {| message := str msg |}
              else Ok {| response_text := str reply;
                         response_groundingChunks := None |}).

(** A remote file in a given state. *)
Definition remote (st : Api.FileState) : Api.RemoteFile := {|
  Api.rf_name := str "files/xyz";
  Api.rf_displayName := Some (str "plan.md");
  Api.rf_mimeType := str "text/markdown";
  Api.rf_uri := str "https://files/xyz";
  Api.rf_state := st
|}.

(** A service whose file is still processing at the first [k] calls of
    [get] and is in state [final] from then on. *)
Definition settlesAfter (k : nat) (final : Api.FileState) : Api.Files := {|
  Api.upload := fun _ => Ok (remote Api.PROCESSING);
  Api.get := fun n _ => Ok (remote (if n <? k then Api.PROCESSING else final))
|}.

Definition plan : File :=
  {| file_name := str "plan.md"; file_type := str "text/markdown";
     file_size := 2048 |}.

End Cases.

(* ================================================================= *)
(** * Properties *)

(** ** Strings *)

Example str_demo :
  toLowerCase (str "RESOURCE_Exhausted 429") = str "resource_exhausted 429".
Proof. reflexivity. Qed.

Example split_demo :
  nth_error (splitChar "," (str "data:image/jpeg;base64,AAAA")) 1
  = Some (str "AAAA").
Proof. reflexivity. Qed.

Example ofNat_demo : ofNat 0 = str "0" /\ ofNat 12 = str "12".
Proof. split; reflexivity. Qed.

Example trim_demo : trim (str "  a b  ") = str "a b".
Proof. reflexivity. Qed.

Lemma startsWith_map (f : ascii -> ascii) (p s : jsstring) :
  startsWith s p = true -> startsWith (map f s) (map f p) = true.
Proof.
  revert s; induction p as [|a p IH]; intros [|b s]; simpl; auto.
  rewrite andb_true_iff. intros [Hab Hs].
  apply Ascii.eqb_eq in Hab; subst b.
  rewrite Ascii.eqb_refl. simpl. auto.
Qed.

Lemma includes_map (f : ascii -> ascii) (sub s : jsstring) :
  includes s sub = true -> includes (map f s) (map f sub) = true.
Proof.
  induction s as [|c s IH]; simpl; rewrite !orb_true_iff.
  - intros [H|H]; [left; apply (startsWith_map f sub [] H) | discriminate].
  - intros [H|H]; [left; apply (startsWith_map f sub (c :: s) H) | right; auto].
Qed.

(** Lower-casing keeps an occurrence of a word that is already lower
    case. *)
Lemma includes_toLowerCase (sub s : jsstring) :
  toLowerCase sub = sub ->
  includes s sub = true -> includes (toLowerCase s) sub = true.
Proof.
  intros Hsub H. rewrite <- Hsub. apply includes_map, H.
Qed.

(** ** The retrying dispatcher *)

Section Dispatcher.

Variable env : Env.
Variable parts : list Part.
Variable config : Config.

(** A message that contains one of the four markers, in any letter
    case, is retried. *)
Lemma marker_retriable (e : Error) :
  includes (message e) (str "429") = true
  \/ includes (message e) (str "resource_exhausted") = true
  \/ includes (message e) (str "500") = true
  \/ includes (message e) (str "internal") = true ->
  retriable e = true.
Proof.
  unfold retriable, isRateLimit, isServerError.
  intros [H|[H|[H|H]]];
    (apply includes_toLowerCase in H; [|reflexivity]);
    rewrite H; rewrite ?orb_true_r; reflexivity.
Qed.

Lemma retryLoop_success (retries delay attempt : nat) (last : option Error)
    (st : State) (response : Response) :
  sendMessage env attempt parts config = Ok response ->
  retryLoop env parts config (S retries) delay attempt last st
  = (st, [CallSendMessage parts config], Ok response).
Proof. simpl. intros ->. reflexivity. Qed.

Lemma retryLoop_fail_fast (retries delay attempt : nat) (last : option Error)
    (st : State) (e : Error) :
  sendMessage env attempt parts config = Throw e ->
  retriable e = false ->
  retryLoop env parts config (S retries) delay attempt last st
  = (st, [CallSendMessage parts config], Throw e).
Proof.
  unfold retriable. simpl. intros -> ->. reflexivity.
Qed.

Lemma retryLoop_retry (retries delay attempt : nat) (last : option Error)
    (st : State) (e : Error) :
  sendMessage env attempt parts config = Throw e ->
  retriable e = true ->
  retryLoop env parts config (S (S retries)) delay attempt last st
  = let '(st2, evs, r) :=
      retryLoop env parts config (S retries) (delay * 2) (S attempt) (Some e)
        (set_status
           (retryStatus (isRateLimit (toLowerCase (message e))) delay) st) in
    (st2, CallSendMessage parts config :: Sleep delay :: evs, r).
Proof.
  unfold retriable. intros Hs Hr.
  change (retryLoop env parts config (S (S retries)) delay attempt last st)
    with (match sendMessage env attempt parts config with
          | Ok response => (st, [CallSendMessage parts config], Ok response)
          | Throw e =>
              let errorMessage := toLowerCase (message e) in
              if isRateLimit errorMessage || isServerError errorMessage then
                if 0 <? S retries then
                  let st1 :=
                    set_status (retryStatus (isRateLimit errorMessage) delay)
                               st in
                  let '(st2, evs, r) :=
                    retryLoop env parts config (S retries) (delay * 2)
                              (S attempt) (Some e) st1 in
                  (st2, CallSendMessage parts config :: Sleep delay :: evs, r)
                else
                  let '(st2, evs, r) :=
                    retryLoop env parts config (S retries) delay (S attempt)
                              (Some e) st in
                  (st2, CallSendMessage parts config :: evs, r)
              else (st, [CallSendMessage parts config], Throw e)
          end).
  rewrite Hs. cbv zeta. rewrite Hr. reflexivity.
Qed.

Lemma retryLoop_last (delay attempt : nat) (last : option Error)
    (st : State) (e : Error) :
  sendMessage env attempt parts config = Throw e ->
  retriable e = true ->
  retryLoop env parts config 1 delay attempt last st
  = (st, [CallSendMessage parts config], Throw (finalError (Some e))).
Proof.
  unfold retriable. simpl. intros -> ->. reflexivity.
Qed.

End Dispatcher.

(** C1. When all attempts fail with a retried class of error (rate
    limit: the lower-cased message contains "429" or
    "resource_exhausted"; server error: it contains "500" or "internal"),
    the dispatcher calls the backend exactly three times, sleeps 1000 ms
    before the second call and 2000 ms before the third and not after
    it, and then throws the summary of the third error. When the first
    attempt fails with any other error, that error is thrown after this
    one call, with no sleep and no change of state. *)
Theorem retry_schedule (env : Env) (parts : list Part) (config : Config)
    (st : State) :
  ((forall n, n < 3 ->
      exists e, sendMessage env n parts config = Throw e
                /\ retriable e = true) ->
   let run := _sendMessageWithRetry env parts config st in
   snd (fst run)
   = [CallSendMessage parts config; Sleep 1000;
      CallSendMessage parts config; Sleep 2000;
      CallSendMessage parts config]
   /\ attemptsIn (snd (fst run)) = 3
   /\ sleepsIn (snd (fst run)) = [1000; 2000]
   /\ exists e, sendMessage env 2 parts config = Throw e
                /\ snd run = Throw (finalError (Some e)))
  /\
  (forall e, sendMessage env 0 parts config = Throw e ->
             retriable e = false ->
   _sendMessageWithRetry env parts config st
   = (st, [CallSendMessage parts config], Throw e)).
Proof.
  split.
  - intros H.
    destruct (H 0) as (e0 & H0 & R0); [lia|].
    destruct (H 1) as (e1 & H1 & R1); [lia|].
    destruct (H 2) as (e2 & H2 & R2); [lia|].
    unfold _sendMessageWithRetry.
    rewrite (@retryLoop_retry env parts config 1 1000 0 None st e0 H0 R0).
    rewrite (@retryLoop_retry env parts config 0 (1000 * 2) 1 (Some e0) _ e1
               H1 R1).
    rewrite (@retryLoop_last env parts config _ 2 (Some e1) _ e2 H2 R2).
    cbn -[finalError retryStatus].
    repeat split; try reflexivity.
    exists e2. split; [exact H2 | reflexivity].
  - intros e H0 R0. unfold _sendMessageWithRetry.
    apply retryLoop_fail_fast; assumption.
Qed.

Lemma retry_schedule_witness :
  (let run :=
     _sendMessageWithRetry (Sample.alwaysFails "429 Too Many Requests")
                           [PText (str "hi")] {| tools := None |}
                           initialState in
   attemptsIn (snd (fst run)) = 3 /\ sleepsIn (snd (fst run)) = [1000; 2000])
  /\ attemptsIn
       (snd (fst (_sendMessageWithRetry
                    (Sample.alwaysFails "API key not valid")
                    [PText (str "hi")] {| tools := None |} initialState)))
     = 1.
Proof.
  split.
  - pose proof
      (proj1 (retry_schedule (Sample.alwaysFails "429 Too Many Requests")
                [PText (str "hi")] {| tools := None |} initialState)) as H.
    cbv zeta in H |- *.
    destruct H as (_ & Ha & Hs & _).
    + intros n _. eexists. split; reflexivity.
    + split; assumption.
  - rewrite (proj2 (retry_schedule (Sample.alwaysFails "API key not valid")
                      [PText (str "hi")] {| tools := None |} initialState)
               {| message := str "API key not valid" |});
      reflexivity.
Defined.

(** The summary always carries the last error's text, and names the
    rate limit exactly when the lower-cased text contains "429". *)
Lemma finalError_message (e : Error) :
  message (finalError (Some e))
  = (if includes (toLowerCase (message e)) (str "429")
     then str "API rate limit exceeded"
     else str "A server error occurred")
    ++ str " after multiple retries. Please try again later. Original error: "
    ++ message e.
Proof. reflexivity. Qed.

(** C6. Three failures with the message "RESOURCE_EXHAUSTED: quota
    exceeded": the loop classifies the error as a rate limit (the status
    line before the last sleep says so), yet the summary thrown after the
    third attempt is worded as a server error. *)
Theorem summary_misses_resource_exhausted :
  let e := {| message := str "RESOURCE_EXHAUSTED: quota exceeded" |} in
  let run :=
    _sendMessageWithRetry
      (Sample.alwaysFails "RESOURCE_EXHAUSTED: quota exceeded")
      [PText (str "hi")] {| tools := None |} initialState in
  isRateLimit (toLowerCase (message e)) = true
  /\ attemptsIn (snd (fst run)) = 3
  /\ status (fst (fst run)) = str "Rate limit hit. Retrying in 2s..."
  /\ snd run
     = Throw {| message :=
                  str "A server error occurred after multiple retries. Please try again later. Original error: RESOURCE_EXHAUSTED: quota exceeded" |}.
Proof. vm_compute. repeat split. Qed.

(** ** The send pipeline *)

(** C10. With an empty trimmed text, no prompt file and no screen
    capture, [_sendMessage] returns at once: the state is unchanged and
    nothing is done to the outside world, whatever context files or
    unsent video context are present. *)
Theorem send_without_input_is_noop (env : Env) (st : State) :
  trim (textInputValue st) = [] ->
  promptFile st = None ->
  screenCaptures st = [] ->
  _sendMessage env st = (st, [], Skipped).
Proof.
  intros Ht Hf Hc. unfold _sendMessage.
  rewrite Ht, Hf, Hc. reflexivity.
Qed.

Lemma send_without_input_is_noop_witness :
  let st := Sample.state "  " None [] [Sample.notes] (Some Sample.clip) in
  trim (textInputValue st) = []
  /\ activeContextFilesOf st = [Sample.notes]
  /\ videoContextPending st = true
  /\ _sendMessage (Sample.answers "hello") st = (st, [], Skipped).
Proof.
  cbv zeta.
  split; [reflexivity|]. split; [reflexivity|]. split; [reflexivity|].
  apply send_without_input_is_noop; reflexivity.
Defined.

Lemma set_status_same (st : State) : set_status (status st) st = st.
Proof. destruct st; reflexivity. Qed.

(** The retry loop writes nothing but the status line. *)
Lemma retryLoop_state (env : Env) (parts : list Part) (config : Config)
    (retries : nat) :
  forall delay attempt last st,
  exists s,
    fst (fst (retryLoop env parts config retries delay attempt last st))
    = set_status s st.
Proof.
  induction retries as [|n IH]; intros delay attempt last st.
  - exists (status st). simpl. symmetry. apply set_status_same.
  - simpl. destruct (sendMessage env attempt parts config) as [resp|e].
    + exists (status st). simpl. symmetry. apply set_status_same.
    + destruct (isRateLimit (toLowerCase (message e))
                || isServerError (toLowerCase (message e))).
      * destruct (0 <? n).
        -- match goal with
           | |- context [retryLoop env parts config n ?d ?a ?l ?s0] =>
               destruct (IH d a l s0) as [s Hs];
               destruct (retryLoop env parts config n d a l s0)
                 as [[st2 evs] r]
           end.
           simpl in *. subst st2. exists s. reflexivity.
        -- destruct (IH delay (S attempt) (Some e) st) as [s Hs].
           destruct (retryLoop env parts config n delay (S attempt)
                               (Some e) st) as [[st2 evs] r].
           simpl in *. exists s. exact Hs.
      * exists (status st). simpl. symmetry. apply set_status_same.
Qed.

(** What [assemble] fixes of a request, read off its definition. *)
Lemma assemble_ok (env : Env) (promptText : jsstring) (f : option File)
    (st : State) (req : Request) :
  assemble env promptText f st = Ok req ->
  exists fileParts,
    match f with
    | None => fileParts = []
    | Some file0 =>
        exists p, _fileToGenerativePart env file0 = Ok p /\ fileParts = [p]
    end
    /\ req_youTubeVideoId req = getYouTubeVideoId env promptText
    /\ req_sentVideoContext req = videoContextPending st
    /\ role (req_userMessage req) = user
    /\ tl (req_parts req)
       = captureParts (screenCaptures st)
         ++ contextFileParts (activeContextFilesOf st)
         ++ videoContextParts st ++ fileParts
    /\ req_useSearch req
       = negb (truthyOpt (getYouTubeVideoId env promptText))
         && (length (tl (req_parts req))
             =? length (activeContextFilesOf st))
    /\ tools (req_config req)
       = (if req_useSearch req then Some [GoogleSearch] else None)
    /\ exists apiText,
        req_parts req
        = PText (contextPromptOf (activeContextFilesOf st) ++ apiText)
          :: tl (req_parts req)
        /\ (truthyOpt (getYouTubeVideoId env promptText) = true ->
            apiText = youtubePrompt promptText
            \/ (truthy (trim (youtubePrompt promptText)) = false))
        /\ (truthyOpt (getYouTubeVideoId env promptText) = false ->
            videoContextPending st = false ->
            truthy (trim promptText) = true ->
            apiText = promptText).
Proof.
  unfold assemble. intros H.
  destruct f as [file0|].
  - destruct (_fileToGenerativePart env file0) as [p|e] eqn:Hp;
      [|discriminate].
    injection H as <-. exists [p]. cbn [req_youTubeVideoId req_parts
      req_config req_useSearch req_userMessage req_sentVideoContext tl
      role tools].
    rewrite <- !app_assoc.
    repeat split; eauto.
    eexists. split; [reflexivity|]. split.
    + intros ->.
      destruct (truthy (trim (youtubePrompt promptText))) eqn:E; auto.
      left. cbn [negb]. rewrite andb_false_r. reflexivity.
    + intros -> -> ->. cbn [negb]. rewrite andb_false_r. reflexivity.
  - injection H as <-. exists []. cbn [req_youTubeVideoId req_parts
      req_config req_useSearch req_userMessage req_sentVideoContext tl
      role tools].
    rewrite ?app_nil_r, <- ?app_assoc.
    repeat split; eauto.
    eexists. split; [reflexivity|]. split.
    + intros ->.
      destruct (truthy (trim (youtubePrompt promptText))) eqn:E; auto.
      left. cbn [negb]. rewrite andb_false_r. reflexivity.
    + intros -> -> ->. cbn [negb]. rewrite andb_false_r. reflexivity.
Qed.

Lemma trimStart_keeps_nonspace (x : jsstring) (c : ascii) :
  isSpace c = false -> trimStart (x ++ [c]) <> [].
Proof.
  intros Hc. induction x as [|a x IH]; simpl.
  - rewrite Hc. discriminate.
  - destruct (isSpace a); [exact IH | discriminate].
Qed.

(** A string that begins with a character other than white space does
    not trim to the empty string. *)
Lemma trim_nonempty (c : ascii) (s : jsstring) :
  isSpace c = false -> truthy (trim (c :: s)) = true.
Proof.
  intros Hc. unfold trim, trimEnd. simpl trimStart. rewrite Hc.
  simpl rev.
  pose proof (trimStart_keeps_nonspace (rev s) c Hc) as H.
  destruct (trimStart (rev s ++ [c])) as [|a t]; [contradiction|].
  simpl. destruct (rev t ++ [a]) eqn:E; [|reflexivity].
  destruct (rev t); discriminate.
Qed.

Lemma youtubePrompt_truthy (promptText : jsstring) :
  truthy (trim (youtubePrompt promptText)) = true.
Proof. apply trim_nonempty. reflexivity. Qed.

(** The two ways [_processPrompt] ends. On success the log gains the
    user entry and the model entry and the pending video context is
    committed; on failure the log and the inputs are as before. *)
Lemma processPrompt_cases (env : Env) (promptText : jsstring)
    (f : option File) (st : State) :
  let st' := fst (fst (_processPrompt env promptText f st)) in
  match snd (_processPrompt env promptText f st) with
  | Ok _ =>
      (exists u m, role u = user /\ role m = model
                   /\ chatHistory st' = chatHistory st ++ [u; m])
      /\ textInputValue st' = textInputValue st
      /\ isVideoContextSent st'
         = (isVideoContextSent st || videoContextPending st)
      /\ promptFile st' = None
      /\ screenCaptures st' = []
  | Throw _ =>
      chatHistory st' = chatHistory st
      /\ textInputValue st' = textInputValue st
      /\ promptFile st' = promptFile st
      /\ promptFilePreview st' = promptFilePreview st
      /\ screenCaptures st' = screenCaptures st
      /\ contextFiles st' = contextFiles st
      /\ videoContextFile st' = videoContextFile st
      /\ isVideoContextSent st' = isVideoContextSent st
  end.
Proof.
  cbv zeta. unfold _processPrompt.
  destruct (assemble env promptText f _) as [req|e] eqn:Ha.
  - apply assemble_ok in Ha.
    destruct Ha as (fileParts & _ & _ & Hsent & Hrole & _).
    unfold _sendMessageWithRetry.
    match goal with
    | |- context [retryLoop env ?p ?c 3 1000 0 None ?s0] =>
        destruct (retryLoop_state env p c 3 1000 0 None s0) as [s Hs];
        destruct (retryLoop env p c 3 1000 0 None s0) as [[st2 evs] r]
    end.
    simpl in Hs. subst st2.
    assert (Hp : videoContextPending st = req_sentVideoContext req)
      by (rewrite Hsent; reflexivity).
    destruct r as [response|e]; cbn -[_speak].
    + rewrite Hp.
      destruct (req_sentVideoContext req); cbn -[_speak];
        (split;
         [ exists (req_userMessage req), (modelMessage response);
           split; [exact Hrole|]; split; [reflexivity|];
           rewrite <- app_assoc; reflexivity
         | repeat split; auto using orb_true_r, orb_false_r ]).
    + rewrite removelast_last. repeat split.
  - cbn. repeat split.
Qed.

(** The three ways [_sendMessage] ends. *)
Lemma sendMessage_cases (env : Env) (st : State) :
  let st' := fst (fst (_sendMessage env st)) in
  match snd (_sendMessage env st) with
  | Skipped => st' = st
  | Sent =>
      exists u m, role u = user /\ role m = model
                  /\ chatHistory st' = chatHistory st ++ [u; m]
  | Failed =>
      chatHistory st' = chatHistory st
      /\ textInputValue st' = textInputValue st
      /\ promptFile st' = promptFile st
      /\ screenCaptures st' = screenCaptures st
      /\ isVideoContextSent st' = isVideoContextSent st
  end.
Proof.
  cbv zeta. unfold _sendMessage.
  destruct (negb (truthy (trim (textInputValue st))) && _ && _);
    [reflexivity|].
  pose proof (processPrompt_cases env (trim (textInputValue st))
                (promptFile st) st) as H.
  cbv zeta in H.
  destruct (_processPrompt env (trim (textInputValue st)) (promptFile st) st)
    as [[st' evs] r].
  destruct r as [[]|e]; simpl in *.
  - destruct H as ((u & m & Hu & Hm & Hlog) & _). exists u, m. auto.
  - tauto.
Qed.

Lemma runSends_length (steps : list (Inputs * Env)) :
  forall st,
    length (chatHistory (fst (runSends steps st)))
    = length (chatHistory st)
      + 2 * length (filter isSent (snd (runSends steps st))).
Proof.
  induction steps as [|[i env] steps IH]; intros st; simpl.
  - lia.
  - pose proof (sendMessage_cases env (editInputs i st)) as H.
    cbv zeta in H.
    destruct (_sendMessage env (editInputs i st)) as [[st' evs] o].
    specialize (IH st').
    destruct (runSends steps st') as [st'' os].
    simpl in *. rewrite IH.
    destruct o; simpl.
    + subst st'. simpl. lia.
    + destruct H as (u & m & _ & _ & ->). rewrite length_app. simpl. lia.
    + destruct H as (-> & _). simpl. lia.
Qed.

(** C2. From the empty log, after any sequence of sends (with any edits
    of the inputs in between) the log has twice as many entries as there
    were successful sends; a successful send appends a user entry and a
    model entry; a failed send leaves the log as it was before the send,
    and leaves the typed text, the attached prompt file, the screen
    captures and the video-context-sent flag unchanged. *)
Theorem log_pairs_and_rollback :
  (forall steps : list (Inputs * Env),
     length (chatHistory (fst (runSends steps initialState)))
     = 2 * length (filter isSent (snd (runSends steps initialState))))
  /\
  (forall env st,
     snd (_sendMessage env st) = Sent ->
     exists u m,
       role u = user /\ role m = model
       /\ chatHistory (fst (fst (_sendMessage env st)))
          = chatHistory st ++ [u; m])
  /\
  (forall env st,
     snd (_sendMessage env st) = Failed ->
     let st' := fst (fst (_sendMessage env st)) in
     chatHistory st' = chatHistory st
     /\ textInputValue st' = textInputValue st
     /\ promptFile st' = promptFile st
     /\ screenCaptures st' = screenCaptures st
     /\ isVideoContextSent st' = isVideoContextSent st).
Proof.
  split; [|split].
  - intros steps. rewrite runSends_length. reflexivity.
  - intros env st Ho. pose proof (sendMessage_cases env st) as H.
    cbv zeta in H. rewrite Ho in H. exact H.
  - intros env st Ho. pose proof (sendMessage_cases env st) as H.
    cbv zeta in H |- *. rewrite Ho in H. exact H.
Qed.

Lemma log_pairs_and_rollback_witness :
  (let st := Sample.state "hello" (Some Sample.photo) [Sample.frame] []
                          (Some Sample.clip) in
   let env := Sample.alwaysFails "503 internal error" in
   snd (_sendMessage env st) = Failed
   /\ chatHistory (fst (fst (_sendMessage env st))) = chatHistory st
   /\ textInputValue (fst (fst (_sendMessage env st))) = str "hello"
   /\ promptFile (fst (fst (_sendMessage env st))) = Some Sample.photo
   /\ screenCaptures (fst (fst (_sendMessage env st))) = [Sample.frame]
   /\ isVideoContextSent (fst (fst (_sendMessage env st))) = false)
  /\
  (let st := Sample.state "hello" None [] [] None in
   let env := Sample.answers "hi there" in
   snd (_sendMessage env st) = Sent
   /\ length (chatHistory (fst (fst (_sendMessage env st)))) = 2).
Proof.
  split; cbv zeta.
  - split; [reflexivity|].
    apply (proj2 (proj2 log_pairs_and_rollback)
             (Sample.alwaysFails "503 internal error")
             (Sample.state "hello" (Some Sample.photo) [Sample.frame] []
                           (Some Sample.clip))).
    reflexivity.
  - split; [reflexivity|].
    destruct (proj1 (proj2 log_pairs_and_rollback)
                (Sample.answers "hi there")
                (Sample.state "hello" None [] [] None) eq_refl)
      as (u & m & _ & _ & ->).
    reflexivity.
Defined.

Example three_sends :
  let steps := [(Sample.inputs "one", Sample.answers "first");
                (Sample.inputs "two", Sample.alwaysFails "429");
                (Sample.inputs "  ", Sample.answers "unused");
                (Sample.inputs "three", Sample.answers "third")] in
  snd (runSends steps initialState) = [Sent; Failed; Skipped; Sent]
  /\ map text (chatHistory (fst (runSends steps initialState)))
     = [str "one"; str "first"; str "three"; str "third"].
Proof. vm_compute. split; reflexivity. Qed.

(** ** The assembled request *)

Lemma captureParts_map (captures : list ScreenCapture) :
  captureParts captures = map capturePart captures.
Proof. reflexivity. Qed.

Lemma videoContextParts_length (st : State) :
  length (videoContextParts st) = if videoContextPending st then 1 else 0.
Proof.
  unfold videoContextParts, videoContextPending.
  destruct (videoContextFile st); [destruct (isVideoContextSent st)|];
    reflexivity.
Qed.

Lemma videoContextParts_none (st : State) :
  videoContextPending st = false -> videoContextParts st = [].
Proof.
  intros H. pose proof (videoContextParts_length st) as L.
  rewrite H in L. destruct (videoContextParts st); [reflexivity|discriminate].
Qed.

(** The test [parts.length === activeContextFiles.length] of line 933
    holds exactly when nothing but context files was pushed. *)
Lemma only_context_parts (env : Env) (f : option File) (st : State)
    (fileParts nonText : list Part) :
  match f with
  | None => fileParts = []
  | Some file0 =>
      exists p, _fileToGenerativePart env file0 = Ok p /\ fileParts = [p]
  end ->
  nonText
  = captureParts (screenCaptures st)
    ++ contextFileParts (activeContextFilesOf st)
    ++ videoContextParts st ++ fileParts ->
  ((length nonText =? length (activeContextFilesOf st)) = true
   <-> screenCaptures st = [] /\ f = None /\ videoContextPending st = false)
  /\ (nonText = contextFileParts (activeContextFilesOf st)
      <-> screenCaptures st = [] /\ f = None
          /\ videoContextPending st = false).
Proof.
  intros Hf ->.
  assert (L : length (captureParts (screenCaptures st)
                      ++ contextFileParts (activeContextFilesOf st)
                      ++ videoContextParts st ++ fileParts)
              = length (screenCaptures st)
                + length (activeContextFilesOf st)
                + (if videoContextPending st then 1 else 0)
                + length fileParts).
  { rewrite !length_app, videoContextParts_length.
    unfold captureParts, contextFileParts. rewrite !length_map. lia. }
  assert (K : length (screenCaptures st)
              + length (activeContextFilesOf st)
              + (if videoContextPending st then 1 else 0)
              + length fileParts
              = length (activeContextFilesOf st)
              -> screenCaptures st = [] /\ f = None
                 /\ videoContextPending st = false).
  { intros E.
    destruct (screenCaptures st); [|simpl in E; lia].
    destruct (videoContextPending st); [simpl in E; lia|].
    destruct f as [file0|]; [|auto].
    destruct Hf as (p & _ & ->). simpl in E. lia. }
  assert (B : screenCaptures st = [] /\ f = None
              /\ videoContextPending st = false
              -> captureParts (screenCaptures st)
                 ++ contextFileParts (activeContextFilesOf st)
                 ++ videoContextParts st ++ fileParts
                 = contextFileParts (activeContextFilesOf st)).
  { intros (Hc & Hn & Hv). subst f. subst fileParts.
    rewrite Hc, (videoContextParts_none st Hv). simpl.
    rewrite app_nil_r. reflexivity. }
  split; split.
  - intros E. apply Nat.eqb_eq in E. rewrite L in E. auto.
  - intros H. apply Nat.eqb_eq. rewrite (B H).
    unfold contextFileParts. apply length_map.
  - intros E. apply K. rewrite <- L, E.
    unfold contextFileParts. apply length_map.
  - exact B.
Qed.

(** C3. In an assembled request the [googleSearch] tool is requested
    exactly when no YouTube id was extracted and the parts after the
    text part are exactly the parts of the ready context files, which is
    the case exactly when there is no screen capture, no attached file
    and no pending video context. For the text "hi" with one ready
    context file and nothing else, the text part is the context-file
    instruction naming the file's display name followed by "hi", and
    search is requested. *)
Theorem search_only_for_context_files (env : Env) (promptText : jsstring)
    (f : option File) (st : State) (req : Request) :
  assemble env promptText f st = Ok req ->
  (tools (req_config req) = Some [GoogleSearch]
   <-> truthyOpt (getYouTubeVideoId env promptText) = false
       /\ tl (req_parts req) = contextFileParts (activeContextFilesOf st))
  /\ (tools (req_config req) = Some [GoogleSearch]
      \/ tools (req_config req) = None)
  /\ (tl (req_parts req) = contextFileParts (activeContextFilesOf st)
      <-> screenCaptures st = [] /\ f = None
          /\ videoContextPending st = false)
  /\ (forall cf,
        promptText = str "hi" ->
        truthyOpt (getYouTubeVideoId env (str "hi")) = false ->
        activeContextFilesOf st = [cf] ->
        screenCaptures st = [] -> f = None ->
        videoContextPending st = false ->
        req_parts req
        = [PText (str "Using the provided file(s) ("
                  ++ joinText (cf_displayName cf)
                  ++ str ") as context, hi");
           PFileData (cf_mimeType cf) (cf_uri cf)]
        /\ tools (req_config req) = Some [GoogleSearch]).
Proof.
  intros Ha. apply assemble_ok in Ha.
  destruct Ha as (fileParts & Hf & _ & _ & _ & Htl & Hsearch & Htools
                  & apiText & Hparts & _ & Hplain).
  destruct (@only_context_parts env f st _ _ Hf Htl) as [Hlen Hexact].
  assert (Hiff : tools (req_config req) = Some [GoogleSearch]
                 <-> truthyOpt (getYouTubeVideoId env promptText) = false
                     /\ tl (req_parts req)
                        = contextFileParts (activeContextFilesOf st)).
  { rewrite Htools, Hsearch, Hexact, <- Hlen.
    destruct (truthyOpt (getYouTubeVideoId env promptText));
      destruct (length (tl (req_parts req))
                =? length (activeContextFilesOf st)); simpl;
      split; try tauto; try discriminate; intros [? ?]; discriminate. }
  split; [exact Hiff|]. split; [|split; [exact Hexact|]].
  - rewrite Htools. destruct (req_useSearch req); auto.
  - intros cf -> Hy Hcf Hc Hn Hv.
    split.
    + rewrite Hparts, (proj2 Hexact (conj Hc (conj Hn Hv))), Hcf.
      rewrite (Hplain Hy Hv eq_refl).
      simpl. rewrite <- !app_assoc. reflexivity.
    + apply Hiff. split; [exact Hy|]. apply Hexact. auto.
Qed.

Lemma search_only_for_context_files_witness :
  let st := Sample.state "hi" None [] [Sample.notes] None in
  let env := Sample.answers "hello" in
  exists req,
    assemble env (str "hi") None st = Ok req
    /\ req_parts req
       = [PText (str "Using the provided file(s) (notes.txt) as context, hi");
          PFileData (str "text/plain") (str "https://files/abc")]
    /\ tools (req_config req) = Some [GoogleSearch].
Proof.
  cbv zeta. eexists. split; [reflexivity|].
  refine (proj2 (proj2 (proj2
            (@search_only_for_context_files (Sample.answers "hello")
               (str "hi") None
               (Sample.state "hi" None [] [Sample.notes] None) _ eq_refl)))
            Sample.notes _ _ _ _ _ _);
    reflexivity.
Defined.

(** C4, as the code has it. When the helper yields a non-empty id for the
    text, the first part is the text part, made of the context-file
    instruction (if any) and the request to analyze the video at the URL
    given by the text; the instruction about the local video is not in
    it; no search tool is requested. The local video context is not
    bypassed: its part is among the parts whenever a video context is
    pending, the request is marked as sending it, and a successful send
    commits the flag. *)
Theorem youtube_rewrites_prompt (env : Env) (promptText : jsstring)
    (f : option File) (st : State) (req : Request) :
  truthyOpt (getYouTubeVideoId env promptText) = true ->
  assemble env promptText f st = Ok req ->
  (exists id, getYouTubeVideoId env promptText = Some id /\ id <> []
              /\ req_youTubeVideoId req = Some id)
  /\ hd_error (req_parts req)
     = Some (PText (contextPromptOf (activeContextFilesOf st)
                    ++ youtubePrompt promptText))
  /\ req_useSearch req = false
  /\ tools (req_config req) = None
  /\ (exists before rest,
        tl (req_parts req) = before ++ videoContextParts st ++ rest)
  /\ req_sentVideoContext req = videoContextPending st
  /\ (forall done, snd (_processPrompt env promptText f st) = Ok done ->
        isVideoContextSent (fst (fst (_processPrompt env promptText f st)))
        = (isVideoContextSent st || videoContextPending st)).
Proof.
  intros Hy Ha. apply assemble_ok in Ha.
  destruct Ha as (fileParts & Hf & Hid & Hsent & _ & Htl & Hsearch & Htools
                  & apiText & Hparts & Hyt & _).
  split; [|split; [|split; [|split; [|split; [|split]]]]].
  - unfold truthyOpt in Hy.
    destruct (getYouTubeVideoId env promptText) as [id|] eqn:E;
      [|discriminate].
    exists id. repeat split; auto.
    intros ->. discriminate.
  - rewrite Hparts. simpl. destruct (Hyt Hy) as [-> | Hbad]; [reflexivity|].
    rewrite youtubePrompt_truthy in Hbad. discriminate.
  - rewrite Hsearch, Hy. reflexivity.
  - rewrite Htools, Hsearch, Hy. reflexivity.
  - rewrite Htl. eexists _, _. rewrite app_assoc. reflexivity.
  - exact Hsent.
  - intros done Hdone.
    pose proof (processPrompt_cases env promptText f st) as H.
    cbv zeta in H. rewrite Hdone in H. tauto.
Qed.

Lemma youtube_rewrites_prompt_witness :
  let url := str "https://www.youtube.com/watch?v=dQw4w9WgXcQ" in
  let st := Sample.state "watch" None [] [Sample.notes] None in
  let env := Sample.answers "ok" in
  getYouTubeVideoId env url = Some (str "dQw4w9WgXcQ")
  /\ exists req,
       assemble env url None st = Ok req
       /\ hd_error (req_parts req)
          = Some (PText (str "Using the provided file(s) (notes.txt) as context, Please analyze this youtube video and answer my questions. The video is at this URL: https://www.youtube.com/watch?v=dQw4w9WgXcQ"))
       /\ tools (req_config req) = None.
Proof.
  cbv zeta. split; [reflexivity|]. eexists. split; [reflexivity|].
  pose proof (@youtube_rewrites_prompt (Sample.answers "ok")
                (str "https://www.youtube.com/watch?v=dQw4w9WgXcQ") None
                (Sample.state "watch" None [] [Sample.notes] None) _
                eq_refl eq_refl) as H.
  destruct H as (_ & Hhd & _ & Htools & _).
  split; [exact Hhd | exact Htools].
Defined.

(** Against C4 as specified, where a video context is pending: the text is
    a YouTube URL, an id is extracted, and yet the part of the local
    video is sent and the flag is committed. *)
Lemma youtube_does_not_bypass_video_context :
  let url := "https://www.youtube.com/watch?v=dQw4w9WgXcQ"%string in
  let st := Sample.state url None [] [] (Some Sample.clip) in
  let env := Sample.answers "ok" in
  getYouTubeVideoId env (trim (textInputValue st))
  = Some (str "dQw4w9WgXcQ")
  /\ isVideoContextSent st = false
  /\ snd (_sendMessage env st) = Sent
  /\ hd_error (snd (fst (_sendMessage env st)))
     = Some (CallSendMessage
               [PText (youtubePrompt (str url));
                PFileData (str "video/mp4") (str "https://files/clip")]
               {| tools := None |})
  /\ (exists parts config,
        hd_error (snd (fst (_sendMessage env st)))
        = Some (CallSendMessage parts config)
        /\ In (PFileData (vc_mimeType Sample.clip) (vc_uri Sample.clip))
              parts)
  /\ isVideoContextSent (fst (fst (_sendMessage env st)))
     <> isVideoContextSent st.
Proof.
  cbv zeta. split; [reflexivity|]. split; [reflexivity|].
  split; [reflexivity|]. split; [reflexivity|]. split.
  - eexists _, _. split; [reflexivity|]. right. left. reflexivity.
  - vm_compute. discriminate.
Qed.

Lemma existsb_map_false (A B : Type) (p : B -> bool) (g : A -> B)
    (l : list A) :
  (forall x, p (g x) = false) -> existsb p (map g l) = false.
Proof.
  intros H. induction l as [|x l IH]; [reflexivity|].
  cbn [map existsb]. rewrite H, IH. reflexivity.
Qed.

(** C5, as the code has it. With at least one screen capture, the text
    part is the first part and the only text part; the captures follow
    it at once, in the order of capture, as inline JPEG parts: capture
    [i] is the part at index [i + 1]. *)
Theorem captures_follow_text (env : Env) (promptText : jsstring)
    (f : option File) (st : State) (req : Request) :
  screenCaptures st <> [] ->
  assemble env promptText f st = Ok req ->
  (exists prompt rest,
     req_parts req
     = PText prompt :: map capturePart (screenCaptures st) ++ rest)
  /\ (forall i capture,
        nth_error (screenCaptures st) i = Some capture ->
        nth_error (req_parts req) (S i)
        = Some (PInlineData (nth_error (splitChar "," (dataUrl capture)) 1)
                            (str "image/jpeg")))
  /\ existsb isTextPart (tl (req_parts req)) = false.
Proof.
  intros _ Ha. apply assemble_ok in Ha.
  destruct Ha as (fileParts & Hf & _ & _ & _ & Htl & _ & _
                  & apiText & Hparts & _).
  split; [|split].
  - eexists _, _. rewrite Hparts, Htl. reflexivity.
  - intros i capture Hi. rewrite Hparts. simpl. rewrite Htl.
    rewrite nth_error_app1.
    + unfold captureParts. rewrite nth_error_map, Hi. reflexivity.
    + unfold captureParts. rewrite length_map.
      apply nth_error_Some. rewrite Hi. discriminate.
  - rewrite Htl, !existsb_app.
    assert (E1 : existsb isTextPart (captureParts (screenCaptures st))
                 = false).
    { apply existsb_map_false. reflexivity. }
    assert (E2 : existsb isTextPart
                   (contextFileParts (activeContextFilesOf st)) = false).
    { apply existsb_map_false. reflexivity. }
    assert (E3 : existsb isTextPart (videoContextParts st) = false).
    { unfold videoContextParts.
      destruct (videoContextFile st); [destruct (isVideoContextSent st)|];
        reflexivity. }
    assert (E4 : existsb isTextPart fileParts = false).
    { destruct f as [file0|]; [|subst; reflexivity].
      destruct Hf as (p & Hp & ->). unfold _fileToGenerativePart in Hp.
      destruct (readAsDataURL env file0); [|discriminate].
      injection Hp as <-. reflexivity. }
    rewrite E1, E2, E3, E4. reflexivity.
Qed.

Lemma captures_follow_text_witness :
  let st := Sample.state "what is this" None [Sample.frame] [] None in
  let env := Sample.answers "a cat" in
  screenCaptures st <> []
  /\ exists req,
       assemble env (str "what is this") None st = Ok req
       /\ nth_error (req_parts req) 1
          = Some (PInlineData (Some (str "AAAA")) (str "image/jpeg")).
Proof.
  cbv zeta. split; [discriminate|]. eexists. split; [reflexivity|].
  refine (proj1 (proj2
            (@captures_follow_text (Sample.answers "a cat")
               (str "what is this") None
               (Sample.state "what is this" None [Sample.frame] [] None) _
               _ eq_refl)) 0 Sample.frame eq_refl).
  discriminate.
Defined.

(** Against C5 as specified, on a send with one capture: the text part is
    at index 0 and the capture after it, so no capture part stands
    before the text part. *)
Lemma capture_is_not_before_text :
  let st := Sample.state "what is this" None [Sample.frame] [] None in
  let env := Sample.answers "a cat" in
  exists req,
    assemble env (trim (textInputValue st)) (promptFile st) st = Ok req
    /\ req_parts req
       = [PText (str "what is this");
          PInlineData (Some (str "AAAA")) (str "image/jpeg")]
    /\ ~ (exists i j,
            i < j
            /\ nth_error (req_parts req) i
               = Some (capturePart Sample.frame)
            /\ nth_error (req_parts req) j
               = Some (PText (str "what is this"))).
Proof.
  cbv zeta. eexists. split; [reflexivity|]. split; [reflexivity|].
  intros (i & j & Hij & Hi & Hj).
  destruct j as [|[|[|j]]]; simpl in Hj; try discriminate; lia.
Qed.

(** ** History import *)

Section HistoryImport.

Import History.

Variable nullAccess : Error.



(** The specification's example: one valid and one invalid element. *)
Example import_keeps_valid_element (st : HState) :
  let valid := JObject [(str "role", JString (str "user"));
                        (str "text", JString (str "hi"))] in
  let invalid := JObject [(str "role", JString (str "other"))] in
  h_chatHistory (onload nullAccess (Ok (JArray [valid; invalid])) st)
  = [valid].
Proof. reflexivity. Qed.

(** C8. An array with a [null] element and a valid element: the filter
    callback throws on [null], the [catch] reports the failure, and the
    log stays as it was; the valid element is not loaded. *)
Theorem import_aborts_on_null_element (st : HState) :
  let valid := JObject [(str "role", JString (str "user"));
                        (str "text", JString (str "hi"))] in
  conforms valid = true
  /\ filterValid nullAccess [JNull; valid] = Throw nullAccess
  /\ onload nullAccess (Ok (JArray [JNull; valid])) st
     = {| h_chatHistory := h_chatHistory st;
          h_error := str "Failed to load history: " ++ message nullAccess;
          h_status := h_status st |}.
Proof. cbv zeta. repeat split. Qed.

End HistoryImport.

(** ** The visualizer *)

Section Visualizer.

Import Visual3D.

Lemma justified_mono (tr tr' : list AudioEffect) (e : AudioEffect) :
  incl tr tr' -> justified tr e -> justified tr' e.
Proof.
  intros Hi. destruct e; simpl; auto.
  intros (n & Hc & Hin). exists n. auto.
Qed.

Lemma justifiedAll_mono (t : list AudioEffect) :
  forall tr tr', incl tr tr' -> justifiedAll tr t -> justifiedAll tr' t.
Proof.
  induction t as [|e t IH]; simpl; intros tr tr' Hi; [auto|].
  intros [He Ht]. split.
  - eapply justified_mono; eauto.
  - apply (IH (tr ++ [e])); [|exact Ht].
    apply incl_app_app; [exact Hi | apply incl_refl].
Qed.

Lemma justifiedAll_app (t1 : list AudioEffect) :
  forall tr t2,
    justifiedAll tr t1 -> justifiedAll (tr ++ t1) t2 ->
    justifiedAll tr (t1 ++ t2).
Proof.
  induction t1 as [|e t1 IH]; simpl; intros tr t2 H1 H2.
  - rewrite app_nil_r in H2. exact H2.
  - destruct H1 as [He H1]. split; [exact He|].
    apply IH; [exact H1|]. rewrite <- app_assoc. exact H2.
Qed.

Lemma justifiedAll_neutral (t : list AudioEffect) :
  forall tr, forallb neutral t = true -> justifiedAll tr t.
Proof.
  induction t as [|e t IH]; simpl; intros tr H; [exact I|].
  apply andb_true_iff in H. destruct H as [He Ht].
  split; [destruct e; simpl; auto; discriminate | apply IH, Ht].
Qed.

Lemma Owned_extend (t : list AudioEffect) :
  forall tr, Owned tr -> justifiedAll tr t -> Owned (tr ++ t).
Proof.
  induction t as [|e t IH]; simpl; intros tr Ho Hj.
  - rewrite app_nil_r. exact Ho.
  - destruct Hj as [He Ht].
    replace (tr ++ e :: t) with ((tr ++ [e]) ++ t)
      by (rewrite <- app_assoc; reflexivity).
    apply IH; [constructor; assumption | exact Ht].
Qed.

(** In an owned trace no borrowed context is closed. *)
Lemma Owned_never_closes_borrowed (tr : list AudioEffect) :
  Owned tr -> existsb closesBorrowed tr = false.
Proof.
  induction 1 as [|tr e Ho IH Hj]; [reflexivity|].
  rewrite existsb_app, IH. simpl. rewrite orb_false_r.
  destruct e; try reflexivity.
  destruct Hj as (n & -> & _). reflexivity.
Qed.

(** The teardown is in order after any trace for which the invariant
    holds. *)
Lemma runCleanup_justified (st : VState) (tr : list AudioEffect) :
  Inv st tr -> justifiedAll tr (runCleanup st).
Proof.
  intros (Ha & Hc & _). unfold runCleanup.
  destruct (sourceCleanup st) as [[g|v src c]|]; [| |exact I].
  - destruct (analyser st) as [a|]; simpl; auto.
  - assert (Hin : In (NewAudioContext c) tr) by (eapply Hc; reflexivity).
    destruct (analyser st) as [a|]; simpl; repeat split;
      exists c; (split; [reflexivity|]);
      repeat (apply in_or_app; left); exact Hin.
Qed.

(** The teardown installed for a microphone makes one call: it takes
    the current analysis node off the gain node. *)
Lemma runCleanup_mic (st : VState) (g : GainNode) (a : Analyser) :
  sourceCleanup st = Some (MicCleanup g) ->
  analyser st = Some a ->
  runCleanup st = [DisconnectGain g a].
Proof. unfold runCleanup. intros -> ->. reflexivity. Qed.

Lemma startDrawing_fields (st : VState) :
  analyser (fst (startDrawing st)) = analyser st
  /\ sourceCleanup (fst (startDrawing st)) = sourceCleanup st
  /\ forallb neutral (snd (startDrawing st)) = true.
Proof.
  unfold startDrawing. destruct (animationFrameId st); simpl; auto.
Qed.

Lemma Inv_mono (st : VState) (tr tr' : list AudioEffect) :
  incl tr tr' -> Inv st tr -> Inv st tr'.
Proof.
  intros Hi (Ha & Hc & Hn). repeat split; eauto.
Qed.

Lemma setupVideoVisualizer_inv (how : VideoSetup) (v : VideoElement)
    (st : VState) (tr : list AudioEffect) :
  Inv st tr ->
  let r := setupVideoVisualizer how v st in
  Inv (fst r) (tr ++ snd r) /\ justifiedAll tr (snd r).
Proof.
  intros HI. pose proof (runCleanup_justified HI) as HJ.
  assert (Hincl : forall t, incl tr (tr ++ t))
    by (intros t; apply incl_appl, incl_refl).
  destruct how; cbv zeta; unfold setupVideoVisualizer.
  - (* SetupOk *)
    match goal with
    | |- context [startDrawing ?s1] =>
        destruct (startDrawing_fields s1) as (Fa & Fc & Fn);
        destruct (startDrawing s1) as [st2 drawn]
    end.
    simpl in Fa, Fc, Fn. simpl fst. simpl snd. split.
    + repeat split.
      * intros a. rewrite Fa. intros [= <-].
        apply in_or_app. right. apply in_or_app. right.
        simpl. auto 10.
      * intros v' src c. rewrite Fc. intros [= <- <- <-].
        apply in_or_app. right. apply in_or_app. right.
        simpl. auto.
      * rewrite Fa. discriminate.
    + apply justifiedAll_app; [exact HJ|].
      apply justifiedAll_neutral. simpl. exact Fn.
  - (* ThrowsAtNewContext *)
    simpl. split; [eapply Inv_mono; eauto | exact HJ].
  - (* ThrowsAtCreateSource *)
    simpl fst. simpl snd. split.
    + destruct HI as (Ha & Hc & Hn). repeat split; simpl.
      * intros a E. apply in_or_app. left. auto.
      * intros v' src c E. apply in_or_app. left. eauto.
      * exact Hn.
    + apply justifiedAll_app; [exact HJ|].
      apply justifiedAll_neutral. reflexivity.
Qed.

Lemma setupMicVisualizer_inv (g : GainNode) (st : VState)
    (tr : list AudioEffect) :
  Inv st tr ->
  let r := setupMicVisualizer g st in
  Inv (fst r) (tr ++ snd r) /\ justifiedAll tr (snd r).
Proof.
  intros HI. pose proof (runCleanup_justified HI) as HJ.
  cbv zeta. unfold setupMicVisualizer.
  match goal with
  | |- context [startDrawing ?s1] =>
      destruct (startDrawing_fields s1) as (Fa & Fc & Fn);
      destruct (startDrawing s1) as [st2 drawn]
  end.
  simpl in Fa, Fc, Fn. simpl fst. simpl snd. split.
  - repeat split.
    + intros a. rewrite Fa. intros [= <-].
      apply in_or_app. right. apply in_or_app. right. simpl. auto.
    + intros v' src c. rewrite Fc. discriminate.
    + rewrite Fa. discriminate.
  - apply justifiedAll_app; [exact HJ|].
    apply justifiedAll_neutral. simpl. exact Fn.
Qed.

Lemma step_inv (ev : Event) (st : VState) (tr : list AudioEffect) :
  Inv st tr ->
  Inv (fst (step ev st)) (tr ++ snd (step ev st))
  /\ justifiedAll tr (snd (step ev st)).
Proof.
  intros HI. destruct ev as [video input vc ic how|]; simpl step.
  - assert (HI' : Inv (withProps video input st) tr) by exact HI.
    unfold updated.
    destruct (videoElement (withProps video input st)) as [v|].
    + destruct vc.
      * apply setupVideoVisualizer_inv, HI'.
      * simpl. rewrite app_nil_r. auto.
    + destruct (inputNode (withProps video input st)) as [g|].
      * destruct (ic || vc).
        -- apply setupMicVisualizer_inv, HI'.
        -- simpl. rewrite app_nil_r. auto.
      * simpl fst. simpl snd. split.
        -- repeat split; simpl; try discriminate. congruence.
        -- apply (runCleanup_justified HI').
  - unfold disconnectedCallback. simpl fst. simpl snd. split.
    + destruct HI as (Ha & Hc & Hn). repeat split; simpl.
      * intros a E. apply in_or_app. left. auto.
      * discriminate.
      * congruence.
    + apply justifiedAll_app.
      * apply justifiedAll_neutral.
        destruct (animationFrameId st); reflexivity.
      * eapply justifiedAll_mono; [|apply (runCleanup_justified HI)].
        apply incl_appl, incl_refl.
Qed.

Lemma run_inv (evs : list Event) :
  forall st tr,
    Inv st tr -> Owned tr ->
    Inv (fst (run evs st)) (tr ++ snd (run evs st))
    /\ Owned (tr ++ snd (run evs st)).
Proof.
  induction evs as [|ev evs IH]; intros st tr HI HO; simpl.
  - rewrite app_nil_r. auto.
  - destruct (step_inv ev HI) as [HI1 HJ1].
    pose proof (Owned_extend _ HO HJ1) as HO1.
    destruct (step ev st) as [st1 t1]. simpl in HI1, HO1.
    specialize (IH st1 (tr ++ t1) HI1 HO1).
    destruct (run evs st1) as [st2 t2]. simpl in IH |- *.
    rewrite app_assoc. exact IH.
Qed.

Lemma Inv_initial : Inv initial [].
Proof. repeat split; simpl; try discriminate. congruence. Qed.

End Visualizer.

(** C9. After every sequence of property updates and removals of the
    element: each analysis node taken off a gain node and each audio
    context closed was made by the visualizer earlier in the trace, so
    no borrowed audio context is ever closed; and whenever the teardown
    installed is the microphone's, running it does one thing: it
    disconnects the visualizer's current analysis node, which it made
    itself, from the borrowed gain node. *)
Theorem mic_teardown_only_disconnects (evs : list Visual3D.Event) :
  let st := fst (Visual3D.run evs Visual3D.initial) in
  let tr := snd (Visual3D.run evs Visual3D.initial) in
  Visual3D.Owned tr
  /\ existsb Visual3D.closesBorrowed tr = false
  /\ (forall g,
        Visual3D.sourceCleanup st = Some (Visual3D.MicCleanup g) ->
        exists a,
          Visual3D.analyser st = Some a
          /\ In (Visual3D.CreateAnalyser a) tr
          /\ Visual3D.runCleanup st = [Visual3D.DisconnectGain g a]).
Proof.
  cbv zeta.
  destruct (run_inv evs Inv_initial Visual3D.Owned_nil) as [HI HO].
  simpl in HI, HO. split; [exact HO|].
  split; [apply Owned_never_closes_borrowed, HO|].
  intros g Hg. destruct HI as (Ha & _ & Hn).
  destruct (Visual3D.analyser (fst (Visual3D.run evs Visual3D.initial)))
    as [a|] eqn:E.
  - exists a. split; [reflexivity|]. split; [apply Ha; reflexivity|].
    apply runCleanup_mic; assumption.
  - exfalso. apply Hn; [rewrite Hg; discriminate | reflexivity].
Qed.

Lemma mic_teardown_only_disconnects_witness :
  let evs :=
    [Visual3D.Update None (Some Visual3D.mic) false true Visual3D.SetupOk;
     Visual3D.Update (Some Visual3D.player) (Some Visual3D.mic) true false
                     Visual3D.SetupOk;
     Visual3D.Update None (Some Visual3D.mic) true false Visual3D.SetupOk] in
  let st := fst (Visual3D.run evs Visual3D.initial) in
  Visual3D.sourceCleanup st = Some (Visual3D.MicCleanup Visual3D.mic)
  /\ exists a,
       Visual3D.analyser st = Some a
       /\ Visual3D.runCleanup st = [Visual3D.DisconnectGain Visual3D.mic a].
Proof.
  cbv zeta. split; [reflexivity|].
  destruct (proj2 (proj2 (mic_teardown_only_disconnects
    [Visual3D.Update None (Some Visual3D.mic) false true Visual3D.SetupOk;
     Visual3D.Update (Some Visual3D.player) (Some Visual3D.mic) true false
                     Visual3D.SetupOk;
     Visual3D.Update None (Some Visual3D.mic) true false Visual3D.SetupOk]))
    Visual3D.mic eq_refl) as (a & Ha & _ & Hr).
  exists a. split; assumption.
Defined.

Example swap_trace :
  snd (Visual3D.run
         [Visual3D.Update None (Some Visual3D.mic) false true
                          Visual3D.SetupOk;
          Visual3D.Update (Some Visual3D.player) (Some Visual3D.mic) true
                          false Visual3D.SetupOk;
          Visual3D.Disconnect]
         Visual3D.initial)
  = let a0 := {| Visual3D.analyser_id := 0;
                 Visual3D.analyser_context := Visual3D.Borrowed 1 |} in
    let a1 := {| Visual3D.analyser_id := 3;
                 Visual3D.analyser_context := Visual3D.Created 1 |} in
    [Visual3D.CreateAnalyser a0; Visual3D.ConnectGain Visual3D.mic a0;
     Visual3D.RequestAnimationFrame;
     Visual3D.DisconnectGain Visual3D.mic a0;
     Visual3D.NewAudioContext 1;
     Visual3D.AddPlayListener Visual3D.player 1;
     Visual3D.CreateMediaElementSource 1 Visual3D.player 2;
     Visual3D.CreateAnalyser a1; Visual3D.ConnectSource 2 a1;
     Visual3D.ConnectToDestination a1;
     Visual3D.CancelAnimationFrame;
     Visual3D.RemovePlayListener Visual3D.player 1;
     Visual3D.DisconnectSource 2; Visual3D.DisconnectAnalyser a1;
     Visual3D.CloseAudioContext (Visual3D.Created 1)].
Proof. reflexivity. Qed.

(** ** The text-to-speech splitter *)

Section Splitter.

Import TTS.

Example sentences_demo :
  sentences (str "Hi there. How are you?! Fine")
  = [str "Hi there. "; str "How are you?! "; str "Fine"]
  /\ sentences (str "...wait") = [str "wait"]
  /\ sentences (str "?!") = [].
Proof. repeat split. Qed.

Example splitWs_demo :
  splitWs (str "a  b c") = [str "a"; str "b"; str "c"]
  /\ splitWs (str " a ") = [[]; str "a"; []].
Proof. split; reflexivity. Qed.

Example packWords_demo :
  map (@length ascii) (chunks Sample.longSentence) = [155; 155; 155; 32].
Proof. vm_compute. reflexivity. Qed.

Lemma sentences_body (s : jsstring) :
  forall cur, noStops s = true -> sentences_aux Body cur s = [rev cur ++ s].
Proof.
  induction s as [|c s IH]; intros cur H; simpl.
  - rewrite app_nil_r. reflexivity.
  - simpl in H. apply andb_true_iff in H. destruct H as [Hc Hs].
    apply negb_true_iff in Hc. rewrite Hc, (IH _ Hs). simpl.
    rewrite <- app_assoc. reflexivity.
Qed.

(** A text without [.], [!] or [?] is one sentence. *)
Lemma sentences_plain (text : jsstring) :
  noStops text = true ->
  sentences text = match text with [] => [] | _ :: _ => [text] end.
Proof.
  destruct text as [|c s]; [reflexivity|]. intros H.
  unfold sentences. simpl. simpl in H.
  apply andb_true_iff in H. destruct H as [Hc Hs].
  apply negb_true_iff in Hc. rewrite Hc. apply (sentences_body s [c] Hs).
Qed.

Lemma gap_irrelevant (s : jsstring) :
  filter truthy (splitWs_aux true [] s)
  = filter truthy (splitWs_aux false [] s).
Proof.
  destruct s as [|c s]; [reflexivity|]. simpl.
  destruct (isSpace c); reflexivity.
Qed.

Lemma wordsOf_leading_space (c : ascii) (s : jsstring) :
  isSpace c = true -> wordsOf (c :: s) = wordsOf s.
Proof.
  intros H. unfold wordsOf, splitWs. simpl. rewrite H. simpl.
  apply gap_irrelevant.
Qed.

Lemma wordsOf_trimStart (s : jsstring) : wordsOf (trimStart s) = wordsOf s.
Proof.
  induction s as [|c s IH]; [reflexivity|]. simpl.
  destruct (isSpace c) eqn:E; [|reflexivity].
  rewrite IH. symmetry. apply wordsOf_leading_space, E.
Qed.

Lemma splitWs_trailing_space (c : ascii) (s : jsstring) :
  isSpace c = true ->
  forall g cur,
    filter truthy (splitWs_aux g cur (s ++ [c]))
    = filter truthy (splitWs_aux g cur s).
Proof.
  intros Hc. induction s as [|a s IH]; intros g cur; simpl.
  - rewrite Hc. destruct g; simpl; [reflexivity|].
    destruct (truthy (rev cur)); reflexivity.
  - destruct (isSpace a); [destruct g|]; simpl; rewrite ?IH; reflexivity.
Qed.

Lemma wordsOf_trailing_spaces (sp : jsstring) :
  forall s, forallb isSpace sp = true -> wordsOf (s ++ sp) = wordsOf s.
Proof.
  induction sp as [|c sp IH]; intros s H.
  - rewrite app_nil_r. reflexivity.
  - simpl in H. apply andb_true_iff in H. destruct H as [Hc Hsp].
    replace (s ++ c :: sp) with ((s ++ [c]) ++ sp)
      by (rewrite <- app_assoc; reflexivity).
    rewrite (IH _ Hsp). unfold wordsOf, splitWs.
    apply splitWs_trailing_space, Hc.
Qed.

Lemma trimStart_split (s : jsstring) :
  exists sp, forallb isSpace sp = true /\ s = sp ++ trimStart s.
Proof.
  induction s as [|c s (sp & Hsp & Hs)]; [exists []; auto|]. simpl.
  destruct (isSpace c) eqn:E.
  - exists (c :: sp). simpl. rewrite E, Hsp. split; [reflexivity|].
    f_equal. exact Hs.
  - exists []. auto.
Qed.

Lemma forallb_rev (A : Type) (p : A -> bool) (l : list A) :
  forallb p (rev l) = forallb p l.
Proof.
  induction l as [|x l IH]; [reflexivity|]. simpl.
  rewrite forallb_app, IH. simpl. rewrite andb_true_r. apply andb_comm.
Qed.

Lemma trimEnd_split (s : jsstring) :
  exists sp, forallb isSpace sp = true /\ s = trimEnd s ++ sp.
Proof.
  destruct (trimStart_split (rev s)) as (sp & Hsp & Hs).
  exists (rev sp). split; [rewrite forallb_rev; exact Hsp|].
  unfold trimEnd. rewrite <- rev_app_distr, <- Hs, rev_involutive.
  reflexivity.
Qed.

(** Trimming changes no word. *)
Lemma wordsOf_trim (s : jsstring) : wordsOf (trim s) = wordsOf s.
Proof.
  unfold trim. rewrite <- (wordsOf_trimStart s).
  destruct (trimEnd_split (trimStart s)) as (sp & Hsp & Hs).
  rewrite Hs at 2. symmetry. apply wordsOf_trailing_spaces, Hsp.
Qed.

Lemma trimStart_head (s : jsstring) :
  match trimStart s with
  | [] => True
  | c :: _ => isSpace c = false
  end.
Proof.
  induction s as [|c s IH]; simpl; [exact I|].
  destruct (isSpace c) eqn:E; [exact IH | exact E].
Qed.

(** A trimmed string neither begins nor ends with white space. *)
Lemma trim_ends (s : jsstring) :
  match trim s with
  | [] => True
  | c :: _ => isSpace c = false /\ isSpace (last (trim s) " "%char) = false
  end.
Proof.
  unfold trim.
  destruct (trimEnd (trimStart s)) as [|c t] eqn:E; [exact I|].
  split.
  - destruct (trimEnd_split (trimStart s)) as (sp & _ & Hs).
    rewrite E in Hs. pose proof (trimStart_head s) as Hh.
    rewrite Hs in Hh. exact Hh.
  - unfold trimEnd in E.
    pose proof (trimStart_head (rev (trimStart s))) as Hh.
    destruct (trimStart (rev (trimStart s))) as [|d r]; [discriminate|].
    simpl in E. rewrite <- E. rewrite last_last. exact Hh.
Qed.

(** The fields of a string that neither begins nor ends with white
    space are all non-empty. *)
Lemma splitWs_clean (s : jsstring) :
  (isSpace (last s " "%char) = false ->
   Forall (fun w => truthy w = true) (splitWs_aux true [] s))
  /\ (forall cur, cur <> [] ->
        s = [] \/ isSpace (last s " "%char) = false ->
        Forall (fun w => truthy w = true) (splitWs_aux false cur s)).
Proof.
  induction s as [|c s [IH1 IH2]].
  - split; [intros H; discriminate H|].
    intros cur Hcur _. simpl. constructor; [|constructor].
    destruct (rev cur) eqn:E; [|reflexivity].
    apply (f_equal (@rev ascii)) in E. rewrite rev_involutive in E.
    contradiction.
  - assert (Hlast : isSpace (last (c :: s) " "%char) = false ->
                    isSpace c = true ->
                    isSpace (last s " "%char) = false).
    { intros H Hc. destruct s as [|d s]; [simpl in H; congruence|exact H]. }
    assert (Htail : isSpace (last (c :: s) " "%char) = false ->
                    s = [] \/ isSpace (last s " "%char) = false).
    { intros H. destruct s as [|d s]; [left; reflexivity|right; exact H]. }
    split.
    + intros H. simpl. destruct (isSpace c) eqn:E.
      * apply IH1, Hlast; auto.
      * apply IH2; [discriminate | apply Htail, H].
    + intros cur Hcur [H|H]; [discriminate|]. simpl.
      destruct (isSpace c) eqn:E.
      * constructor; [|apply IH1, Hlast; auto].
        destruct (rev cur) eqn:R; [|reflexivity].
        apply (f_equal (@rev ascii)) in R. rewrite rev_involutive in R.
        contradiction.
      * apply IH2; [discriminate | apply Htail, H].
Qed.

Lemma splitWs_trim_truthy (s : jsstring) :
  trim s <> [] -> Forall (fun w => truthy w = true) (splitWs (trim s)).
Proof.
  intros Hne. pose proof (trim_ends s) as H.
  destruct (trim s) as [|c t] eqn:E; [contradiction|].
  destruct H as [Hc Hl]. unfold splitWs. simpl. rewrite Hc.
  apply (proj2 (splitWs_clean t)); [discriminate|].
  destruct t as [|d t]; [left; reflexivity | right; exact Hl].
Qed.

Lemma filter_all (A : Type) (p : A -> bool) (l : list A) :
  Forall (fun x => p x = true) l -> filter p l = l.
Proof.
  induction 1 as [|x l Hx Hl IH]; [reflexivity|].
  simpl. rewrite Hx, IH. reflexivity.
Qed.

Lemma splitWs_spaceFree (s : jsstring) :
  forall g cur, spaceFree cur = true ->
  Forall (fun w => spaceFree w = true) (splitWs_aux g cur s).
Proof.
  induction s as [|c s IH]; intros g cur Hcur; simpl.
  - constructor; [|constructor]. unfold spaceFree in *.
    rewrite forallb_rev. exact Hcur.
  - destruct (isSpace c) eqn:E.
    + destruct g; [apply IH, Hcur|].
      constructor; [|apply IH; reflexivity].
      unfold spaceFree in *. rewrite forallb_rev. exact Hcur.
    + apply IH. unfold spaceFree in *. simpl. rewrite E, Hcur. reflexivity.
Qed.

Lemma splitWs_word (w : jsstring) :
  forall cur, spaceFree w = true -> splitWs_aux false cur w = [rev cur ++ w].
Proof.
  induction w as [|c w IH]; intros cur H; simpl.
  - rewrite app_nil_r. reflexivity.
  - unfold spaceFree in H. simpl in H. apply andb_true_iff in H.
    destruct H as [Hc Hw]. apply negb_true_iff in Hc. rewrite Hc.
    rewrite (IH _ Hw). simpl. rewrite <- app_assoc. reflexivity.
Qed.

(** A non-empty string without white space is its own single word. *)
Lemma wordsOf_word (w : jsstring) :
  truthy w = true -> spaceFree w = true -> wordsOf w = [w].
Proof.
  intros Ht Hs. unfold wordsOf, splitWs. rewrite (splitWs_word w [] Hs).
  simpl. rewrite Ht. reflexivity.
Qed.

Lemma splitWs_app (sp : ascii) (a b : jsstring) :
  isSpace sp = true ->
  forall g cur, (g = true -> cur = []) ->
    filter truthy (splitWs_aux g cur (a ++ sp :: b))
    = filter truthy (splitWs_aux g cur a) ++ wordsOf b.
Proof.
  intros Hsp. induction a as [|c a IH]; intros g cur Hg; simpl.
  - rewrite Hsp. destruct g.
    + rewrite (Hg eq_refl). simpl. apply gap_irrelevant.
    + simpl. rewrite gap_irrelevant.
      destruct (truthy (rev cur)); reflexivity.
  - destruct (isSpace c).
    + destruct g.
      * apply IH, Hg.
      * simpl. rewrite (IH true []) by reflexivity.
        destruct (truthy (rev cur)); reflexivity.
    + apply IH. discriminate.
Qed.

(** The words of two strings joined by a white-space character. *)
Lemma wordsOf_app (sp : ascii) (a b : jsstring) :
  isSpace sp = true -> wordsOf (a ++ sp :: b) = wordsOf a ++ wordsOf b.
Proof.
  intros Hsp. unfold wordsOf at 1 2, splitWs.
  apply splitWs_app; [exact Hsp | discriminate].
Qed.

(** Joining with single spaces keeps the words of each piece, in
    order. *)
Lemma wordsOf_join (l : list jsstring) :
  wordsOf (join (str " ") l) = flat_map wordsOf l.
Proof.
  induction l as [|x l IH]; [reflexivity|].
  destruct l as [|y l].
  - simpl. rewrite app_nil_r. reflexivity.
  - change (join (str " ") (x :: y :: l))
      with (x ++ " "%char :: join (str " ") (y :: l)).
    rewrite wordsOf_app by reflexivity. rewrite IH. reflexivity.
Qed.

Lemma flat_map_wordsOf_filter (l : list jsstring) :
  flat_map wordsOf (filter truthy l) = flat_map wordsOf l.
Proof.
  induction l as [|x l IH]; [reflexivity|]. simpl.
  destruct x as [|c x]; simpl; rewrite IH; reflexivity.
Qed.

(** The packing loop never exceeds the budget when no word does. *)
Lemma packWords_budget (ws : list jsstring) :
  forall cur,
    length cur <= MAX_CHUNK_LENGTH ->
    Forall (fun w => length w <= MAX_CHUNK_LENGTH) ws ->
    Forall (fun c => length c <= MAX_CHUNK_LENGTH) (packWords cur ws).
Proof.
  induction ws as [|w ws IH]; intros cur Hcur Hws; simpl.
  - destruct (truthy cur); auto.
  - inversion Hws as [|? ? Hw Hrest]; subst.
    destruct (MAX_CHUNK_LENGTH <? length cur + length w + 1) eqn:E.
    + constructor; [exact Hcur | apply IH; assumption].
    + apply Nat.ltb_ge in E. apply IH; [|assumption].
      rewrite !length_app. destruct (truthy cur); simpl; lia.
Qed.

(** The packing loop moves whole words only. *)
Lemma packWords_words (ws : list jsstring) :
  forall cur,
    Forall (fun w => truthy w = true) ws ->
    Forall (fun w => spaceFree w = true) ws ->
    flat_map wordsOf (packWords cur ws) = wordsOf cur ++ ws.
Proof.
  induction ws as [|w ws IH]; intros cur Ht Hs; simpl.
  - destruct cur as [|c cur]; simpl; [reflexivity|].
    reflexivity.
  - inversion Ht as [|? ? Htw Htrest]; subst.
    inversion Hs as [|? ? Hsw Hsrest]; subst.
    destruct (MAX_CHUNK_LENGTH <? length cur + length w + 1).
    + simpl. rewrite (IH w Htrest Hsrest), (wordsOf_word w Htw Hsw).
      reflexivity.
    + rewrite (IH _ Htrest Hsrest).
      destruct cur as [|c cur].
      * simpl. rewrite (wordsOf_word w Htw Hsw). reflexivity.
      * change (wordsOf ((c :: cur) ++ " "%char :: w) ++ ws
                = wordsOf (c :: cur) ++ w :: ws).
        rewrite wordsOf_app by reflexivity.
        rewrite (wordsOf_word w Htw Hsw), <- app_assoc. reflexivity.
Qed.

(** One sentence: within the budget when its words are. *)
Lemma chunksOfSentence_budget (sentence : jsstring) :
  Forall (fun w => length w <= MAX_CHUNK_LENGTH) (wordsOf sentence) ->
  Forall (fun c => length c <= MAX_CHUNK_LENGTH) (chunksOfSentence sentence).
Proof.
  intros H. unfold chunksOfSentence.
  destruct (length (trim sentence) =? 0) eqn:E0; [constructor|].
  destruct (MAX_CHUNK_LENGTH <? length (trim sentence)) eqn:E1.
  - apply packWords_budget; [unfold MAX_CHUNK_LENGTH; simpl; lia|].
    assert (Hne : trim sentence <> []).
    { intros Hn. rewrite Hn in E0. discriminate. }
    rewrite <- (filter_all _ (splitWs_trim_truthy sentence Hne)).
    fold (wordsOf (trim sentence)). rewrite wordsOf_trim. exact H.
  - apply Nat.ltb_ge in E1. constructor; [exact E1 | constructor].
Qed.

(** One sentence: its chunks hold its words, whole and in order. *)
Lemma chunksOfSentence_words (sentence : jsstring) :
  flat_map wordsOf (chunksOfSentence sentence) = wordsOf sentence.
Proof.
  unfold chunksOfSentence.
  destruct (length (trim sentence) =? 0) eqn:E0.
  - apply Nat.eqb_eq in E0. rewrite <- (wordsOf_trim sentence).
    destruct (trim sentence); [reflexivity | discriminate].
  - assert (Hne : trim sentence <> []).
    { intros Hn. rewrite Hn in E0. discriminate. }
    destruct (MAX_CHUNK_LENGTH <? length (trim sentence)).
    + rewrite packWords_words.
      * simpl. rewrite <- (wordsOf_trim sentence). unfold wordsOf.
        symmetry. apply filter_all, splitWs_trim_truthy, Hne.
      * apply splitWs_trim_truthy, Hne.
      * apply splitWs_spaceFree. reflexivity.
    + simpl. rewrite app_nil_r. apply wordsOf_trim.
Qed.

Lemma isStop_not_space (c : ascii) : isStop c = true -> isSpace c = false.
Proof.
  unfold isStop, isSpace. intros H.
  repeat (apply orb_true_iff in H; destruct H as [H|H]);
    apply Nat.eqb_eq in H; rewrite H; reflexivity.
Qed.

Lemma noStops_punctOk_false (s : jsstring) :
  noStops s = true -> punctOk false s = true.
Proof.
  induction s as [|c s IH]; [reflexivity|]. simpl. intros H.
  apply andb_true_iff in H. destruct H as [Hc Hs].
  apply negb_true_iff in Hc. rewrite Hc.
  destruct (isSpace c); simpl; auto.
Qed.

(** A text without [.], [!] or [?] is well punctuated. *)
Lemma noStops_wellPunctuated (text : jsstring) :
  noStops text = true -> wellPunctuated text = true.
Proof.
  destruct text as [|c s]; [reflexivity|]. simpl. intros H.
  apply andb_true_iff in H. destruct H as [Hc Hs].
  rewrite Hc. apply noStops_punctOk_false, Hs.
Qed.

(** In a well punctuated text the sentences break between words. *)
Lemma sentences_aux_words (s : jsstring) :
  (forall cur, punctOk false s = true ->
     flat_map wordsOf (sentences_aux Body cur s) = wordsOf (rev cur ++ s))
  /\ (forall p cur, punctOk p s = true ->
        (p = false -> exists sp cur', cur = sp :: cur' /\ isSpace sp = true) ->
        flat_map wordsOf (sentences_aux Tail cur s) = wordsOf (rev cur ++ s)).
Proof.
  induction s as [|c s [IHb IHt]].
  - split; intros; simpl; rewrite !app_nil_r; reflexivity.
  - assert (Hshift : forall cur, rev (c :: cur) ++ s = rev cur ++ c :: s).
    { intros cur. simpl. rewrite <- app_assoc. reflexivity. }
    split.
    + intros cur H. simpl in H |- *. destruct (isStop c) eqn:Es.
      * rewrite (IHt true (c :: cur) H) by discriminate. apply f_equal, Hshift.
      * rewrite <- Hshift. apply IHb.
        destruct (isSpace c); [exact H | exact H].
    + intros p cur H Hp. simpl in H |- *. destruct (isStop c) eqn:Es.
      * simpl. rewrite (IHt true (c :: cur) H) by discriminate.
        apply f_equal, Hshift.
      * destruct (isSpace c) eqn:Ec; simpl.
        -- rewrite <- Hshift. apply (IHt false); [exact H|].
           intros _. exists c, cur. auto.
        -- apply andb_true_iff in H. destruct H as [Hn Hs].
           apply negb_true_iff in Hn.
           destruct (Hp Hn) as (sp & cur' & -> & Hsp).
           rewrite (IHb [c] Hs). simpl rev.
           rewrite <- (app_assoc (rev cur') [sp] (c :: s)). simpl app.
           rewrite (@wordsOf_app sp (rev cur') (c :: s) Hsp).
           f_equal. apply (@wordsOf_trailing_spaces [sp] (rev cur')).
           simpl. rewrite Hsp. reflexivity.
Qed.

Lemma sentences_words (text : jsstring) :
  wellPunctuated text = true ->
  flat_map wordsOf (sentences text) = wordsOf text.
Proof.
  destruct text as [|c s]; [reflexivity|]. simpl. intros H.
  apply andb_true_iff in H. destruct H as [Hc Hs].
  apply negb_true_iff in Hc. unfold sentences. simpl. rewrite Hc.
  apply (proj1 (sentences_aux_words s) [c] Hs).
Qed.

Lemma flat_map_flat_map (A B C : Type) (f : A -> list B) (g : B -> list C)
    (l : list A) :
  flat_map g (flat_map f l) = flat_map (fun x => flat_map g (f x)) l.
Proof.
  induction l as [|x l IH]; [reflexivity|]. simpl.
  rewrite flat_map_app, IH. reflexivity.
Qed.

Lemma chunks_words (text : jsstring) :
  flat_map wordsOf (chunks text) = flat_map wordsOf (sentences text).
Proof.
  unfold chunks. rewrite flat_map_flat_map.
  apply flat_map_ext. intros sentence. apply chunksOfSentence_words.
Qed.

End Splitter.

(** C7, as the code has it. For every reply text in which [.], [!] and
    [?] stand only at the end of words, and whose words have at most 160
    characters each: every chunk has at most 160 characters; the chunks
    spoken hold the words of the text, whole and in order, so chunks
    break only between words; and joining the spoken chunks with single
    spaces gives back the words of the text in order. *)
Theorem tts_chunks_keep_words (text : jsstring) :
  TTS.wellPunctuated text = true ->
  Forall (fun w => length w <= TTS.MAX_CHUNK_LENGTH) (TTS.wordsOf text) ->
  Forall (fun c => length c <= TTS.MAX_CHUNK_LENGTH) (TTS.chunks text)
  /\ flat_map TTS.wordsOf (TTS.spokenChunks text) = TTS.wordsOf text
  /\ TTS.wordsOf (join (str " ") (TTS.spokenChunks text)) = TTS.wordsOf text.
Proof.
  intros Hp Hw.
  assert (Hwords : flat_map TTS.wordsOf (TTS.spokenChunks text)
                   = TTS.wordsOf text).
  { unfold TTS.spokenChunks.
    rewrite flat_map_wordsOf_filter, chunks_words.
    apply sentences_words, Hp. }
  split; [|split; [exact Hwords | rewrite wordsOf_join; exact Hwords]].
  unfold TTS.chunks. apply Forall_flat_map.
  apply Forall_forall. intros sentence Hin.
  apply chunksOfSentence_budget.
  apply Forall_forall. intros w Hin'.
  rewrite Forall_forall in Hw. apply Hw.
  rewrite <- (sentences_words text Hp).
  apply in_flat_map. exists sentence. auto.
Qed.

Lemma tts_chunks_keep_words_witness :
  length Sample.longSentence = 500
  /\ TTS.noStops Sample.longSentence = true
  /\ Forall (fun c => length c <= 160) (TTS.chunks Sample.longSentence)
  /\ TTS.wordsOf (join (str " ") (TTS.spokenChunks Sample.longSentence))
     = TTS.wordsOf Sample.longSentence.
Proof.
  split; [reflexivity|]. split; [reflexivity|].
  assert (Hw : Forall (fun w => length w <= TTS.MAX_CHUNK_LENGTH)
                      (TTS.wordsOf Sample.longSentence)).
  { apply Forall_forall. intros w Hin.
    vm_compute in Hin.
    repeat (destruct Hin as [<-|Hin];
            [vm_compute; repeat constructor|]).
    destruct Hin. }
  destruct (tts_chunks_keep_words Sample.longSentence eq_refl Hw)
    as (Hb & _ & Hj).
  split; [exact Hb | exact Hj].
Defined.

(** Against C7 as specified, for some reply texts: a word of 161
    characters makes a chunk of 161 characters, and a stop inside a word
    breaks the word in two. *)
Lemma tts_chunks_long_word_and_inner_stop :
  ~ Forall (fun c => length c <= 160)
           (TTS.spokenChunks (repeat "a"%char 161))
  /\ TTS.spokenChunks (str "pi is 3.14") = [str "pi is 3."; str "14"]
  /\ TTS.wordsOf (join (str " ") (TTS.spokenChunks (str "pi is 3.14")))
     <> TTS.wordsOf (str "pi is 3.14").
Proof.
  split; [|split; [reflexivity|]].
  - intros H. vm_compute in H. inversion H as [|x l Hx Hl]. lia.
  - vm_compute. discriminate.
Qed.

(* ================================================================= *)
(** * Further properties of the code *)

(** ** The dispatcher, for every backend *)

Section DispatcherBounds.

Variable env : Env.
Variable parts : list Part.
Variable config : Config.

Let call := CallSendMessage parts config.

(** The traces the dispatcher can leave. *)
Lemma dispatcher_traces (st : State) :
  let evs := snd (fst (_sendMessageWithRetry env parts config st)) in
  evs = [call]
  \/ evs = [call; Sleep 1000; call]
  \/ evs = [call; Sleep 1000; call; Sleep 2000; call].
Proof.
  cbv zeta. unfold _sendMessageWithRetry. simpl.
  destruct (sendMessage env 0 parts config) as [r0|e0]; [auto|].
  destruct (isRateLimit _ || isServerError _); [|auto].
  simpl.
  destruct (sendMessage env 1 parts config) as [r1|e1]; [auto|].
  destruct (isRateLimit _ || isServerError _); [|auto].
  simpl.
  destruct (sendMessage env 2 parts config) as [r2|e2]; [auto|].
  destruct (isRateLimit _ || isServerError _); auto.
Qed.

End DispatcherBounds.

(** X1. Whatever the backend does, one dispatch makes between one and
    three calls, all with the same parts and config, sleeps exactly
    before each call after the first, 1000 ms and then 2000 ms, and so
    never sleeps more than 3000 ms in all. *)
Theorem dispatch_is_bounded (env : Env) (parts : list Part) (config : Config)
    (st : State) :
  let evs := snd (fst (_sendMessageWithRetry env parts config st)) in
  1 <= attemptsIn evs <= 3
  /\ sleepsIn evs = firstn (attemptsIn evs - 1) [1000; 2000]
  /\ sleptIn evs <= 3000
  /\ Forall (fun ev => ev = CallSendMessage parts config
                       \/ exists ms, ev = Sleep ms) evs
  /\ last evs (Sleep 0) = CallSendMessage parts config.
Proof.
  cbv zeta.
  destruct (dispatcher_traces env parts config st) as [H|[H|H]];
    cbv zeta in H; rewrite H; unfold attemptsIn, sleptIn, sleepsIn; simpl;
    (split; [lia|]); (split; [reflexivity|]); (split; [lia|]);
    (split; [|reflexivity]);
    repeat (apply Forall_cons;
            [first [left; reflexivity | right; eexists; reflexivity]|]);
    apply Forall_nil.
Qed.

Section DispatcherSuccess.

Variable env : Env.
Variable parts : list Part.
Variable config : Config.

(** Attempt [n] answers and every attempt before it failed with a
    retried class of error. *)
Let answersAt (n : nat) (r : Response) : Prop :=
  sendMessage env n parts config = Ok r
  /\ forall m, m < n ->
       exists e, sendMessage env m parts config = Throw e
                 /\ retriable e = true.

Lemma dispatch_answer_at (st : State) (n : nat) (r : Response) :
  n < 3 -> answersAt n r ->
  let run := _sendMessageWithRetry env parts config st in
  snd run = Ok r
  /\ attemptsIn (snd (fst run)) = S n
  /\ sleepsIn (snd (fst run)) = firstn n [1000; 2000].
Proof.
  intros Hn [Hok Hbefore]. cbv zeta. unfold _sendMessageWithRetry.
  destruct n as [|[|[|n]]]; [| | |lia].
  - rewrite (@retryLoop_success env parts config 2 1000 0 None st r Hok).
    repeat split.
  - destruct (Hbefore 0) as (e0 & E0 & R0); [lia|].
    rewrite (@retryLoop_retry env parts config 1 1000 0 None st e0 E0 R0).
    rewrite (@retryLoop_success env parts config 1 _ 1 (Some e0) _ r Hok).
    repeat split.
  - destruct (Hbefore 0) as (e0 & E0 & R0); [lia|].
    destruct (Hbefore 1) as (e1 & E1 & R1); [lia|].
    rewrite (@retryLoop_retry env parts config 1 1000 0 None st e0 E0 R0).
    rewrite (@retryLoop_retry env parts config 0 _ 1 (Some e0) _ e1 E1 R1).
    rewrite (@retryLoop_success env parts config 0 _ 2 (Some e1) _ r Hok).
    repeat split.
Qed.

Lemma dispatch_answer_from (st : State) (r : Response) :
  snd (_sendMessageWithRetry env parts config st) = Ok r ->
  exists n, n < 3 /\ answersAt n r.
Proof.
  unfold _sendMessageWithRetry, answersAt.
  destruct (sendMessage env 0 parts config) as [r0|e0] eqn:E0.
  { rewrite (@retryLoop_success env parts config 2 1000 0 None st r0 E0).
    simpl. intros [= ->]. exists 0. repeat split; [lia | exact E0 | lia]. }
  destruct (retriable e0) eqn:R0.
  2:{ rewrite (@retryLoop_fail_fast env parts config 2 1000 0 None st e0
                 E0 R0). discriminate. }
  rewrite (@retryLoop_retry env parts config 1 1000 0 None st e0 E0 R0).
  destruct (sendMessage env 1 parts config) as [r1|e1] eqn:E1.
  { rewrite (@retryLoop_success env parts config 1 _ 1 (Some e0) _ r1 E1).
    simpl. intros [= ->]. exists 1. repeat split; [lia | exact E1 |].
    intros m Hm. assert (m = 0) as -> by lia. eauto. }
  destruct (retriable e1) eqn:R1.
  2:{ rewrite (@retryLoop_fail_fast env parts config 1 _ 1 (Some e0) _ e1
                 E1 R1). discriminate. }
  rewrite (@retryLoop_retry env parts config 0 _ 1 (Some e0) _ e1 E1 R1).
  destruct (sendMessage env 2 parts config) as [r2|e2] eqn:E2.
  { rewrite (@retryLoop_success env parts config 0 _ 2 (Some e1) _ r2 E2).
    simpl. intros [= ->]. exists 2. repeat split; [lia | exact E2 |].
    intros m Hm. destruct m as [|[|m]]; [eauto | eauto | lia]. }
  destruct (retriable e2) eqn:R2.
  - rewrite (@retryLoop_last env parts config _ 2 (Some e1) _ e2 E2 R2).
    discriminate.
  - rewrite (@retryLoop_fail_fast env parts config 0 _ 2 (Some e1) _ e2
               E2 R2). discriminate.
Qed.

End DispatcherSuccess.

(** X2. A dispatch returns a response exactly when one of the first
    three attempts answers and every attempt before it failed with a
    retried class of error; it then returns that answer after as many
    sleeps as there were failures, and calls the backend no more. *)
Theorem dispatch_returns_first_answer (env : Env) (parts : list Part)
    (config : Config) (st : State) (r : Response) :
  let run := _sendMessageWithRetry env parts config st in
  let answersAt n :=
    sendMessage env n parts config = Ok r
    /\ forall m, m < n ->
         exists e, sendMessage env m parts config = Throw e
                   /\ retriable e = true in
  (snd run = Ok r <-> exists n, n < 3 /\ answersAt n)
  /\ (forall n, n < 3 -> answersAt n ->
        attemptsIn (snd (fst run)) = S n
        /\ sleepsIn (snd (fst run)) = firstn n [1000; 2000]).
Proof.
  cbv zeta. split; [split|].
  - apply dispatch_answer_from.
  - intros (n & Hn & Ha).
    apply (dispatch_answer_at env parts config st (n := n)); assumption.
  - intros n Hn Ha.
    apply (dispatch_answer_at env parts config st (n := n) (r := r));
      assumption.
Qed.

Lemma dispatch_returns_first_answer_witness :
  let env := Cases.failsThenAnswers 1 "500 Internal" "done" in
  let run := _sendMessageWithRetry env [PText (str "hi")] {| tools := None |}
                                   initialState in
  attemptsIn (snd (fst run)) = 2 /\ sleepsIn (snd (fst run)) = [1000].
Proof.
  cbv zeta.
  refine (proj2 (dispatch_returns_first_answer
                   (Cases.failsThenAnswers 1 "500 Internal" "done")
                   [PText (str "hi")] {| tools := None |} initialState
                   {| response_text := str "done";
                      response_groundingChunks := None |})
            1 _ _); [lia|].
  split; [reflexivity|].
  intros m Hm. assert (m = 0) as -> by lia.
  eexists. split; reflexivity.
Defined.

(** ** The send pipeline, beyond the log *)

(** What [_processPrompt] leaves behind on every path. *)
Lemma processPrompt_frame (env : Env) (promptText : jsstring)
    (f : option File) (st : State) :
  let st' := fst (fst (_processPrompt env promptText f st)) in
  isProcessing st' = false
  /\ status st' = idleStatus
  /\ videoContextFile st' = videoContextFile st
  /\ contextFiles st' = contextFiles st
  /\ isTtsEnabled st' = isTtsEnabled st
  /\ match snd (_processPrompt env promptText f st) with
     | Ok _ => error st' = [] /\ promptFilePreview st' = None
     | Throw e =>
         error st' = failureBanner (message e)
         \/ error st' = str "Error processing file: " ++ message e
     end.
Proof.
  cbv zeta. unfold _processPrompt.
  destruct (assemble env promptText f _) as [req|e] eqn:Ha.
  - unfold _sendMessageWithRetry.
    match goal with
    | |- context [retryLoop env ?p ?c 3 1000 0 None ?s0] =>
        destruct (retryLoop_state env p c 3 1000 0 None s0) as [s Hs];
        destruct (retryLoop env p c 3 1000 0 None s0) as [[st2 evs] r]
    end.
    simpl in Hs. subst st2.
    destruct r as [response|e]; cbn -[_speak failureBanner].
    + destruct (req_sentVideoContext req); cbn; repeat split.
    + repeat split. left. reflexivity.
  - cbn. repeat split. right. reflexivity.
Qed.



Lemma sent_clears_inputs (env : Env) (st : State) :
  snd (_sendMessage env st) = Sent ->
  textInputValue (fst (fst (_sendMessage env st))) = []
  /\ promptFile (fst (fst (_sendMessage env st))) = None
  /\ screenCaptures (fst (fst (_sendMessage env st))) = [].
Proof.
  pose proof (processPrompt_cases env (trim (textInputValue st))
                (promptFile st) st) as C.
  cbv zeta in C. revert C. unfold _sendMessage.
  destruct (negb (truthy (trim (textInputValue st))) && _ && _);
    [discriminate|].
  destruct (_processPrompt env (trim (textInputValue st)) (promptFile st) st)
    as [[st' evs] r].
  destruct r as [[]|e]; simpl; [|discriminate].
  intros (_ & _ & _ & Cf & Cc) _. auto.
Qed.

(** X4. After a successful send, sending again at once does nothing:
    the inputs were cleared, so the second call returns at the guard,
    whatever the backend would have answered. *)
Theorem resend_after_success_is_skipped (env env' : Env) (st : State) :
  snd (_sendMessage env st) = Sent ->
  _sendMessage env' (fst (fst (_sendMessage env st)))
  = (fst (fst (_sendMessage env st)), [], Skipped).
Proof.
  intros Hs. destruct (sent_clears_inputs env st Hs) as (Ht & Hf & Hc).
  generalize dependent (fst (fst (_sendMessage env st))).
  intros st1 Ht Hf Hc. unfold _sendMessage. rewrite Ht, Hf, Hc. reflexivity.
Qed.

Lemma resend_after_success_is_skipped_witness :
  let st := Sample.state "hello" None [Sample.frame] [] None in
  snd (_sendMessage (Sample.answers "hi") st) = Sent
  /\ snd (_sendMessage (Sample.answers "again")
            (fst (fst (_sendMessage (Sample.answers "hi") st))))
     = Skipped.
Proof.
  cbv zeta. split; [reflexivity|].
  rewrite (@resend_after_success_is_skipped (Sample.answers "hi")
             (Sample.answers "again")
             (Sample.state "hello" None [Sample.frame] [] None) eq_refl).
  reflexivity.
Defined.










(** ** Lists edited by index *)

Lemma filterIndex_remove (A : Type) (l : list A) :
  forall from index,
    filterIndex (fun i => negb (i =? from + index)) from l
    = firstn index l ++ skipn (S index) l.
Proof.
  induction l as [|x l IH]; intros from index.
  - destruct index; reflexivity.
  - simpl filterIndex. destruct index as [|index].
    + rewrite Nat.add_0_r, Nat.eqb_refl. simpl.
      clear IH. revert from.
      assert (H : forall k from, from < k ->
                    filterIndex (fun i => negb (i =? from)) k l = l).
      { induction l as [|y l IHl]; intros k from Hk; [reflexivity|].
        simpl. destruct (k =? from) eqn:E;
          [apply Nat.eqb_eq in E; lia|].
        simpl. f_equal. apply IHl. lia. }
      intros from. apply H. lia.
    + destruct (from =? from + S index) eqn:E;
        [apply Nat.eqb_eq in E; lia|].
      simpl. f_equal.
      replace (from + S index) with (S from + index) by lia.
      apply IH.
Qed.

(** X7. Removing a screen capture or a context file by its index takes
    out exactly the element at that index and keeps the others in their
    order; an index past the end changes nothing. Nothing else in the
    state changes. *)
Theorem remove_by_index (index : nat) (st : State) :
  screenCaptures (_removeScreenCapture index st)
  = firstn index (screenCaptures st) ++ skipn (S index) (screenCaptures st)
  /\ contextFiles (_removeContextFile index st)
     = firstn index (contextFiles st) ++ skipn (S index) (contextFiles st)
  /\ length (screenCaptures (_removeScreenCapture index st))
     = (if index <? length (screenCaptures st)
        then length (screenCaptures st) - 1
        else length (screenCaptures st))
  /\ (length (contextFiles st) <= index ->
      _removeContextFile index st = st)
  /\ (length (screenCaptures st) <= index ->
      _removeScreenCapture index st = st).
Proof.
  assert (R : forall (A : Type) (l : list A),
            removeAt index l = firstn index l ++ skipn (S index) l).
  { intros A l. unfold removeAt. apply (filterIndex_remove l 0 index). }
  assert (P : forall (A : Type) (l : list A),
            length l <= index -> removeAt index l = l).
  { intros A l H. rewrite R, firstn_all2, skipn_all2 by lia.
    apply app_nil_r. }
  split; [apply R|]. split; [apply R|]. split; [|split].
  - unfold _removeScreenCapture. cbn [screenCaptures set_screenCaptures].
    rewrite R, length_app, length_firstn, length_skipn.
    destruct (index <? length (screenCaptures st)) eqn:E.
    + apply Nat.ltb_lt in E. lia.
    + apply Nat.ltb_ge in E. lia.
  - intros H. unfold _removeContextFile. rewrite (P _ _ H).
    destruct st; reflexivity.
  - intros H. unfold _removeScreenCapture. rewrite (P _ _ H).
    destruct st; reflexivity.
Qed.

Lemma remove_by_index_witness :
  let st := Sample.state "x" None [Sample.frame] [Sample.notes] None in
  _removeContextFile 1 st = st /\ _removeScreenCapture 5 st = st.
Proof.
  cbv zeta.
  pose proof (remove_by_index 1
                (Sample.state "x" None [Sample.frame] [Sample.notes] None))
    as (_ & _ & _ & H1 & _).
  pose proof (remove_by_index 5
                (Sample.state "x" None [Sample.frame] [Sample.notes] None))
    as (_ & _ & _ & _ & H5).
  split; [apply H1 | apply H5]; simpl; lia.
Defined.

(** ** The component over all sequences of events *)

Lemma validateFile_ok (f : File) (st : State) :
  fst (fst (_validateFile f st)) = fileIsValid f
  /\ (fileIsValid f = true -> _validateFile f st = (true, st, [])).
Proof.
  unfold _validateFile, fileIsValid.
  destruct (includesItem SUPPORTED_MIME_TYPES (file_type f));
    cbn [negb andb fst];
    [|split; [reflexivity|discriminate]].
  rewrite N.ltb_antisym.
  destruct (N.of_nat (file_size f) <=? MAX_FILE_SIZE_BYTES)%N;
    cbn [negb fst]; split; auto; discriminate.
Qed.

Lemma attachedOk_same (st st' : State) :
  promptFile st' = promptFile st ->
  promptFilePreview st' = promptFilePreview st ->
  attachedOk st -> attachedOk st'.
Proof. unfold attachedOk. intros -> ->. auto. Qed.

Lemma sendMessage_attached (env : Env) (st : State) :
  attachedOk st -> attachedOk (fst (fst (_sendMessage env st))).
Proof.
  intros H. unfold _sendMessage.
  destruct (negb (truthy (trim (textInputValue st))) && _ && _);
    [exact H|].
  pose proof (processPrompt_frame env (trim (textInputValue st))
                (promptFile st) st) as F.
  pose proof (processPrompt_cases env (trim (textInputValue st))
                (promptFile st) st) as C.
  cbv zeta in F, C.
  destruct (_processPrompt env (trim (textInputValue st)) (promptFile st) st)
    as [[st' evs] r].
  destruct F as (_ & _ & _ & _ & _ & Fr).
  destruct r as [[]|e]; simpl in *.
  - destruct C as (_ & _ & _ & Cf & _). destruct Fr as [_ Fv].
    unfold attachedOk. cbn. rewrite Cf. exact Fv.
  - destruct C as (_ & _ & Cf & Cv & _).
    apply (attachedOk_same st); assumption.
Qed.

Lemma uiStep_attached (ev : UiEvent) (st : State) :
  attachedOk st -> attachedOk (uiStep ev st).
Proof.
  intros H. destruct ev; simpl uiStep;
    try (apply (attachedOk_same st); [reflexivity | reflexivity | exact H]).
  - (* FileChosen *)
    unfold _handleFileUpload. destruct chosen as [f|]; [|exact H].
    pose proof (validateFile_ok f st) as [V1 V2].
    destruct (fileIsValid f) eqn:E.
    + rewrite (V2 eq_refl).
      change (fileIsValid f = true /\ Some url <> None).
      split; [exact E | discriminate].
    + unfold _validateFile in *.
      destruct (negb (includesItem SUPPORTED_MIME_TYPES (file_type f)));
        [apply (attachedOk_same st); [reflexivity | reflexivity | exact H]|].
      destruct (MAX_FILE_SIZE_BYTES <? N.of_nat (file_size f))%N;
        [apply (attachedOk_same st); [reflexivity | reflexivity | exact H]|].
      discriminate V1.
  - (* ClearFileClicked *) reflexivity.
  - (* CaptureFrame *)
    destruct o; apply (attachedOk_same st); try reflexivity; exact H.
  - (* ContextChosen *)
    unfold beginContextUpload. destruct chosen as [f|]; [|exact H].
    unfold _validateFile.
    destruct (negb _); [|destruct (_ <? _)%N];
      apply (attachedOk_same st); try reflexivity; exact H.
  - (* ContextUploaded *)
    destruct result; apply (attachedOk_same st); try reflexivity; exact H.
  - (* SendClicked *) apply sendMessage_attached, H.
  - (* StarterClicked *)
    unfold _handlePromptStarterClick. destruct (isProcessing st); [exact H|].
    apply sendMessage_attached.
    apply (attachedOk_same st); try reflexivity; exact H.
  - (* Heard *)
    unfold onresult. destruct (truthy _); [|exact H].
    apply (attachedOk_same st); try reflexivity; exact H.
  - (* VideoContext *)
    destruct v; apply (attachedOk_same st); try reflexivity; exact H.
  - (* TimerFired *)
    destruct t; simpl;
      match goal with |- attachedOk (if ?c then _ else _) => destruct c end;
      try exact H; apply (attachedOk_same st); try reflexivity; exact H.
Qed.

Lemma uiRun_attached (evs : list UiEvent) :
  forall st, attachedOk st -> attachedOk (uiRun evs st).
Proof.
  induction evs as [|ev evs IH]; intros st H; [exact H|].
  apply IH, uiStep_attached, H.
Qed.

(** X8. Whatever the user does, in whatever order (typing, choosing and
    clearing files, captures, context files, sends, dictation, a new
    video context, timers), a file that is attached to the prompt has a
    supported type and at most 10 MiB, and a preview URL is held exactly
    while a file is attached. *)
Theorem attached_file_is_valid (evs : list UiEvent) :
  let st := uiRun evs initialState in
  (forall f, promptFile st = Some f ->
     includesItem SUPPORTED_MIME_TYPES (file_type f) = true
     /\ (N.of_nat (file_size f) <= 10 * 1024 * 1024)%N)
  /\ (promptFile st = None <-> promptFilePreview st = None).
Proof.
  cbv zeta.
  assert (H : attachedOk (uiRun evs initialState))
    by (apply uiRun_attached; reflexivity).
  unfold attachedOk in H. split.
  - intros f Hf. rewrite Hf in H. destruct H as [H _].
    unfold fileIsValid in H. apply andb_true_iff in H.
    destruct H as [H1 H2]. split; [exact H1|].
    apply N.leb_le in H2. exact H2.
  - destruct (promptFile (uiRun evs initialState)).
    + destruct H as [_ H]. split; [discriminate | contradiction].
    + split; auto.
Qed.

Lemma attached_file_is_valid_witness :
  let evs := [FileChosen (Some {| file_name := str "big.exe";
                                  file_type := str "application/x-msdownload";
                                  file_size := 10 |}) (str "blob:0");
              FileChosen (Some Sample.photo) (str "blob:1");
              TextInput (str "what is this");
              SendClicked (Sample.alwaysFails "500")] in
  promptFile (uiRun evs initialState) = Some Sample.photo
  /\ includesItem SUPPORTED_MIME_TYPES (file_type Sample.photo) = true
  /\ (N.of_nat (file_size Sample.photo) <= 10 * 1024 * 1024)%N.
Proof.
  cbv zeta. split; [reflexivity|].
  refine (proj1 (attached_file_is_valid
    [FileChosen (Some {| file_name := str "big.exe";
                         file_type := str "application/x-msdownload";
                         file_size := 10 |}) (str "blob:0");
     FileChosen (Some Sample.photo) (str "blob:1");
     TextInput (str "what is this");
     SendClicked (Sample.alwaysFails "500")]) Sample.photo _).
  reflexivity.
Defined.




(** ** Context files *)

Lemma filter_negb_none (A : Type) (p : A -> bool) (l : list A) :
  forallb (fun x => negb (p x)) l = true -> filter p l = [] .
Proof.
  induction l as [|x l IH]; [reflexivity|]. simpl.
  intros H. apply andb_true_iff in H. destruct H as [Hx Hl].
  apply negb_true_iff in Hx. rewrite Hx. apply IH, Hl.
Qed.

Lemma map_replace_fresh (tempId : jsstring) (c : ContextFile)
    (l : list ContextFile) :
  forallb (fun f => negb (History.eqbStr (cf_name f) tempId)) l = true ->
  map (fun f => if History.eqbStr (cf_name f) tempId then c else f) l = l.
Proof.
  induction l as [|x l IH]; [reflexivity|]. simpl.
  intros H. apply andb_true_iff in H. destruct H as [Hx Hl].
  apply negb_true_iff in Hx. rewrite Hx, (IH Hl). reflexivity.
Qed.

Lemma filter_keep_fresh (tempId : jsstring) (l : list ContextFile) :
  forallb (fun f => negb (History.eqbStr (cf_name f) tempId)) l = true ->
  filter (fun f => negb (History.eqbStr (cf_name f) tempId)) l = l.
Proof.
  induction l as [|x l IH]; [reflexivity|]. simpl.
  intros H. apply andb_true_iff in H. destruct H as [Hx Hl].
  rewrite Hx, (IH Hl). reflexivity.
Qed.

Lemma eqbStr_refl (s : jsstring) : History.eqbStr s s = true.
Proof.
  induction s as [|c s IH]; [reflexivity|].
  simpl. rewrite Ascii.eqb_refl. exact IH.
Qed.

Lemma removeAt_spec (A : Type) (index : nat) (l : list A) :
  removeAt index l = firstn index l ++ skipn (S index) l.
Proof. unfold removeAt. apply (filterIndex_remove l 0 index). Qed.

(** X10. The life of a context file, when no file in the list bears the
    temporary id: choosing a valid file adds a placeholder at the end,
    which no send uses; when the upload completes the placeholder
    becomes the uploaded file, in place, and is used from then on; when
    the upload fails the list is as before and the banner says so; and
    when the placeholder was removed in the meantime, the completed
    upload adds nothing. *)
Theorem context_upload_lifecycle (now : nat) (f : File) (st : State)
    (uploaded : Api.RemoteFile) (err : Error) :
  fileIsValid f = true ->
  forallb (fun c => negb (History.eqbStr (cf_name c) (ofNat now)))
          (contextFiles st) = true ->
  let started := fst (fst (beginContextUpload now (Some f) st)) in
  snd (beginContextUpload now (Some f) st) = Some (ofNat now)
  /\ contextFiles started
     = contextFiles st ++ [placeholderFor (ofNat now) f]
  /\ activeContextFilesOf started = activeContextFilesOf st
  /\ contextFiles (finishContextUpload (ofNat now) (Ok uploaded) started)
     = contextFiles st ++ [asContextFile uploaded]
  /\ activeContextFilesOf
       (finishContextUpload (ofNat now) (Ok uploaded) started)
     = activeContextFilesOf st ++ [asContextFile uploaded]
  /\ contextFiles (finishContextUpload (ofNat now) (Throw err) started)
     = contextFiles st
  /\ error (finishContextUpload (ofNat now) (Throw err) started)
     = str "Failed to upload context file: " ++ message err
  /\ contextFiles
       (finishContextUpload (ofNat now) (Ok uploaded)
          (_removeContextFile (length (contextFiles st)) started))
     = contextFiles st.
Proof.
  intros Hv Hfresh. cbv zeta.
  unfold beginContextUpload.
  rewrite (proj2 (validateFile_ok f st) Hv).
  cbn [fst snd contextFiles set_contextFiles].
  split; [reflexivity|]. split; [reflexivity|]. split.
  { unfold activeContextFilesOf. cbn [contextFiles set_contextFiles].
    rewrite filter_app. simpl. apply app_nil_r. }
  assert (Hmap :
    map (fun c => if History.eqbStr (cf_name c) (ofNat now)
                  then asContextFile uploaded else c)
        (contextFiles st ++ [placeholderFor (ofNat now) f])
    = contextFiles st ++ [asContextFile uploaded]).
  { rewrite map_app, (map_replace_fresh _ _ _ Hfresh).
    cbn [map placeholderFor cf_name]. rewrite eqbStr_refl. reflexivity. }
  split; [exact Hmap|]. split.
  { unfold activeContextFilesOf, finishContextUpload.
    cbn [contextFiles set_contextFiles]. rewrite Hmap, filter_app.
    reflexivity. }
  split.
  { unfold finishContextUpload. cbn [contextFiles set_contextFiles set_error].
    rewrite filter_app, (filter_keep_fresh _ _ Hfresh).
    cbn [filter placeholderFor cf_name]. rewrite eqbStr_refl.
    apply app_nil_r. }
  split; [reflexivity|].
  unfold finishContextUpload, _removeContextFile.
  cbn [contextFiles set_contextFiles].
  replace (removeAt (length (contextFiles st))
             (contextFiles st ++ [placeholderFor (ofNat now) f]))
    with (contextFiles st).
  - apply map_replace_fresh, Hfresh.
  - rewrite removeAt_spec.
    rewrite firstn_app, firstn_all, Nat.sub_diag. simpl firstn.
    rewrite skipn_app, skipn_all2 by lia.
    replace (S (length (contextFiles st)) - length (contextFiles st))
      with 1 by lia.
    simpl. rewrite !app_nil_r. reflexivity.
Qed.

Lemma context_upload_lifecycle_witness :
  let st := Sample.state "x" None [] [Sample.notes] None in
  let up := {| Api.rf_name := str "files/xyz";
               Api.rf_displayName := Some (str "plan.md");
               Api.rf_mimeType := str "text/markdown";
               Api.rf_uri := str "https://files/xyz";
               Api.rf_state := Api.ACTIVE |} in
  let f := {| file_name := str "plan.md"; file_type := str "text/markdown";
              file_size := 2048 |} in
  activeContextFilesOf
    (finishContextUpload (ofNat 1700) (Ok up)
       (fst (fst (beginContextUpload 1700 (Some f) st))))
  = [Sample.notes; asContextFile up].
Proof.
  cbv zeta.
  refine (proj1 (proj2 (proj2 (proj2 (proj2
    (@context_upload_lifecycle 1700
       {| file_name := str "plan.md"; file_type := str "text/markdown";
          file_size := 2048 |}
       (Sample.state "x" None [] [Sample.notes] None)
       {| Api.rf_name := str "files/xyz";
          Api.rf_displayName := Some (str "plan.md");
          Api.rf_mimeType := str "text/markdown";
          Api.rf_uri := str "https://files/xyz";
          Api.rf_state := Api.ACTIVE |}
       {| message := [] |} _ _)))))).
  - vm_compute. reflexivity.
  - vm_compute. reflexivity.
Defined.

Lemma assemble_ext (env : Env) (promptText : jsstring) (f : option File)
    (st1 st2 : State) :
  screenCaptures st1 = screenCaptures st2 ->
  activeContextFilesOf st1 = activeContextFilesOf st2 ->
  videoContextFile st1 = videoContextFile st2 ->
  isVideoContextSent st1 = isVideoContextSent st2 ->
  assemble env promptText f st1 = assemble env promptText f st2.
Proof.
  intros Hc Ha Hv Hs.
  unfold assemble, videoContextParts, videoContextPending.
  rewrite Hc, Ha, Hv, Hs. reflexivity.
Qed.

(** X11. A context file that is still uploading is invisible to sends:
    from the moment a file is chosen until its upload completes, every
    request is assembled exactly as if the file had not been chosen, and
    in general a request depends on the context files only through
    those that are not uploading. *)
Theorem uploading_files_are_not_sent (env : Env) (promptText : jsstring)
    (f : option File) (now : nat) (chosen : option File) (st : State) :
  assemble env promptText f (fst (fst (beginContextUpload now chosen st)))
  = assemble env promptText f st
  /\ assemble env promptText f
       (set_contextFiles (activeContextFilesOf st) st)
     = assemble env promptText f st.
Proof.
  split.
  - unfold beginContextUpload. destruct chosen as [file0|]; [|reflexivity].
    unfold _validateFile.
    destruct (negb _); [reflexivity|].
    destruct (_ <? _)%N; [reflexivity|].
    apply assemble_ext; try reflexivity.
    unfold activeContextFilesOf. cbn [fst contextFiles set_contextFiles].
    rewrite filter_app. simpl. apply app_nil_r.
  - apply assemble_ext; try reflexivity.
    unfold activeContextFilesOf. cbn [contextFiles set_contextFiles].
    induction (contextFiles st) as [|c l IH]; [reflexivity|].
    simpl. destruct (cf_isUploading c) eqn:E; simpl; [exact IH|].
    rewrite E. simpl. f_equal. exact IH.
Qed.

(** X12. Two context files chosen within the same millisecond share
    their temporary id: when the first upload completes, both
    placeholders become the first uploaded file, and the completion of
    the second upload then changes nothing, so the second file is
    lost. *)
Theorem same_millisecond_uploads_collide (now : nat) (f1 f2 : File)
    (st : State) (up1 up2 : Api.RemoteFile) :
  fileIsValid f1 = true -> fileIsValid f2 = true ->
  forallb (fun c => negb (History.eqbStr (cf_name c) (ofNat now)))
          (contextFiles st) = true ->
  History.eqbStr (Api.rf_name up1) (ofNat now) = false ->
  let started :=
    fst (fst (beginContextUpload now (Some f2)
                (fst (fst (beginContextUpload now (Some f1) st))))) in
  let first := finishContextUpload (ofNat now) (Ok up1) started in
  contextFiles started
  = contextFiles st
    ++ [placeholderFor (ofNat now) f1; placeholderFor (ofNat now) f2]
  /\ contextFiles first
     = contextFiles st ++ [asContextFile up1; asContextFile up1]
  /\ contextFiles (finishContextUpload (ofNat now) (Ok up2) first)
     = contextFiles first.
Proof.
  intros Hv1 Hv2 Hfresh Hname. cbv zeta.
  unfold beginContextUpload.
  rewrite (proj2 (validateFile_ok f1 st) Hv1).
  cbn [fst snd]. rewrite (proj2 (validateFile_ok f2 _) Hv2).
  cbn [fst snd contextFiles set_contextFiles].
  rewrite <- app_assoc. cbn [app].
  split; [reflexivity|].
  assert (Hmap :
    map (fun c => if History.eqbStr (cf_name c) (ofNat now)
                  then asContextFile up1 else c)
        (contextFiles st
         ++ [placeholderFor (ofNat now) f1; placeholderFor (ofNat now) f2])
    = contextFiles st ++ [asContextFile up1; asContextFile up1]).
  { rewrite map_app, (map_replace_fresh _ _ _ Hfresh).
    cbn [map placeholderFor cf_name]. rewrite eqbStr_refl. reflexivity. }
  unfold finishContextUpload. cbn [contextFiles set_contextFiles].
  rewrite Hmap. split; [reflexivity|].
  rewrite map_app, (map_replace_fresh _ _ _ Hfresh).
  cbn [map asContextFile cf_name]. rewrite Hname. reflexivity.
Qed.

Lemma same_millisecond_uploads_collide_witness :
  let st := Sample.state "x" None [] [] None in
  let started :=
    fst (fst (beginContextUpload 1700 (Some Sample.photo)
                (fst (fst (beginContextUpload 1700 (Some Cases.plan) st)))))
  in
  contextFiles
    (finishContextUpload (ofNat 1700) (Ok (Cases.remote Api.ACTIVE)) started)
  = [asContextFile (Cases.remote Api.ACTIVE);
     asContextFile (Cases.remote Api.ACTIVE)].
Proof.
  cbv zeta.
  refine (proj1 (proj2
    (@same_millisecond_uploads_collide 1700 Cases.plan Sample.photo
       (Sample.state "x" None [] [] None)
       (Cases.remote Api.ACTIVE) (Cases.remote Api.ACTIVE) _ _ _ _)));
    vm_compute; reflexivity.
Defined.

(** ** Dictation *)

(** A string that neither begins nor ends with white space is its own
    trimmed form. *)
Lemma trim_fixed (c : ascii) (t : jsstring) :
  isSpace c = false -> isSpace (last (c :: t) " "%char) = false ->
  trim (c :: t) = c :: t.
Proof.
  intros Hc Hl. unfold trim. simpl trimStart. rewrite Hc.
  unfold trimEnd.
  destruct (exists_last (l := c :: t)) as (t' & l & E); [discriminate|].
  rewrite E in Hl |- *. rewrite last_last in Hl.
  rewrite rev_app_distr. simpl. rewrite Hl. simpl.
  rewrite rev_involutive. reflexivity.
Qed.




(** ** [uploadFile] *)

Section Polling.

Import Api.

Variable files : Files.
Variable name : jsstring.

Lemma poll_settles (fuel : nat) :
  forall k cur evs g,
    poll files name fuel k cur = Some (evs, Ok g) ->
    isProcessingState (rf_state g) = false
    /\ isFailedState (rf_state g) = false
    /\ exists n, evs = rounds name n.
Proof.
  induction fuel as [|fuel IH]; intros k cur evs g; simpl.
  - destruct (isProcessingState (rf_state cur)) eqn:Ep; [discriminate|].
    destruct (isFailedState (rf_state cur)) eqn:Ef; [discriminate|].
    intros [= <- <-]. repeat split; auto. exists 0. reflexivity.
  - destruct (isProcessingState (rf_state cur)) eqn:Ep.
    + destruct (get files k name) as [g'|e]; [|discriminate].
      destruct (poll files name fuel (S k) g') as [[evs' r']|] eqn:E;
        [|discriminate].
      intros [= <- ->]. destruct (IH _ _ _ _ E) as (H1 & H2 & n & ->).
      repeat split; auto. exists (S n). reflexivity.
    + destruct (isFailedState (rf_state cur)) eqn:Ef; [discriminate|].
      intros [= <- <-]. repeat split; auto. exists 0. reflexivity.
Qed.

Lemma poll_progress (n : nat) :
  forall k cur polled fuel,
    n <= fuel ->
    isProcessingState (rf_state cur) = (0 <? n) ->
    (forall j, j < n ->
       get files (k + j) name = Ok (polled j)
       /\ isProcessingState (rf_state (polled j)) = (S j <? n)) ->
    poll files name fuel k cur
    = Some (rounds name n,
            settled match n with 0 => cur | S n' => polled n' end).
Proof.
  induction n as [|n IH]; intros k cur polled fuel Hfuel Hcur Hget.
  - change (0 <? 0) with false in Hcur. unfold settled, rounds.
    destruct fuel; simpl; rewrite Hcur;
      destruct (isFailedState (rf_state cur)); reflexivity.
  - destruct fuel as [|fuel]; [lia|]. simpl poll. rewrite Hcur.
    change (0 <? S n) with true. cbv iota.
    destruct (Hget 0) as [G0 P0]; [lia|].
    rewrite Nat.add_0_r in G0. rewrite G0.
    rewrite (IH (S k) (polled 0) (fun j => polled (S j)) fuel).
    + destruct n; reflexivity.
    + lia.
    + rewrite P0. destruct n; reflexivity.
    + intros j Hj. destruct (Hget (S j)) as [G P]; [lia|].
      replace (S k + j) with (k + S j) by lia. split; [exact G|].
      rewrite P. reflexivity.
Qed.

End Polling.

(** X14. [uploadFile] polls until the file has left the processing
    state. If the file is still processing at the first [n] looks and
    not at the next, then with fuel for [n] rounds the function makes
    [n + 1] calls of [get], each call in the loop followed by a wait of
    five seconds (also the one that finds the file ready), and ends with
    that file, or with "File processing failed." when its state is
    FAILED. Whenever it returns a file at all, that file is neither
    processing nor failed. *)
Theorem upload_polls_until_settled (files : Api.Files) (f : File)
    (up first : Api.RemoteFile) (polled : nat -> Api.RemoteFile)
    (n fuel : nat) :
  (Api.upload files f = Ok up ->
   Api.get files 0 (Api.rf_name up) = Ok first ->
   Api.isProcessingState (Api.rf_state first) = (0 <? n) ->
   (forall j, j < n ->
      Api.get files (1 + j) (Api.rf_name up) = Ok (polled j)
      /\ Api.isProcessingState (Api.rf_state (polled j)) = (S j <? n)) ->
   n <= fuel ->
   Api.uploadFile files f fuel
   = Some (Api.Upload f :: Api.Get (Api.rf_name up)
           :: rounds (Api.rf_name up) n,
           settled match n with 0 => first | S n' => polled n' end))
  /\ (forall evs g,
        Api.uploadFile files f fuel = Some (evs, Ok g) ->
        Api.rf_state g <> Api.PROCESSING /\ Api.rf_state g <> Api.FAILED
        /\ Forall (fun ms => ms = 5000) (Api.waitsIn evs)
        /\ S (length (Api.waitsIn evs)) = Api.getsIn evs).
Proof.
  split.
  - intros Hu Hg Hp Hpoll Hfuel. unfold Api.uploadFile.
    rewrite Hu, Hg.
    rewrite (@poll_progress files (Api.rf_name up) n 1 first polled fuel
               Hfuel Hp Hpoll).
    reflexivity.
  - intros evs g. unfold Api.uploadFile.
    destruct (Api.upload files f) as [u|e]; [|discriminate].
    destruct (Api.get files 0 (Api.rf_name u)) as [g0|e]; [|discriminate].
    destruct (Api.poll files (Api.rf_name u) fuel 1 g0) as [[evs' r]|] eqn:E;
      [|discriminate].
    intros [= <- ->].
    destruct (poll_settles files (Api.rf_name u) fuel 1 g0 E)
      as (H1 & H2 & m & ->).
    split; [intros Hs; rewrite Hs in H1; discriminate|].
    split; [intros Hs; rewrite Hs in H2; discriminate|].
    clear E. unfold Api.waitsIn, Api.getsIn, rounds.
    cbn [flat_map filter app length].
    induction m as [|m IH].
    + split; [constructor | reflexivity].
    + destruct IH as [IHw IHg]. cbn [repeat concat app flat_map filter length].
      split; [constructor; [reflexivity | exact IHw]|].
      rewrite IHg. reflexivity.
Qed.

Lemma upload_polls_until_settled_witness :
  Api.uploadFile (Cases.settlesAfter 3 Api.ACTIVE) Cases.plan 10
  = Some ([Api.Upload Cases.plan; Api.Get (str "files/xyz");
           Api.Get (str "files/xyz"); Api.Wait 5000;
           Api.Get (str "files/xyz"); Api.Wait 5000;
           Api.Get (str "files/xyz"); Api.Wait 5000],
          Ok (Cases.remote Api.ACTIVE)).
Proof.
  refine (proj1 (@upload_polls_until_settled
                   (Cases.settlesAfter 3 Api.ACTIVE) Cases.plan
                   (Cases.remote Api.PROCESSING)
                   (Cases.remote Api.PROCESSING)
                   (fun j => Cases.remote (if S j <? 3 then Api.PROCESSING
                                           else Api.ACTIVE))
                   3 10) eq_refl eq_refl eq_refl _ _); [|lia].
  intros j Hj. destruct j as [|[|[|j]]]; [| | |lia]; split; reflexivity.
Defined.

(** ** Saving and loading the log *)

Section HistoryRoundTrip.

Import History.

Variable nullAccess : Error.




End HistoryRoundTrip.





(** ** The splitter, for every text *)

Section SplitterShape.

Import TTS.

Lemma sentences_aux_concat (s : jsstring) :
  forall cur,
    concat (sentences_aux Body cur s) = rev cur ++ s
    /\ concat (sentences_aux Tail cur s) = rev cur ++ s.
Proof.
  induction s as [|c s IH]; intros cur.
  - simpl. rewrite !app_nil_r. split; reflexivity.
  - assert (Hshift : rev (c :: cur) ++ s = rev cur ++ c :: s).
    { simpl. rewrite <- app_assoc. reflexivity. }
    simpl. split.
    + destruct (isStop c).
      * rewrite (proj2 (IH (c :: cur))). exact Hshift.
      * rewrite (proj1 (IH (c :: cur))). exact Hshift.
    + destruct (isStop c || isSpace c).
      * rewrite (proj2 (IH (c :: cur))). exact Hshift.
      * simpl. rewrite (proj1 (IH [c])). reflexivity.
Qed.

Lemma sentences_concat (text : jsstring) :
  concat (sentences text) = dropStops text.
Proof.
  unfold sentences. induction text as [|c s IH]; [reflexivity|].
  simpl. destruct (isStop c); [exact IH|].
  apply (proj1 (sentences_aux_concat s [c])).
Qed.

Lemma last_app_cons (A : Type) (a : list A) (x : A) (w : list A) (d : A) :
  last (a ++ x :: w) d = last (x :: w) d.
Proof.
  induction a as [|y a IH]; [reflexivity|].
  simpl app. destruct (a ++ x :: w) eqn:E; [destruct a; discriminate|].
  rewrite <- IH. reflexivity.
Qed.

Lemma spaceFree_last (w : jsstring) (c : ascii) :
  spaceFree (c :: w) = true -> isSpace (last (c :: w) " "%char) = false.
Proof.
  revert c. induction w as [|x w IH]; intros c H.
  - unfold spaceFree in H. simpl in H. rewrite andb_true_r in H.
    apply negb_true_iff in H. exact H.
  - unfold spaceFree in H. simpl in H. apply andb_true_iff in H.
    destruct H as [_ H]. apply (IH x H).
Qed.

Lemma word_wellEnded (w : jsstring) :
  truthy w = true -> spaceFree w = true -> wellEnded w.
Proof.
  destruct w as [|c w]; [discriminate|]. intros _ H. split.
  - unfold spaceFree in H. simpl in H. apply andb_true_iff in H.
    destruct H as [H _]. apply negb_true_iff in H. exact H.
  - apply spaceFree_last, H.
Qed.

Lemma join_wellEnded (a w : jsstring) :
  wellEnded a -> wellEnded w -> wellEnded (a ++ " "%char :: w).
Proof.
  destruct a as [|h a]; [contradiction|].
  destruct w as [|x w]; [contradiction|].
  intros [Hh _] [_ Hl]. split; [exact Hh|].
  replace ((h :: a) ++ " "%char :: x :: w)
    with (((h :: a) ++ [" "%char]) ++ x :: w)
    by (rewrite <- app_assoc; reflexivity).
  rewrite last_app_cons. exact Hl.
Qed.

Lemma wellEnded_trim (c : jsstring) : wellEnded c -> trim c = c.
Proof.
  destruct c as [|h t]; [contradiction|]. intros [Hh Hl].
  apply trim_fixed; assumption.
Qed.

Lemma packWords_shape (ws : list jsstring) :
  forall cur,
    chunkShape cur ->
    Forall (fun w => truthy w = true) ws ->
    Forall (fun w => spaceFree w = true) ws ->
    Forall chunkShape (packWords cur ws).
Proof.
  induction ws as [|w ws IH]; intros cur Hcur Ht Hs; simpl.
  - destruct (truthy cur); [constructor; [exact Hcur|constructor]
                           |constructor].
  - inversion Ht as [|? ? Htw Htrest]; subst.
    inversion Hs as [|? ? Hsw Hsrest]; subst.
    assert (Hw : chunkShape w).
    { right. split; [apply word_wellEnded; assumption | right; exact Hsw]. }
    destruct (MAX_CHUNK_LENGTH <? length cur + length w + 1) eqn:E.
    + constructor; [exact Hcur | apply IH; assumption].
    + apply Nat.ltb_ge in E. apply IH; [|assumption|assumption].
      destruct Hcur as [-> | [Hends _]]; [exact Hw|].
      destruct cur as [|h t]; [contradiction|].
      right. split.
      * apply (join_wellEnded (h :: t) w Hends).
        apply word_wellEnded; assumption.
      * left. simpl in E |- *. rewrite length_app. simpl. lia.
Qed.

Lemma chunksOfSentence_shape (sentence : jsstring) :
  Forall chunkShape (chunksOfSentence sentence).
Proof.
  unfold chunksOfSentence.
  destruct (length (trim sentence) =? 0) eqn:E0; [constructor|].
  assert (Hne : trim sentence <> []).
  { intros Hn. rewrite Hn in E0. discriminate. }
  destruct (MAX_CHUNK_LENGTH <? length (trim sentence)) eqn:E1.
  - apply packWords_shape.
    + left. reflexivity.
    + apply splitWs_trim_truthy, Hne.
    + apply splitWs_spaceFree. reflexivity.
  - apply Nat.ltb_ge in E1. constructor; [|constructor].
    right. split; [|left; exact E1].
    pose proof (trim_ends sentence) as H.
    destruct (trim sentence) as [|h t]; [contradiction|]. exact H.
Qed.

End SplitterShape.

(** X17. For every reply text, with no condition on it: the sentences
    are the text cut in pieces, nothing lost but the stops it begins
    with; the spoken chunks hold the words of the sentences, whole and
    in order; a chunk is longer than 160 characters only when it is one
    single word; and every spoken chunk is non-empty and has no white
    space at its ends. *)
Theorem tts_chunks_for_every_text (text : jsstring) :
  concat (TTS.sentences text) = dropStops text
  /\ flat_map TTS.wordsOf (TTS.spokenChunks text)
     = flat_map TTS.wordsOf (TTS.sentences text)
  /\ Forall (fun c => length c <= 160 \/ TTS.spaceFree c = true)
            (TTS.chunks text)
  /\ Forall (fun c => c <> [] /\ trim c = c) (TTS.spokenChunks text).
Proof.
  assert (Hshape : Forall chunkShape (TTS.chunks text)).
  { unfold TTS.chunks. apply Forall_flat_map.
    apply Forall_forall. intros s _. apply chunksOfSentence_shape. }
  split; [apply sentences_concat|]. split.
  { unfold TTS.spokenChunks. rewrite flat_map_wordsOf_filter.
    apply chunks_words. }
  split.
  - eapply Forall_impl; [|exact Hshape].
    intros c [-> | [_ H]]; [left; simpl; lia | exact H].
  - unfold TTS.spokenChunks. apply Forall_forall. intros c Hc.
    apply filter_In in Hc. destruct Hc as [Hin Ht].
    rewrite Forall_forall in Hshape.
    destruct (Hshape c Hin) as [-> | [He _]]; [discriminate|].
    split; [intros ->; contradiction | apply wellEnded_trim, He].
Qed.

(** ** The visualizer's connections and contexts *)

Section WiringProofs.

Import Visual3D Wiring.

Lemma sameTap_refl (g : GainNode) (a : Analyser) : sameTap g a (g, a) = true.
Proof.
  unfold sameTap, eqbGain, eqbAnalyser, eqbContext. simpl.
  rewrite !Nat.eqb_refl. destruct (analyser_context a);
    simpl; apply Nat.eqb_refl.
Qed.

Lemma taps_gainFree (t : list AudioEffect) :
  forall live, forallb gainFree t = true -> fold_left tapStep t live = live.
Proof.
  induction t as [|e t IH]; intros live H; [reflexivity|].
  simpl in H. apply andb_true_iff in H. destruct H as [He Ht].
  simpl.
  assert (E : tapStep live e = live)
    by (destruct e; try reflexivity; discriminate).
  rewrite E. apply IH, Ht.
Qed.

Lemma contexts_contextFree (t : list AudioEffect) :
  forall opened,
    forallb contextFree t = true -> fold_left contextStep t opened = opened.
Proof.
  induction t as [|e t IH]; intros opened H; [reflexivity|].
  simpl in H. apply andb_true_iff in H. destruct H as [He Ht].
  simpl.
  assert (E : contextStep opened e = opened)
    by (destruct e; try reflexivity; discriminate).
  rewrite E. apply IH, Ht.
Qed.

Lemma cleanup_taps (st : VState) (live : list (GainNode * Analyser)) :
  tapsAgree st live -> fold_left tapStep (runCleanup st) live = [].
Proof.
  unfold tapsAgree, runCleanup.
  intros [-> | (g & a & -> & Hc & Ha)].
  - destruct (sourceCleanup st) as [[g|v src c]|]; [| |reflexivity].
    + destruct (analyser st); reflexivity.
    + destruct (analyser st); reflexivity.
  - rewrite Hc, Ha. simpl. rewrite sameTap_refl. reflexivity.
Qed.

Lemma cleanup_contexts (st : VState) (opened : list nat) :
  contextsAgree st opened ->
  fold_left contextStep (runCleanup st) opened = [].
Proof.
  unfold contextsAgree, runCleanup. intros ->.
  destruct (sourceCleanup st) as [[g|v src c]|]; [| |reflexivity].
  - destruct (analyser st); reflexivity.
  - destruct (analyser st); simpl; rewrite Nat.eqb_refl; reflexivity.
Qed.

Lemma startDrawing_free (st : VState) :
  forallb gainFree (snd (startDrawing st)) = true
  /\ forallb contextFree (snd (startDrawing st)) = true.
Proof.
  unfold startDrawing. destruct (animationFrameId st); split; reflexivity.
Qed.

(** One event keeps the taps in agreement, and an event that takes the
    source down leaves no tap. *)
Lemma step_taps (ev : Event) (st : VState)
    (live : list (GainNode * Analyser)) :
  tapsAgree st live ->
  tapsAgree (fst (step ev st)) (fold_left tapStep (snd (step ev st)) live)
  /\ (tearsDown ev = true ->
      fold_left tapStep (snd (step ev st)) live = []).
Proof.
  intros H.
  assert (Hmic : forall g s, tapsAgree s live ->
            tapsAgree (fst (setupMicVisualizer g s))
                      (fold_left tapStep (snd (setupMicVisualizer g s)) live)).
  { intros g s Hs. unfold setupMicVisualizer.
    match goal with
    | |- context [startDrawing ?s1] =>
        destruct (startDrawing_fields s1) as (Fa & Fc & _);
        destruct (startDrawing_free s1) as [Fg _];
        destruct (startDrawing s1) as [st2 drawn]
    end.
    simpl in Fa, Fc, Fg. simpl fst. simpl snd.
    rewrite fold_left_app, (cleanup_taps Hs). simpl fold_left.
    rewrite (taps_gainFree _ _ Fg).
    right. eexists _, _. split; [reflexivity|]. rewrite Fa, Fc.
    split; reflexivity. }
  assert (Hvid : forall how v s, tapsAgree s live ->
            fold_left tapStep (snd (setupVideoVisualizer how v s)) live = []).
  { intros how v s Hs. unfold setupVideoVisualizer. destruct how.
    - match goal with
      | |- context [startDrawing ?s1] =>
          destruct (startDrawing_free s1) as [Fg _];
          destruct (startDrawing s1) as [st2 drawn]
      end.
      simpl in Fg. simpl snd.
      rewrite fold_left_app, (cleanup_taps Hs). simpl fold_left.
      apply (taps_gainFree _ _ Fg).
    - simpl snd. apply (cleanup_taps Hs).
    - simpl snd. rewrite fold_left_app, (cleanup_taps Hs). reflexivity. }
  destruct ev as [video input vc ic how|]; simpl step.
  - assert (H' : tapsAgree (withProps video input st) live) by exact H.
    unfold updated. cbn [videoElement inputNode withProps].
    destruct video as [v|].
    + destruct vc.
      * rewrite (Hvid how v _ H'). split; [left|]; reflexivity.
      * simpl. split; [exact H' | discriminate].
    + destruct input as [g|].
      * destruct (ic || vc); [split; [apply Hmic, H' | discriminate]|].
        simpl. split; [exact H' | discriminate].
      * simpl fst. simpl snd. rewrite (cleanup_taps H').
        split; [left|]; reflexivity.
  - unfold disconnectedCallback. simpl fst. simpl snd.
    rewrite fold_left_app.
    rewrite (taps_gainFree (if animationFrameId st
                            then [CancelAnimationFrame] else []) live)
      by (destruct (animationFrameId st); reflexivity).
    rewrite (cleanup_taps H). split; [left|]; reflexivity.
Qed.

Lemma run_snoc (evs : list Event) (ev : Event) :
  forall st,
    run (evs ++ [ev]) st
    = (fst (step ev (fst (run evs st))),
       snd (run evs st) ++ snd (step ev (fst (run evs st)))).
Proof.
  induction evs as [|e evs IH]; intros st; simpl.
  - destruct (step ev st) as [st1 t1]. simpl. rewrite app_nil_r. reflexivity.
  - destruct (step e st) as [st1 t1]. rewrite (IH st1).
    destruct (run evs st1) as [st2 t2]. simpl.
    rewrite app_assoc. reflexivity.
Qed.

Lemma run_taps (evs : list Event) :
  tapsAgree (stateAfter evs) (liveTaps (traceOf evs)).
Proof.
  induction evs as [|ev evs IH] using rev_ind; [left; reflexivity|].
  unfold stateAfter, traceOf, liveTaps in *. rewrite run_snoc.
  cbn [fst snd]. rewrite fold_left_app. apply step_taps, IH.
Qed.

End WiringProofs.

(** X18. After every sequence of events, also when setups throw, at
    most one analysis node is connected to a microphone gain node, and
    if one is, it is the current analysis node on the node of the
    installed microphone teardown; and right after a video element
    arrives, after both sources are gone, or after the element is
    removed, none is connected. *)
Theorem one_microphone_tap_at_most (evs : list Visual3D.Event) :
  let st := Wiring.stateAfter evs in
  let live := Wiring.liveTaps (Wiring.traceOf evs) in
  length live <= 1
  /\ (forall g a, In (g, a) live ->
        Visual3D.sourceCleanup st = Some (Visual3D.MicCleanup g)
        /\ Visual3D.analyser st = Some a)
  /\ (forall ev, Wiring.tearsDown ev = true ->
        Wiring.liveTaps (Wiring.traceOf (evs ++ [ev])) = []).
Proof.
  cbv zeta. pose proof (run_taps evs) as H. split; [|split].
  - destruct H as [-> | (g & a & -> & _)]; simpl; lia.
  - intros g a Hin. destruct H as [H | (g' & a' & H & Hc & Ha)];
      rewrite H in Hin; [contradiction|].
    destruct Hin as [[= <- <-]|[]]. split; assumption.
  - intros ev Hev. unfold Wiring.traceOf, Wiring.liveTaps.
    rewrite run_snoc. cbn [snd]. rewrite fold_left_app.
    apply (proj2 (step_taps ev H) Hev).
Qed.

Lemma one_microphone_tap_at_most_witness :
  let evs :=
    [Visual3D.Update None (Some Visual3D.mic) false true Visual3D.SetupOk;
     Visual3D.Update None (Some Visual3D.mic) false true Visual3D.SetupOk] in
  length (Wiring.liveTaps (Wiring.traceOf evs)) = 1
  /\ Wiring.liveTaps
       (Wiring.traceOf
          (evs ++ [Visual3D.Update (Some Visual3D.player)
                     (Some Visual3D.mic) true false
                     Visual3D.ThrowsAtNewContext]))
     = [].
Proof.
  cbv zeta. split; [reflexivity|].
  refine (proj2 (proj2 (one_microphone_tap_at_most
    [Visual3D.Update None (Some Visual3D.mic) false true Visual3D.SetupOk;
     Visual3D.Update None (Some Visual3D.mic) false true Visual3D.SetupOk]))
    _ _).
  reflexivity.
Defined.

Section ContextProofs.

Import Visual3D Wiring.

(** One event whose setup does not throw keeps the account of the open
    contexts. *)
Lemma step_contexts (ev : Event) (st : VState) (opened : list nat) :
  neverThrows [ev] = true ->
  contextsAgree st opened ->
  contextsAgree (fst (step ev st))
                (fold_left contextStep (snd (step ev st)) opened).
Proof.
  intros Hev H.
  destruct ev as [video input vc ic how|]; simpl step.
  - assert (H' : contextsAgree (withProps video input st) opened) by exact H.
    destruct how; try discriminate. clear Hev.
    unfold updated. cbn [videoElement inputNode withProps].
    destruct video as [v|].
    + destruct vc; [|exact H'].
      unfold setupVideoVisualizer.
      match goal with
      | |- context [startDrawing ?s1] =>
          destruct (startDrawing_fields s1) as (_ & Fc & _);
          destruct (startDrawing_free s1) as [_ Fg];
          destruct (startDrawing s1) as [st2 drawn]
      end.
      simpl in Fc, Fg. simpl fst. simpl snd.
      rewrite fold_left_app, (cleanup_contexts H'). simpl fold_left.
      rewrite (contexts_contextFree _ _ Fg).
      unfold contextsAgree. rewrite Fc. reflexivity.
    + destruct input as [g|].
      * destruct (ic || vc); [|exact H'].
        unfold setupMicVisualizer.
        match goal with
        | |- context [startDrawing ?s1] =>
            destruct (startDrawing_fields s1) as (_ & Fc & _);
            destruct (startDrawing_free s1) as [_ Fg];
            destruct (startDrawing s1) as [st2 drawn]
        end.
        simpl in Fc, Fg. simpl fst. simpl snd.
        rewrite fold_left_app, (cleanup_contexts H'). simpl fold_left.
        rewrite (contexts_contextFree _ _ Fg).
        unfold contextsAgree. rewrite Fc. reflexivity.
      * simpl fst. simpl snd. rewrite (cleanup_contexts H'). reflexivity.
  - unfold disconnectedCallback. simpl fst. simpl snd.
    rewrite fold_left_app.
    rewrite (contexts_contextFree (if animationFrameId st
                                   then [CancelAnimationFrame] else [])
                                  opened)
      by (destruct (animationFrameId st); reflexivity).
    rewrite (cleanup_contexts H). reflexivity.
Qed.

Lemma run_contexts (evs : list Event) :
  neverThrows evs = true ->
  contextsAgree (stateAfter evs) (openContexts (traceOf evs)).
Proof.
  induction evs as [|ev evs IH] using rev_ind; intros Hev; [reflexivity|].
  unfold neverThrows in Hev. rewrite forallb_app in Hev.
  apply andb_true_iff in Hev. destruct Hev as [Hevs Hev].
  unfold stateAfter, traceOf, openContexts in *. rewrite run_snoc.
  cbn [fst snd]. rewrite fold_left_app.
  apply step_contexts; [exact Hev | apply IH, Hevs].
Qed.

End ContextProofs.

(** X19. When no setup of a video source throws, the audio contexts
    the visualizer has constructed and not yet closed are, after every
    sequence of events, exactly the one its installed video teardown
    will close: one context while a video source is installed, none
    while the microphone is the source, none after both sources are gone
    or the element is removed. *)
Theorem contexts_are_closed (evs : list Visual3D.Event) :
  Wiring.neverThrows evs = true ->
  let st := Wiring.stateAfter evs in
  let opened := Wiring.openContexts (Wiring.traceOf evs) in
  (forall v src c,
     Visual3D.sourceCleanup st = Some (Visual3D.VideoCleanup v src c) ->
     opened = [c])
  /\ ((forall v src c,
         Visual3D.sourceCleanup st <> Some (Visual3D.VideoCleanup v src c)) ->
      opened = [])
  /\ (forall ev, ev = Visual3D.Disconnect
                 \/ (exists vc ic,
                       ev = Visual3D.Update None None vc ic Visual3D.SetupOk) ->
        Wiring.openContexts (Wiring.traceOf (evs ++ [ev])) = []).
Proof.
  intros Hev. cbv zeta. pose proof (run_contexts evs Hev) as H.
  unfold Wiring.contextsAgree in H. split; [|split].
  - intros v src c Hc. rewrite H, Hc. reflexivity.
  - intros Hn. rewrite H.
    destruct (Visual3D.sourceCleanup (Wiring.stateAfter evs))
      as [[g|v src c]|]; try reflexivity.
    exfalso. apply (Hn v src c). reflexivity.
  - intros ev Hlast.
    assert (Hall : Wiring.neverThrows (evs ++ [ev]) = true).
    { unfold Wiring.neverThrows in *. rewrite forallb_app, Hev.
      destruct Hlast as [-> | (vc & ic & ->)]; reflexivity. }
    pose proof (run_contexts _ Hall) as H2.
    unfold Wiring.contextsAgree in H2. rewrite H2.
    unfold Wiring.stateAfter. rewrite run_snoc. cbn [fst].
    destruct Hlast as [-> | (vc & ic & ->)]; reflexivity.
Qed.

Lemma contexts_are_closed_witness :
  let evs :=
    [Visual3D.Update (Some Visual3D.player) None true false Visual3D.SetupOk;
     Visual3D.Update (Some Visual3D.player) None true false
       Visual3D.SetupOk] in
  Wiring.openContexts (Wiring.traceOf evs) = [3]
  /\ Wiring.openContexts (Wiring.traceOf (evs ++ [Visual3D.Disconnect])) = [].
Proof.
  cbv zeta. split.
  - refine (proj1 (contexts_are_closed
      [Visual3D.Update (Some Visual3D.player) None true false
         Visual3D.SetupOk;
       Visual3D.Update (Some Visual3D.player) None true false
         Visual3D.SetupOk] _)
      Visual3D.player 4 3 _); reflexivity.
  - refine (proj2 (proj2 (contexts_are_closed
      [Visual3D.Update (Some Visual3D.player) None true false
         Visual3D.SetupOk;
       Visual3D.Update (Some Visual3D.player) None true false
         Visual3D.SetupOk] _))
      Visual3D.Disconnect _); [reflexivity | left; reflexivity].
Defined.

Section LeakProofs.

Import Visual3D Wiring.

Lemma run_app (evs evs' : list Event) :
  forall st,
    run (evs ++ evs') st
    = (fst (run evs' (fst (run evs st))),
       snd (run evs st) ++ snd (run evs' (fst (run evs st)))).
Proof.
  induction evs as [|e evs IH]; intros st; simpl.
  - destruct (run evs' st); reflexivity.
  - destruct (step e st) as [st1 t1]. rewrite (IH st1).
    destruct (run evs st1) as [st2 t2]. simpl.
    rewrite app_assoc. reflexivity.
Qed.

Lemma fold_spares (n : nat) (t : list AudioEffect) :
  forall opened,
    forallb (spares n) t = true -> In n opened ->
    In n (fold_left contextStep t opened).
Proof.
  induction t as [|e t IH]; intros opened H Hin; [exact Hin|].
  simpl in H. apply andb_true_iff in H. destruct H as [He Ht].
  simpl. apply IH; [exact Ht|].
  destruct e as [m| | | | | | | | | | |[b|c]| |]; simpl; auto.
  simpl in He. apply filter_In. split; [exact Hin|].
  rewrite Nat.eqb_sym. exact He.
Qed.

Lemma cleanup_spares (n : nat) (st : VState) :
  (forall v src c, sourceCleanup st = Some (VideoCleanup v src c) -> c <> n) ->
  forallb (spares n) (runCleanup st) = true.
Proof.
  unfold runCleanup. intros H.
  destruct (sourceCleanup st) as [[g|v src c]|]; [| |reflexivity].
  - destruct (analyser st); reflexivity.
  - specialize (H v src c eq_refl).
    assert (E : (c =? n) = false) by (apply Nat.eqb_neq; exact H).
    destruct (analyser st); simpl; rewrite E; reflexivity.
Qed.

Ltac visualizer_cases ev st :=
  destruct ev as [[?v|] [?g|] [|] [|] [| |]|];
  unfold step, updated, disconnectedCallback, setupVideoVisualizer,
    setupMicVisualizer, startDrawing, withProps;
  cbn [videoElement inputNode animationFrameId fst snd orb];
  destruct (animationFrameId st);
  cbn [videoElement inputNode animationFrameId sourceCleanup fresh analyser
       fst snd].

(** Each event leaves the installed video teardown closing a context
    made earlier, and never lowers the counter of made objects. *)
Lemma step_closesEarlier (ev : Event) (st : VState) :
  closesEarlier st ->
  closesEarlier (fst (step ev st)) /\ fresh st <= fresh (fst (step ev st)).
Proof.
  unfold closesEarlier. intros H.
  visualizer_cases ev st;
    (split; [intros v' src' c' E;
             first [discriminate E
                   | injection E as <- <- <-; lia
                   | specialize (H v' src' c' E); lia]
            | lia]).
Qed.

Lemma run_closesEarlier (evs : list Event) :
  closesEarlier (stateAfter evs).
Proof.
  induction evs as [|ev evs IH] using rev_ind.
  - intros v src c E. discriminate E.
  - unfold stateAfter in *. rewrite run_snoc. cbn [fst].
    apply step_closesEarlier, IH.
Qed.

(** Once the context numbered [n] is made and no installed teardown
    closes it, no later event closes it. *)
Lemma step_spares (n : nat) (ev : Event) (st : VState) :
  n < fresh st ->
  (forall v src c, sourceCleanup st = Some (VideoCleanup v src c) -> c <> n) ->
  forallb (spares n) (snd (step ev st)) = true
  /\ n < fresh (fst (step ev st))
  /\ (forall v src c,
        sourceCleanup (fst (step ev st)) = Some (VideoCleanup v src c) ->
        c <> n).
Proof.
  intros Hn H. pose proof (@cleanup_spares n st H) as Hc.
  visualizer_cases ev st;
    unfold runCleanup in *; cbn [sourceCleanup analyser] in *;
    (split;
     [ rewrite ?forallb_app; try rewrite Hc; reflexivity
     | split;
       [ lia
       | intros v' src' c' E;
         first [discriminate E
               | injection E as <- <- <-; lia
               | exact (H v' src' c' E)] ] ]).
Qed.

Lemma run_spares (n : nat) (evs : list Event) :
  forall st opened,
    n < fresh st ->
    (forall v src c,
       sourceCleanup st = Some (VideoCleanup v src c) -> c <> n) ->
    In n opened ->
    In n (fold_left contextStep (snd (run evs st)) opened).
Proof.
  induction evs as [|ev evs IH]; intros st opened Hn H Hin; [exact Hin|].
  destruct (@step_spares n ev st Hn H) as (Ht & Hn1 & H1).
  simpl. destruct (step ev st) as [st1 t1]. cbn [fst snd] in Ht, Hn1, H1.
  specialize (IH st1 (fold_left contextStep t1 opened) Hn1 H1
                 (@fold_spares n t1 opened Ht Hin)).
  destruct (run evs st1) as [st2 t2]. cbn [snd] in *.
  rewrite fold_left_app. exact IH.
Qed.

End LeakProofs.

(** X20. When [createMediaElementSource] throws in the setup of a
    video source, the audio context constructed just before it is never
    closed: whatever happened before and whatever happens afterwards
    (other sources, removal of the element), that context is among the
    contexts made and not closed. *)
Theorem failed_video_setup_leaks_context
    (evs evs' : list Visual3D.Event) (v : Visual3D.VideoElement)
    (input : option Visual3D.GainNode) (inputChanged : bool) :
  let n := Visual3D.fresh (Wiring.stateAfter evs) in
  let tr :=
    Wiring.traceOf
      (evs ++ Visual3D.Update (Some v) input true inputChanged
                Visual3D.ThrowsAtCreateSource :: evs') in
  In (Visual3D.NewAudioContext n) tr /\ In n (Wiring.openContexts tr).
Proof.
  cbv zeta. unfold Wiring.traceOf, Wiring.openContexts.
  rewrite run_app. cbn [snd].
  pose proof (run_closesEarlier evs) as Hc.
  unfold Wiring.stateAfter in *.
  set (st0 := fst (Visual3D.run evs Visual3D.initial)) in *.
  set (t0 := snd (Visual3D.run evs Visual3D.initial)).
  cbn [Visual3D.run Visual3D.step].
  unfold Visual3D.updated, Visual3D.setupVideoVisualizer.
  cbn [Visual3D.videoElement Visual3D.withProps].
  match goal with
  | |- context [Visual3D.run evs' ?s] => set (st1 := s)
  end.
  match goal with
  | |- context [Visual3D.runCleanup ?s] => set (before := Visual3D.runCleanup s)
  end.
  assert (Hrun : In (Visual3D.fresh st0)
            (fold_left Wiring.contextStep (snd (Visual3D.run evs' st1))
               (Visual3D.fresh st0
                :: fold_left Wiring.contextStep before
                     (fold_left Wiring.contextStep t0 [])))).
  { apply run_spares.
    - simpl. lia.
    - intros v' src c E. specialize (Hc v' src c E). lia.
    - left. reflexivity. }
  destruct (Visual3D.run evs' st1) as [st2 t2]. cbn [snd] in *.
  split.
  - apply in_or_app. right. apply in_or_app. left.
    apply in_or_app. right. left. reflexivity.
  - rewrite !fold_left_app. exact Hrun.
Qed.

(** ** The payload of a data URL *)

Lemma splitChar_aux_free (sep : ascii) (p : jsstring) :
  forall cur,
    forallb (fun c => negb (Ascii.eqb c sep)) p = true ->
    splitChar_aux sep cur p = [rev cur ++ p].
Proof.
  induction p as [|c p IH]; intros cur H; simpl.
  - rewrite app_nil_r. reflexivity.
  - simpl in H. apply andb_true_iff in H. destruct H as [Hc Hp].
    apply negb_true_iff in Hc. rewrite Hc, (IH (c :: cur) Hp). simpl.
    rewrite <- app_assoc. reflexivity.
Qed.

Lemma splitChar_aux_head (sep : ascii) (h rest : jsstring) :
  forall cur,
    forallb (fun c => negb (Ascii.eqb c sep)) h = true ->
    splitChar_aux sep cur (h ++ sep :: rest)
    = (rev cur ++ h) :: splitChar_aux sep [] rest.
Proof.
  induction h as [|c h IH]; intros cur H; simpl.
  - rewrite Ascii.eqb_refl, app_nil_r. reflexivity.
  - simpl in H. apply andb_true_iff in H. destruct H as [Hc Hh].
    apply negb_true_iff in Hc. rewrite Hc, (IH (c :: cur) Hh). simpl.
    rewrite <- app_assoc. reflexivity.
Qed.

Lemma payload_of_data_url (head payload rest : jsstring) :
  commaFree head = true -> commaFree payload = true ->
  nth_error (splitChar "," (head ++ ","%char :: payload)) 1 = Some payload
  /\ nth_error (splitChar "," (head ++ ","%char :: payload ++ ","%char :: rest)) 1
     = Some payload
  /\ nth_error (splitChar "," head) 1 = None.
Proof.
  unfold commaFree, splitChar. intros Hh Hp. split; [|split].
  - rewrite (@splitChar_aux_head _ _ _ _ Hh), (@splitChar_aux_free _ _ _ Hp).
    reflexivity.
  - rewrite (@splitChar_aux_head _ _ _ _ Hh), (@splitChar_aux_head _ _ _ _ Hp).
    reflexivity.
  - rewrite (@splitChar_aux_free _ _ _ Hh). reflexivity.
Qed.

(** X21. The inline part built from an attached file or from a screen
    capture carries what stands between the first comma of the data URL
    and the next comma or the end: the whole base64 payload of a URL
    [head,payload], cut short at a second comma. A URL without a comma
    gives a part whose data is undefined rather than an error. The MIME
    type is the file's, and image/jpeg for a capture. *)
Theorem inline_part_carries_payload (env : Env) (f : File)
    (capture : ScreenCapture) (head payload rest : jsstring) :
  commaFree head = true -> commaFree payload = true ->
  (readAsDataURL env f = Ok (head ++ ","%char :: payload) ->
   _fileToGenerativePart env f = Ok (PInlineData (Some payload) (file_type f)))
  /\ (readAsDataURL env f = Ok (head ++ ","%char :: payload ++ ","%char :: rest) ->
      _fileToGenerativePart env f
      = Ok (PInlineData (Some payload) (file_type f)))
  /\ (readAsDataURL env f = Ok head ->
      _fileToGenerativePart env f = Ok (PInlineData None (file_type f)))
  /\ (dataUrl capture = head ++ ","%char :: payload ->
      captureParts [capture]
      = [PInlineData (Some payload) (str "image/jpeg")])
  /\ (dataUrl capture = head ->
      captureParts [capture] = [PInlineData None (str "image/jpeg")]).
Proof.
  intros Hh Hp.
  destruct (@payload_of_data_url head payload rest Hh Hp) as (E1 & E2 & E3).
  unfold _fileToGenerativePart, captureParts.
  split; [|split; [|split; [|split]]].
  - intros ->. rewrite E1. reflexivity.
  - intros ->. rewrite E2. reflexivity.
  - intros ->. rewrite E3. reflexivity.
  - intros E. cbn [map]. rewrite E, E1. reflexivity.
  - intros E. cbn [map]. rewrite E, E3. reflexivity.
Qed.

Lemma inline_part_carries_payload_witness :
  _fileToGenerativePart (Sample.answers "ok") Sample.photo
  = Ok (PInlineData (Some (str "AAAA")) (str "image/png"))
  /\ captureParts [Sample.frame]
     = [PInlineData (Some (str "AAAA")) (str "image/jpeg")].
Proof.
  pose proof (@inline_part_carries_payload (Sample.answers "ok") Sample.photo
                Sample.frame (str "data:image/jpeg;base64") (str "AAAA")
                (str "x") eq_refl eq_refl) as (_ & _ & _ & Hc & _).
  pose proof (@inline_part_carries_payload (Sample.answers "ok") Sample.photo
                Sample.frame (str "data:image/png;base64") (str "AAAA")
                (str "x") eq_refl eq_refl) as (Hf & _).
  split; [apply Hf | apply Hc]; reflexivity.
Defined.

(** ** The search results *)

Lemma isString_some (v : option History.JSON) :
  History.isString v = true <-> exists s, v = Some (History.JString s).
Proof.
  split.
  - destruct v as [[]|]; try discriminate. intros _. eexists. reflexivity.
  - intros [s ->]. reflexivity.
Qed.

Lemma keeps_isSearchResult (numberTruthy : jsstring -> bool)
    (item : History.JSON) :
  Search.keeps numberTruthy item = true <-> Search.isSearchResult item.
Proof.
  unfold Search.keeps, Search.isSearchResult. split.
  - intros H. apply andb_true_iff in H. destruct H as [H Hu].
    apply andb_true_iff in H. destruct H as [H Ht].
    apply andb_true_iff in H. destruct H as [_ Hv].
    destruct item; try discriminate Hv. cbn [Search.prop] in *.
    apply isString_some in Hv, Ht, Hu.
    destruct Hv as [v Hv], Ht as [t Ht], Hu as [u Hu].
    exists fields, v, t, u. auto.
  - intros (fields & v & t & u & -> & Hv & Ht & Hu).
    cbn [Search.prop Search.truthyJSON]. rewrite Hv, Ht, Hu. reflexivity.
Qed.

(** X22. Whatever array the search response parses to, also one with
    [null] or other non-object elements, the search does not throw and
    returns, in their order, exactly the elements that are objects with
    string values under [videoId], [title] and [thumbnailUrl]. A parsed
    value that is no array, and any error of the request or of the
    parser, ends in an error whose message is the fixed search-failure
    text followed by the message of the cause. *)
Theorem search_keeps_only_results (numberTruthy : jsstring -> bool) :
  (forall result,
     exists keep,
       (forall item, keep item = true <-> Search.isSearchResult item)
       /\ Search.searchYoutubeVideos numberTruthy (Ok (History.JArray result))
          = Ok (filter keep result))
  /\ (forall parsed,
        (forall result, parsed <> History.JArray result) ->
        Search.searchYoutubeVideos numberTruthy (Ok parsed)
        = Throw {| message :=
            str "Failed to search YouTube. The model may be unable to find results for your query. Original error: API did not return a valid array of search results." |})
  /\ (forall e,
        Search.searchYoutubeVideos numberTruthy (Throw e)
        = Throw {| message :=
            str "Failed to search YouTube. The model may be unable to find results for your query. Original error: "
            ++ message e |}).
Proof.
  split; [|split].
  - intros result. exists (Search.keeps numberTruthy). split.
    + apply keeps_isSearchResult.
    + reflexivity.
  - intros parsed Hn. destruct parsed; try reflexivity.
    exfalso. apply (Hn items). reflexivity.
  - intros e. reflexivity.
Qed.

Lemma search_keeps_only_results_witness :
  Search.searchYoutubeVideos (fun _ => true)
    (Ok (History.JObject [(str "error", History.JString (str "quota"))]))
  = Throw {| message :=
      str "Failed to search YouTube. The model may be unable to find results for your query. Original error: API did not return a valid array of search results." |}.
Proof.
  apply (proj1 (proj2 (search_keeps_only_results (fun _ => true)))).
  intros result. discriminate.
Defined.
